(** * Character-budget pagination of the LangSmith MCP server

    A shallow embedding of [src/common/pagination.ts] (the Truncator and the
    Paginator) and of the budget clamp of the tool layer in
    [src/services/register-tools.ts], with the properties of the
    specification stated and settled over it.

    Conventions of the embedding.
    - A JavaScript string is the list of its UTF-16 code units ([jstring]);
      [.length] is the length of that list and [slice] cuts code units, as
      in the engine.
    - A JavaScript number that the paginator handles (lengths, page
      numbers, budgets, preview lengths) is an integer and is modelled by
      [Z]; fractional budgets and page numbers are outside the model, and
      so are numeric leaves of items that are not integers or that reach
      10^21, which the engine prints with an exponent (the Truncator
      returns a number as it is, and only its printed length matters).
    - The one loop without a structural bound, the binary search of
      [enforcePageCharBudget], spends fuel; the functions built on it
      return an [option], and every statement about what they return is
      proved with [Some].
    - A JSON-like value is the tagged union [json], which is what
      [JSON.parse] yields.  An object is the list of its own enumerable
      properties in enumeration order, and its prototype is
      [Object.prototype].  An own property may be named [__proto__]
      ([JSON.parse] creates one, [JSON.stringify] and [Object.entries]
      show it), but the assignment [result[k] = v] on an object made by
      [{}] cannot create one: for [k = "__proto__"] it goes to the setter
      of [Object.prototype] and adds no own property.  The functions that
      rebuild an object by such assignments ([truncateStrings],
      [buildTraceTree]) therefore lose that entry, and the model loses it
      with them ([assigned]).  The setter may give the rebuilt object
      another prototype; the model keeps own properties only, which is
      all that [JSON.stringify], [Object.entries] and a further
      [truncateStrings] read, and a statement that reads a rebuilt value
      in another way assumes that no such entry was there ([protoFree]).
    - The operator [in] also sees the names that [Object.prototype]
      defines ([inherited]).  Where the source applies [in] to a name
      given by the caller ([findInDict], [filterFields]) the model answers
      for own properties, and every statement about those functions
      carries the hypothesis that the name is not an inherited one.
    - [JSON.stringify] is the compact serialisation (both callers of
      [pageOutputSize] leave [indent] at its default [0], so the third
      argument of [JSON.stringify] is [undefined]); the [bigint] replacer
      of the source is the identity on [json]. *)

From Stdlib Require Import ZArith List Bool Lia Ascii String.
Import ListNotations.
Local Open Scope Z_scope.

(* ------------------------------------------------------------------ *)
(** ** Strings as UTF-16 code units *)

Module Utf16.

Definition char16 := N.
Definition jstring := list char16.

(** [s.length] *)
Definition len {A : Type} (s : list A) : Z := Z.of_nat (List.length s).

(** Code units of an ASCII literal of the source. *)
Definition u16 (s : string) : jstring :=
  List.map N_of_ascii (list_ascii_of_string s).

Fixpoint eqb (a b : jstring) : bool :=
  match a, b with
  | [], [] => true
  | x :: a', y :: b' => N.eqb x y && eqb a' b'
  | _, _ => false
  end.

(** [s.slice(0, k)] for an integer [k]: a negative [k] counts from the
    end of the string. *)
Definition slice0 (s : jstring) (k : Z) : jstring :=
  if k <? 0 then firstn (Z.to_nat (len s + k)) s
  else firstn (Z.to_nat k) s.

(** Decimal digits of a non-negative integer, most significant first;
    [fuel] bounds the number of digits. *)
Fixpoint digits (fuel : nat) (n : Z) : jstring :=
  match fuel with
  | O => []
  | S f =>
      if n <? 10 then [Z.to_N (48 + n)]
      else digits f (n / 10) ++ [Z.to_N (48 + n mod 10)]
  end.

(** [String(n)] for an integer [n] (plain decimal notation, which is
    what the engine prints for integers below 10^21). *)
Definition ofNat (n : Z) : jstring := digits (S (Z.to_nat (Z.log2 n))) n.

Definition ofInt (n : Z) : jstring :=
  if n <? 0 then N_of_ascii "-" :: ofNat (- n) else ofNat n.

Definition hexDigit (d : N) : char16 :=
  (if d <? 10 then 48 + d else 87 + d)%N.

(** [\uXXXX] with lower-case hexadecimal digits. *)
Definition unicodeEscape (c : char16) : jstring :=
  [92; 117;
   hexDigit ((c / 4096) mod 16); hexDigit ((c / 256) mod 16);
   hexDigit ((c / 16) mod 16); hexDigit (c mod 16)]%N.

Definition isHigh (c : char16) : bool := ((55296 <=? c) && (c <=? 56319))%N.
Definition isLow (c : char16) : bool := ((56320 <=? c) && (c <=? 57343))%N.
Definition isSurrogate (c : char16) : bool := ((55296 <=? c) && (c <=? 57343))%N.

(** The escape of one code unit that is not part of a surrogate pair
    (QuoteJSONString: the two-character escapes, [\uXXXX] for the other
    control characters and for lone surrogates, the unit itself
    otherwise). *)
Definition escapeUnit (c : char16) : jstring :=
  if (c =? 8)%N then [92; 98]%N
  else if (c =? 9)%N then [92; 116]%N
  else if (c =? 10)%N then [92; 110]%N
  else if (c =? 12)%N then [92; 102]%N
  else if (c =? 13)%N then [92; 114]%N
  else if (c =? 34)%N then [92; 34]%N
  else if (c =? 92)%N then [92; 92]%N
  else if (c <? 32)%N || isSurrogate c then unicodeEscape c
  else [c].

(** The body of a quoted JSON string: a high surrogate followed by a low
    one is a code point of its own and is copied, every other unit is
    escaped by [escapeUnit]. *)
Fixpoint escape (s : jstring) : jstring :=
  match s with
  | [] => []
  | c :: tl =>
      match tl with
      | d :: tl' =>
          if isHigh c && isLow d then c :: d :: escape tl'
          else escapeUnit c ++ escape tl
      | [] => escapeUnit c
      end
  end.

(** [JSON.stringify(s)] for a string [s]. *)
Definition quote (s : jstring) : jstring := 34%N :: escape s ++ [34%N].

End Utf16.

Import Utf16.

(* ------------------------------------------------------------------ *)
(** ** JSON-like values *)

#[warnings="-register-all"]
Inductive json : Type :=
| JNull
| JBool (b : bool)
| JNum (n : Z)
| JStr (s : jstring)
| JArr (items : list json)
| JObj (props : list (jstring * json)).

(** An object as its list of own properties. *)
Definition obj := list (jstring * json).

Section JsonInduction.
Variable P : json -> Prop.
Hypothesis Hnull : P JNull.
Hypothesis Hbool : forall b, P (JBool b).
Hypothesis Hnum : forall n, P (JNum n).
Hypothesis Hstr : forall s, P (JStr s).
Hypothesis Harr : forall xs, Forall P xs -> P (JArr xs).
Hypothesis Hobj : forall kvs, Forall (fun kv => P (snd kv)) kvs -> P (JObj kvs).

Fixpoint json_nested_ind (v : json) : P v :=
  match v with
  | JNull => Hnull
  | JBool b => Hbool b
  | JNum n => Hnum n
  | JStr s => Hstr s
  | JArr xs =>
      Harr xs
        ((fix go (l : list json) : Forall P l :=
            match l with
            | [] => Forall_nil _
            | x :: r => Forall_cons x (json_nested_ind x) (go r)
            end) xs)
  | JObj kvs =>
      Hobj kvs
        ((fix go (l : list (jstring * json)) : Forall (fun kv => P (snd kv)) l :=
            match l with
            | [] => Forall_nil _
            | kv :: r =>
                Forall_cons (P := fun kv => P (snd kv)) kv
                  (json_nested_ind (snd kv)) (go r)
            end) kvs)
  end.
End JsonInduction.

(** [list.join(",")] on already serialised members. *)
Fixpoint joinComma (parts : list jstring) : jstring :=
  match parts with
  | [] => []
  | [p] => p
  | p :: rest => p ++ 44%N :: joinComma rest
  end.

(** [JSON.stringify(v)] without indentation. *)
Fixpoint stringify (v : json) : jstring :=
  match v with
  | JNull => u16 "null"
  | JBool true => u16 "true"
  | JBool false => u16 "false"
  | JNum n => ofInt n
  | JStr s => quote s
  | JArr xs => 91%N :: joinComma (List.map stringify xs) ++ [93%N]
  | JObj kvs =>
      123%N ::
        joinComma (List.map (fun kv => quote (fst kv) ++ 58%N :: stringify (snd kv)) kvs)
        ++ [125%N]
  end.

(* ------------------------------------------------------------------ *)
(** ** The Truncator: [truncateStrings] *)

(** The marker appended to a cut string: ["… (+" + elided + " chars)"]. *)
Definition marker (elided : Z) : jstring :=
  8230%N :: u16 " (+" ++ ofInt elided ++ u16 " chars)".

(** The name that an assignment on a plain object hands to the prototype
    setter instead of creating a property. *)
Definition k_proto : jstring := u16 "__proto__".

(** The entries that become own properties when an object is rebuilt by
    [result = {}] and [result[k] = ...] for each entry: all but one named
    [__proto__]. *)
Definition assigned {A : Type} (entries : list (jstring * A)) : list (jstring * A) :=
  List.filter (fun kv => negb (eqb (fst kv) k_proto)) entries.

(** [truncateStrings].  The loop over [Object.entries(obj)] assigns
    [result[k]]; an entry named [__proto__] adds nothing to [result]. *)
Fixpoint truncateStrings (o : json) (previewChars : Z) : json :=
  if previewChars <=? 0 then o
  else
    match o with
    | JStr s =>
        if len s <=? previewChars then o
        else JStr (slice0 s previewChars ++ marker (len s - previewChars))
    | JObj kvs =>
        JObj (flat_map
                (fun kv =>
                   if eqb (fst kv) k_proto then []
                   else [(fst kv, truncateStrings (snd kv) previewChars)])
                kvs)
    | JArr xs =>
        JArr (List.map (fun item => truncateStrings item previewChars) xs)
    | _ => o
    end.

(* ------------------------------------------------------------------ *)
(** ** Objects: property lookup, assignment, serialised size *)

(** The own property [k] of [o], which is [o[k]] for every name that
    objects do not inherit; [None] stands for [undefined]. *)
Fixpoint obj_get (k : jstring) (o : obj) : option json :=
  match o with
  | [] => None
  | (k', v) :: r => if eqb k k' then Some v else obj_get k r
  end.

(** [o[k] = v]: an existing property keeps its place, a new one is
    appended. *)
Fixpoint obj_set (k : jstring) (v : json) (o : obj) : obj :=
  match o with
  | [] => [(k, v)]
  | (k', v') :: r => if eqb k k' then (k', v) :: r else (k', v') :: obj_set k v r
  end.

(** Assignment of a value that may be [undefined]: [JSON.stringify] drops
    such a property, and so does the model. *)
Definition obj_set_opt (k : jstring) (v : option json) (o : obj) : obj :=
  match v with
  | Some x => obj_set k x o
  | None => o
  end.

(** [Object.fromEntries(Object.entries(o).filter(([k]) => k !== key))] *)
Definition obj_without (key : jstring) (o : obj) : obj :=
  List.filter (fun kv => negb (eqb (fst kv) key)) o.

(** [runCharCount]: character count of the serialised run. *)
Definition runCharCount (runDict : json) : Z := len (stringify runDict).

(** [pageOutputSize]: character count of the serialised page. *)
Definition pageOutputSize (pageDict : obj) : Z := len (stringify (JObj pageDict)).

(* ------------------------------------------------------------------ *)
(** ** Budget enforcement on the selected page *)

Definition k_runs : jstring := u16 "runs".
Definition k_result : jstring := u16 "result".
Definition k_page_number : jstring := u16 "page_number".
Definition k_total_pages : jstring := u16 "total_pages".
Definition k_max_chars_per_page : jstring := u16 "max_chars_per_page".
Definition k_preview_chars : jstring := u16 "preview_chars".
Definition k_truncated : jstring := u16 "_truncated".
Definition k_truncated_message : jstring := u16 "_truncated_message".
Definition k_truncated_preview : jstring := u16 "_truncated_preview".

(** ["\n… (output truncated, exceeded max_chars_per_page)"] *)
Definition suffix : jstring :=
  10%N :: 8230%N :: u16 " (output truncated, exceeded max_chars_per_page)".

Definition overhead : Z := 1000.

Definition truncated_message : jstring :=
  u16 "Page exceeded character budget; content truncated.".

(** [{ ...pageDict, [itemsKey]: items.map(it => truncateStrings(it, t)) }] *)
Definition rebuild (pageDict : obj) (itemsKey : jstring) (items : list json) (t : Z) : obj :=
  obj_set itemsKey (JArr (List.map (fun it => truncateStrings it t) items)) pageDict.

(** The [while (low <= high)] loop of [enforcePageCharBudget].  One unit of
    [fuel] is spent per iteration; [None] means the fuel ran out before
    the loop ended. *)
Fixpoint searchLoop (fuel : nat) (probe : Z -> obj) (maxCharsPerPage : Z)
    (low high : Z) (bestPageDict : obj) : option obj :=
  if low <=? high then
    match fuel with
    | O => None
    | S fuel' =>
        let mid := (low + high) / 2 in
        let testDict := probe mid in
        let size := pageOutputSize testDict in
        if size <=? maxCharsPerPage then
          searchLoop fuel' probe maxCharsPerPage (mid + 1) high testDict
        else
          searchLoop fuel' probe maxCharsPerPage low (mid - 1) bestPageDict
    end
  else Some bestPageDict.

(** Length to which the serialised page is cut in the degraded page:
    [Math.max(100, (maxCharsPerPage - suffix.length - overhead) / 2)], as
    [slice] rounds it (towards zero; the maximum is at least 100, so this
    is the floor). *)
Definition previewMax (maxCharsPerPage : Z) : Z :=
  Z.max 100 ((maxCharsPerPage - len suffix - overhead) / 2).

(** The degraded page returned when no probe fits. *)
Definition degraded (pageDict bestPageDict : obj) (maxCharsPerPage : Z)
    (itemsKey : jstring) : obj :=
  let jsonStr := stringify (JObj bestPageDict) in
  let truncatedPreview := slice0 jsonStr (previewMax maxCharsPerPage) ++ suffix in
  obj_set k_truncated_preview (JStr truncatedPreview)
    (obj_set k_truncated_message (JStr truncated_message)
      (obj_set k_truncated (JBool true)
        (obj_set k_preview_chars
           (match obj_get k_preview_chars pageDict with
            | None | Some JNull => JNum 0
            | Some v => v
            end)
          (obj_set k_max_chars_per_page (JNum maxCharsPerPage)
            (obj_set_opt k_total_pages (obj_get k_total_pages pageDict)
              (obj_set_opt k_page_number (obj_get k_page_number pageDict)
                (obj_set itemsKey (JArr [])
                  (obj_without itemsKey pageDict)))))))).

(** Iterations granted to the search: the interval [0, 100000] halves at
    each step, so 17 steps empty it (see [searchLoop_terminates]). *)
Definition searchFuel : nat := 17.

Definition enforcePageCharBudget (pageDict : obj) (maxCharsPerPage : Z)
    (itemsKey : jstring) : option obj :=
  if pageOutputSize pageDict <=? maxCharsPerPage then Some pageDict
  else
    match obj_get itemsKey pageDict with
    | Some (JArr ((_ :: _) as items)) =>
        match searchLoop searchFuel (rebuild pageDict itemsKey items)
                maxCharsPerPage 0 100000 pageDict with
        | Some bestPageDict =>
            if pageOutputSize bestPageDict >? maxCharsPerPage then
              Some (degraded pageDict bestPageDict maxCharsPerPage itemsKey)
            else Some bestPageDict
        | None => None
        end
    | _ => Some pageDict
    end.

(* ------------------------------------------------------------------ *)
(** ** Greedy packing: [buildPagesByCharBudget] *)

Record packState : Type := mkPack {
  pages : list (list json);
  currentPage : list json;
  currentChars : Z
}.

(** One iteration of [for (const run of runsDict)]. *)
Definition packStep (maxCharsPerPage : Z) (st : packState) (run : json) : packState :=
  let runChars := runCharCount run in
  let st1 :=
    if (currentChars st + runChars >? maxCharsPerPage) && (len (currentPage st) >? 0)
    then mkPack (pages st ++ [currentPage st]) [] 0
    else st in
  mkPack (pages st1) (currentPage st1 ++ [run]) (currentChars st1 + runChars).

Definition buildPagesByCharBudget (runsDict : list json) (maxCharsPerPage : Z)
    : list (list json) :=
  if len runsDict =? 0 then []
  else
    let st := fold_left (packStep maxCharsPerPage) runsDict (mkPack [] [] 0) in
    if len (currentPage st) >? 0 then pages st ++ [currentPage st] else pages st.

(* ------------------------------------------------------------------ *)
(** ** The entry points *)

(** The items of the requested page: [pages[pageNumber - 1]], or [[]] when
    the page number is out of range. *)
Definition selectPage (pgs : list (list json)) (pageNumber : Z) : list json :=
  if (pageNumber <? 1) || (pageNumber >? len pgs) then []
  else nth (Z.to_nat (pageNumber - 1)) pgs [].

(** The global preview pass. *)
Definition previewPass (items : list json) (previewChars : Z) : list json :=
  if previewChars >? 0 then List.map (fun r => truncateStrings r previewChars) items
  else items.

Definition paginateRuns (runsDict : list json) (pageNumber maxCharsPerPage previewChars : Z)
    : option obj :=
  let runsDict := previewPass runsDict previewChars in
  let pages := buildPagesByCharBudget runsDict maxCharsPerPage in
  let totalPages := len pages in
  let pageRuns := selectPage pages pageNumber in
  let out : obj :=
    [ (k_runs, JArr pageRuns);
      (k_page_number, JNum pageNumber);
      (k_total_pages, JNum totalPages);
      (k_max_chars_per_page, JNum maxCharsPerPage);
      (k_preview_chars, JNum previewChars) ] in
  enforcePageCharBudget out maxCharsPerPage k_runs.

Definition paginateMessages (messagesDict : list json)
    (pageNumber maxCharsPerPage previewChars : Z) : option obj :=
  let messagesDict := previewPass messagesDict previewChars in
  let pages := buildPagesByCharBudget messagesDict maxCharsPerPage in
  let totalPages := len pages in
  let pageMessages := selectPage pages pageNumber in
  let out : obj :=
    [ (k_result, JArr pageMessages);
      (k_page_number, JNum pageNumber);
      (k_total_pages, JNum totalPages);
      (k_max_chars_per_page, JNum maxCharsPerPage);
      (k_preview_chars, JNum previewChars) ] in
  enforcePageCharBudget out maxCharsPerPage k_result.

(* ------------------------------------------------------------------ *)
(** ** The tool layer ([register-tools.ts]): where the budget is capped *)

Definition MAX_CHARS_PER_PAGE_TRACE : Z := 30000.

(** [a ?? d] on an optional numeric argument. *)
Definition orDefault (a : option Z) (d : Z) : Z :=
  match a with Some x => x | None => d end.


(** The pagination tail of [getThreadHistoryTool]; [allMessages] is the
    non-empty list of messages extracted from the runs of the thread (the
    function returns an error object before it paginates otherwise). *)
Definition getThreadHistoryTool (allMessages : list json) (pageNumber : Z)
    (maxCharsPerPage previewChars : option Z) : option obj :=
  let maxCharsPerPage := orDefault maxCharsPerPage 25000 in
  let previewChars := orDefault previewChars 150 in
  let maxCharsPerPage := Z.min maxCharsPerPage MAX_CHARS_PER_PAGE_TRACE in
  paginateMessages allMessages pageNumber maxCharsPerPage previewChars.

(* ------------------------------------------------------------------ *)
(** ** Predicates and inputs used in the statements *)

(** Every string leaf of a value satisfies [p] (property names are not
    leaves: the Truncator never touches them). *)
Fixpoint allStrings (p : jstring -> bool) (v : json) : bool :=
  match v with
  | JStr s => p s
  | JArr xs => forallb (allStrings p) xs
  | JObj kvs => forallb (fun kv => allStrings p (snd kv)) kvs
  | _ => true
  end.

(** Every string leaf that the Truncator reaches satisfies [p]: the value
    of an entry named [__proto__] is not rebuilt, so its leaves are not
    reached. *)
Fixpoint reachedStrings (p : jstring -> bool) (v : json) : bool :=
  match v with
  | JStr s => p s
  | JArr xs => forallb (reachedStrings p) xs
  | JObj kvs => forallb (fun kv => eqb (fst kv) k_proto || reachedStrings p (snd kv)) kvs
  | _ => true
  end.

(** No object inside the value, at any depth, has an own property named
    [__proto__]. *)
Fixpoint protoFree (v : json) : bool :=
  match v with
  | JArr xs => forallb protoFree xs
  | JObj kvs => forallb (fun kv => negb (eqb (fst kv) k_proto) && protoFree (snd kv)) kvs
  | _ => true
  end.

(** A string leaf that a second pass at length [n] leaves alone: it was
    short enough not to be cut, or exactly 13 units were elided (the one
    length for which the marker of the second pass spells the same
    count). *)
Definition stableLeaf (n : Z) (s : jstring) : bool :=
  (len s <=? n) || (len s =? n + 13).

(** A cut after [k] code units falls between the two halves of a
    surrogate pair. *)
Definition splitsAt (k : nat) (s : jstring) : bool :=
  match k with
  | O => false
  | S j =>
      match skipn j s with
      | c :: d :: _ => isHigh c && isLow d
      | _ => false
      end
  end.

(** A string leaf on which the shorter preview [n'] cannot give the
    longer text: [n'] leaves it alone; or [n'] cuts it outside a surrogate
    pair and either [n] cuts it too, or the part that [n'] elides is
    serialised with at least as many characters as the marker that
    replaces it. *)
Definition cutShrinks (n' n : Z) (s : jstring) : bool :=
  (len s <=? n') ||
  (negb (splitsAt (Z.to_nat n') s) &&
   ((n <? len s) ||
    (len (marker (len s - n')) <=? len (escape (skipn (Z.to_nat n') s))))).

(** A code unit that a quoted string shows as it is. *)
Definition plainUnit (c : char16) : Prop :=
  escapeUnit c = [c] /\ isSurrogate c = false.

(** The probe at [t] fits the budget [m]. *)
Definition fitsAt (probe : Z -> obj) (m : Z) (t : Z) : bool :=
  pageOutputSize (probe t) <=? m.

(** The serialised size of a value. *)
Definition jsonSize (v : json) : Z := len (stringify v).

(** The three runs of the packing scenario. *)
Definition run_a : json := JObj [(u16 "id", JStr (u16 "a"))].
Definition run_b : json := JObj [(u16 "id", JStr (u16 "b"))].
Definition run_c : json := JObj [(u16 "id", JStr (u16 "c"))].

(** A run with a short and a long string, for which the lengths that fit
    a budget of 130 characters are 1, 2 and 8. *)
Definition run_two_strings : json :=
  JObj [(u16 "a", JStr (repeat 120%N 8)); (u16 "b", JStr (repeat 121%N 40))].

(** A run with one string of 20 characters, for which the only length
    that fits a budget of 108 characters is 1. *)
Definition run_one_string : json := JObj [(u16 "a", JStr (repeat 120%N 20))].

(** The page that [paginateRuns] assembles before it enforces the budget. *)
Definition runsPage (pageRuns : list json)
    (pageNumber totalPages maxCharsPerPage previewChars : Z) : obj :=
  [ (k_runs, JArr pageRuns);
    (k_page_number, JNum pageNumber);
    (k_total_pages, JNum totalPages);
    (k_max_chars_per_page, JNum maxCharsPerPage);
    (k_preview_chars, JNum previewChars) ].

(** The page that [paginateMessages] assembles before it enforces the
    budget. *)
Definition messagesPage (pageMessages : list json)
    (pageNumber totalPages maxCharsPerPage previewChars : Z) : obj :=
  [ (k_result, JArr pageMessages);
    (k_page_number, JNum pageNumber);
    (k_total_pages, JNum totalPages);
    (k_max_chars_per_page, JNum maxCharsPerPage);
    (k_preview_chars, JNum previewChars) ].

(** The two pages on which the search is followed by hand below. *)
Definition page_two_strings : obj := runsPage [run_two_strings] 1 1 130 0.
Definition page_one_string : obj := runsPage [run_one_string] 1 1 108 0.

(** The page of [run_one_string] under a budget of 110 characters, which
    the lengths 1, 2 and 3 fit. *)
Definition page_one_string_110 : obj := runsPage [run_one_string] 1 1 110 0.

(** The degraded page of [paginateRuns], field by field. *)
Definition degradedRunsPage (preview : jstring)
    (pageNumber totalPages maxCharsPerPage previewChars : Z) : obj :=
  [ (k_page_number, JNum pageNumber);
    (k_total_pages, JNum totalPages);
    (k_max_chars_per_page, JNum maxCharsPerPage);
    (k_preview_chars, JNum previewChars);
    (k_runs, JArr []);
    (k_truncated, JBool true);
    (k_truncated_message, JStr truncated_message);
    (k_truncated_preview, JStr preview) ].

(** The degraded page of [paginateMessages], field by field. *)
Definition degradedMessagesPage (preview : jstring)
    (pageNumber totalPages maxCharsPerPage previewChars : Z) : obj :=
  [ (k_page_number, JNum pageNumber);
    (k_total_pages, JNum totalPages);
    (k_max_chars_per_page, JNum maxCharsPerPage);
    (k_preview_chars, JNum previewChars);
    (k_result, JArr []);
    (k_truncated, JBool true);
    (k_truncated_message, JStr truncated_message);
    (k_truncated_preview, JStr preview) ].

(** The preview string of a degraded page. *)
Definition previewOf (bestPageDict : obj) (maxCharsPerPage : Z) : jstring :=
  slice0 (stringify (JObj bestPageDict)) (previewMax maxCharsPerPage) ++ suffix.


(** The two messages of the repository's test of [paginateMessages]. *)
Definition msg_user : json :=
  JObj [(u16 "role", JStr (u16 "user")); (u16 "content", JStr (u16 "hello"))].
Definition msg_assistant : json :=
  JObj [(u16 "role", JStr (u16 "assistant")); (u16 "content", JStr (u16 "hi there"))].

(** The runs of the repository's tests of [paginateRuns]. *)
Definition smallRuns : list json :=
  [ JObj [(u16 "id", JStr (u16 "r1")); (u16 "name", JStr (u16 "run-1"))];
    JObj [(u16 "id", JStr (u16 "r2")); (u16 "name", JStr (u16 "run-2"))];
    JObj [(u16 "id", JStr (u16 "r3")); (u16 "name", JStr (u16 "run-3"))] ].


(** The number a decimal numeral denotes. *)
Definition valueOf (s : jstring) : Z :=
  fold_left (fun acc c => 10 * acc + (Z.of_N c - 48)) s 0.

(** A string that begins with the surrogate pair of U+1F600. *)
Definition str_emoji : jstring := [55357; 56832; 120; 120]%N.

(** [f] holds at [lo], [lo + 1], ..., [lo + n - 1]. *)
Definition rangeAll (f : Z -> bool) (lo : Z) (n : nat) : bool :=
  forallb (fun i => f (lo + Z.of_nat i)) (seq 0 n).

(* ------------------------------------------------------------------ *)
(** ** Measures of the packing *)

(** The characters a page holds: the sum of [runCharCount] over its runs,
    which is what the packing loop accumulates in [currentChars]. *)
Definition pageChars (page : list json) : Z :=
  fold_right (fun run acc => runCharCount run + acc) 0 page.

(** The names under which a page keeps its metadata. *)
Definition metadataKeys : list jstring :=
  [k_page_number; k_total_pages; k_max_chars_per_page; k_preview_chars;
   k_truncated; k_truncated_message; k_truncated_preview].

(** [key] is none of the metadata names. *)
Definition itemKeyOk (key : jstring) : bool :=
  forallb (fun k => negb (eqb key k)) metadataKeys.

(* ------------------------------------------------------------------ *)
(** ** Values as JavaScript reads them ([helpers.ts], [register-tools.ts]) *)

(** The names that every object inherits from [Object.prototype]. *)
Definition inheritedNames : list jstring :=
  [ u16 "constructor"; u16 "hasOwnProperty"; u16 "isPrototypeOf";
    u16 "propertyIsEnumerable"; u16 "toLocaleString"; u16 "toString";
    u16 "valueOf"; u16 "__proto__"; u16 "__defineGetter__";
    u16 "__defineSetter__"; u16 "__lookupGetter__"; u16 "__lookupSetter__" ].

(** [k] is a name that [in] finds on every object, and that [o[k]]
    reads from the prototype when the object has no such property of its
    own. *)
Definition inherited (k : jstring) : bool := existsb (eqb k) inheritedNames.

(** [k in o] for an object [o] and a name [k] that is not [inherited]:
    for such a name [in] asks for an own property.  The source applies
    it to the fixed names [messages], [choices], [message] and
    [deployment_id], and to names given by the caller, for which the
    statements assume [inherited k = false]. *)
Definition obj_has (k : jstring) (o : obj) : bool :=
  match obj_get k o with
  | Some _ => true
  | None => false
  end.

(** Truthiness of a value: [if (v)]. *)
Definition truthy (v : json) : bool :=
  match v with
  | JNull => false
  | JBool b => b
  | JNum n => negb (n =? 0)
  | JStr s => negb (len s =? 0)
  | JArr _ | JObj _ => true
  end.

(** Truthiness of a value that may be [undefined]. *)
Definition truthyOpt (v : option json) : bool :=
  match v with
  | Some x => truthy x
  | None => false
  end.

(** [String(v)]: a string is itself, an object prints as
    ["[object Object]"], an array as its members joined by commas, with
    [null] members printed as the empty string. *)
Fixpoint toStr (v : json) : jstring :=
  match v with
  | JNull => u16 "null"
  | JBool true => u16 "true"
  | JBool false => u16 "false"
  | JNum n => ofInt n
  | JStr s => s
  | JArr xs =>
      joinComma (List.map (fun x => match x with JNull => [] | _ => toStr x end) xs)
  | JObj _ => u16 "[object Object]"
  end.

(** The first defined result of a list of searches. *)
Fixpoint firstSome {A : Type} (rs : list (option A)) : option A :=
  match rs with
  | [] => None
  | Some r :: _ => Some r
  | None :: rest => firstSome rest
  end.

(* ------------------------------------------------------------------ *)
(** ** [helpers.ts]: searching, counting and filtering *)

(** [findInDict] for a [key] that is not [inherited]: the value of the
    first property named [key] met in a depth-first walk; an object is
    asked for the key before its values are searched.  [None] stands for
    [undefined].  (For an inherited name [key in obj] holds of every
    object and the source returns a member of [Object.prototype], which
    is no JSON value.) *)
Fixpoint findInDict (data : json) (key : jstring) : option json :=
  match data with
  | JObj o =>
      match obj_get key o with
      | Some v => Some v
      | None => firstSome (List.map (fun kv => findInDict (snd kv) key) o)
      end
  | JArr xs => firstSome (List.map (fun item => findInDict item key) xs)
  | _ => None
  end.

(** [countCharacters] *)
Fixpoint countCharacters (o : json) : Z :=
  match o with
  | JStr s => len s
  | JObj kvs => fold_right (fun kv count => countCharacters (snd kv) + count) 0 kvs
  | JArr xs => fold_right (fun item count => countCharacters item + count) 0 xs
  | JNull => len (u16 "null")
  | JBool true => len (u16 "true")
  | JBool false => len (u16 "false")
  | JNum n => len (ofInt n)
  end.

(** [countFields] *)
Fixpoint countFields (o : json) : Z :=
  match o with
  | JObj kvs => len kvs + fold_right (fun kv count => countFields (snd kv) + count) 0 kvs
  | JArr xs => fold_right (fun item count => countFields item + count) 0 xs
  | _ => 0
  end.

(** [filterFields] for selected names that are not [inherited];
    [select] is [None] when the argument is omitted.  (An inherited name
    passes the test [field in runDict] on every run, and
    [filtered["__proto__"] = ...] adds no property.) *)
Definition filterFields (runDict : obj) (select : option (list jstring)) : obj :=
  match select with
  | None | Some [] => runDict
  | Some fields =>
      fold_left
        (fun filtered field =>
           match obj_get field runDict with
           | Some v => obj_set field v filtered
           | None => filtered
           end)
        fields []
  end.

(** Some object inside [v], at any depth, has a property named [key]. *)
Fixpoint occurs (key : jstring) (v : json) : bool :=
  match v with
  | JObj o => obj_has key o || existsb (fun kv => occurs key (snd kv)) o
  | JArr xs => existsb (occurs key) xs
  | _ => false
  end.

(** [r] is the value that some object inside [v] stores under [key]. *)
Inductive storedUnder (key : jstring) : json -> json -> Prop :=
| stored_here o r : obj_get key o = Some r -> storedUnder key (JObj o) r
| stored_in_prop o k v r :
    In (k, v) o -> storedUnder key v r -> storedUnder key (JObj o) r
| stored_in_item xs v r :
    In v xs -> storedUnder key v r -> storedUnder key (JArr xs) r.

(** Every page with a successor is full: the first run of the successor
    would have taken it over the budget. *)
Fixpoint linked (m : Z) (pgs : list (list json)) : Prop :=
  match pgs with
  | [] => True
  | p :: rest =>
      match rest with
      | [] => True
      | q :: _ => m < pageChars p + runCharCount (hd JNull q) /\ linked m rest
      end
  end.

(** A page of two or more runs is within the budget. *)
Definition withinUnlessAlone (m : Z) (page : list json) : Prop :=
  2 <= len page -> pageChars page <= m.

(** What the packing loop keeps true of its state. *)
Record packInv (m : Z) (st : packState) : Prop := mkPackInv {
  inv_chars : currentChars st = pageChars (currentPage st);
  inv_first : currentPage st = [] -> pages st = [];
  inv_within : Forall (withinUnlessAlone m) (pages st ++ [currentPage st]);
  inv_linked : linked m (pages st ++ [currentPage st])
}.

(* ------------------------------------------------------------------ *)
(** ** [register-tools.ts]: the trace tools up to the calls of the client *)

(** What a piece of code does when it may throw: it returns a value or
    throws an error with a message. *)
Inductive outcome (A : Type) : Type :=
| Returns (a : A)
| Throws (message : jstring).

Arguments Returns {A} a.
Arguments Throws {A} message.

Definition bind {A B : Type} (c : outcome A) (k : A -> outcome B) : outcome B :=
  match c with
  | Returns a => k a
  | Throws message => Throws message
  end.

(** A value that [??] replaces by [null]: [undefined] or [null]. *)
Definition nullish (v : option json) : json :=
  match v with
  | Some x => x
  | None => JNull
  end.

(** The one value pushed for a property that is present. *)
Definition opt_list (v : option json) : list json :=
  match v with
  | Some x => [x]
  | None => []
  end.

(** The object returned in place of a result: [{ error: message }]. *)
Definition errorObject (message : jstring) : obj := [(u16 "error", JStr message)].

(** An object or an array: a value on which [in] does not throw. *)
Definition isContainer (v : json) : bool :=
  match v with
  | JObj _ | JArr _ => true
  | _ => false
  end.

Section TraceTools.

(** The message of the [TypeError] that the engine throws for [k in v]
    when [v] is not an object; its wording is the engine's. *)
Variable inMessage : jstring -> json -> jstring.

(** [k in v] for a data name [k] that arrays do not define (the code uses
    it with ["messages"], ["choices"] and ["message"]). *)
Definition inOp (k : jstring) (v : json) : outcome bool :=
  match v with
  | JObj o => Returns (obj_has k o)
  | JArr _ => Returns false
  | _ => Throws (inMessage k v)
  end.

(** [v[k]] for a value on which [k in v] holds. *)
Definition getProp (k : jstring) (v : json) : option json :=
  match v with
  | JObj o => obj_get k o
  | _ => None
  end.

(** The messages that [messagesFromRun] takes from [run.inputs]. *)
Definition messagesFromInputs (run : obj) : outcome (list json) :=
  match obj_get (u16 "inputs") run with
  | Some inputs =>
      if truthy inputs then
        bind (inOp (u16 "messages") inputs) (fun has =>
          if has then
            match getProp (u16 "messages") inputs with
            | Some (JArr messages) => Returns messages
            | _ => Returns []
            end
          else Returns [])
      else Returns []
  | None => Returns []
  end.

(** The message that [messagesFromRun] takes from [run.outputs]. *)
Definition messagesFromOutputs (run : obj) : outcome (list json) :=
  match obj_get (u16 "outputs") run with
  | Some outputs =>
      if truthy outputs then
        bind (inOp (u16 "choices") outputs) (fun hasChoices =>
          match (if hasChoices then getProp (u16 "choices") outputs else None) with
          | Some (JArr choices) =>
              match choices with
              | first :: _ =>
                  bind (inOp (u16 "message") first) (fun has =>
                    if has then Returns (opt_list (getProp (u16 "message") first))
                    else Returns [])
              | [] => Returns []
              end
          | _ =>
              bind (inOp (u16 "message") outputs) (fun has =>
                if has then Returns (opt_list (getProp (u16 "message") outputs))
                else Returns [])
          end)
      else Returns []
  | None => Returns []
  end.

Definition messagesFromRun (run : obj) : outcome (list json) :=
  bind (messagesFromInputs run) (fun fromInputs =>
  bind (messagesFromOutputs run) (fun fromOutputs =>
  Returns (fromInputs ++ fromOutputs))).

(** [for (const run of runs) allMessages.push(...messagesFromRun(run))] *)
Fixpoint collectMessages (runs : list obj) : outcome (list json) :=
  match runs with
  | [] => Returns []
  | run :: rest =>
      bind (messagesFromRun run) (fun messages =>
      bind (collectMessages rest) (fun more =>
      Returns (messages ++ more)))
  end.

(** [getThreadHistoryTool] from the point where the runs of the thread
    have been listed, converted and sorted by start time; [runs] is that
    sorted list.  The [try] block catches what [messagesFromRun] throws. *)
Definition getThreadHistoryTool_runs (threadId projectName : jstring)
    (runs : list obj) (pageNumber : Z) (maxCharsPerPage previewChars : option Z)
    : option obj :=
  let maxCharsPerPage := orDefault maxCharsPerPage 25000 in
  let previewChars := orDefault previewChars 150 in
  let maxCharsPerPage := Z.min maxCharsPerPage MAX_CHARS_PER_PAGE_TRACE in
  if len runs =? 0 then
    Some (errorObject (u16 "No runs found for thread " ++ threadId
                       ++ u16 " in project " ++ projectName))
  else
    match collectMessages runs with
    | Throws message =>
        Some (errorObject (u16 "Error fetching thread history: " ++ message))
    | Returns allMessages =>
        if len allMessages =? 0 then
          Some (errorObject (u16 "No messages found in the runs for thread " ++ threadId))
        else paginateMessages allMessages pageNumber maxCharsPerPage previewChars
    end.

End TraceTools.

(** The inputs of the run make [messagesFromRun] throw: they are a
    truthy value that is no object or array. *)
Definition badInputs (run : obj) : bool :=
  match obj_get (u16 "inputs") run with
  | Some inputs => truthy inputs && negb (isContainer inputs)
  | None => false
  end.

(** The outputs of the run make [messagesFromRun] throw: they are a
    truthy value that is no object or array, or they have a non-empty
    array of choices whose first member is no object or array. *)
Definition badOutputs (run : obj) : bool :=
  match obj_get (u16 "outputs") run with
  | Some outputs =>
      truthy outputs &&
      (negb (isContainer outputs)
       || match outputs with
          | JObj o =>
              match obj_get (u16 "choices") o with
              | Some (JArr (first :: _)) => negb (isContainer first)
              | _ => false
              end
          | _ => false
          end)
  | None => false
  end.

(** The run is one on which [messagesFromRun] throws. *)
Definition throwsOnRun (run : obj) : bool := badInputs run || badOutputs run.

(** The loop of [listProjectsTool] over the client's listing: it stops
    at the first project met once [count >= limit]. *)
Fixpoint takeProjects (limit count : Z) (listed : list obj) : list obj :=
  match listed with
  | [] => []
  | project :: rest =>
      if count >=? limit then []
      else project :: takeProjects limit (count + 1) rest
  end.

(** One entry of the simplified listing of [listProjectsTool]. *)
Definition simpleProject (project : obj) : obj :=
  let deploymentId := findInDict (JObj project) (u16 "deployment_id") in
  let projectId := nullish (obj_get (u16 "id") project) in
  let projectDict : obj :=
    [ (u16 "name", nullish (obj_get (u16 "name") project));
      (u16 "project_id",
       match projectId with
       | JNull => JNull
       | _ => JStr (toStr projectId)
       end) ] in
  match deploymentId with
  | Some d =>
      if truthy d then obj_set (u16 "agent_deployment_id") d projectDict
      else projectDict
  | None => projectDict
  end.

(** [listProjectsTool]; [listed] is what the client yields, project by
    project, each converted to a serialisable object. *)
Definition listProjectsTool (listed : list obj) (limit : option Z)
    (moreInfo : option bool) : obj :=
  let limit := orDefault limit 5 in
  let moreInfo := match moreInfo with Some b => b | None => false end in
  let projects := takeProjects limit 0 listed in
  if moreInfo then [(u16 "projects", JArr (List.map JObj projects))]
  else [(u16 "projects",
         JArr (List.map (fun project => JObj (simpleProject project)) projects))].

(** [s.split(sep)] for a separator of one code unit. *)
Fixpoint splitOn (sep : char16) (s : jstring) : list jstring :=
  match s with
  | [] => [[]]
  | c :: tl =>
      if (c =? sep)%N then [] :: splitOn sep tl
      else
        match splitOn sep tl with
        | part :: parts => (c :: part) :: parts
        | [] => [[c]]
        end
  end.

(** An optional string argument after [if (x === "null") x = undefined]. *)
Definition dropNullWord (s : option jstring) : option jstring :=
  match s with
  | Some x => if eqb x (u16 "null") then None else Some x
  | None => None
  end.

(** Truthiness of an optional string: absent and empty are falsy. *)
Definition truthyStr (s : option jstring) : bool :=
  match s with
  | Some (_ :: _) => true
  | _ => false
  end.

(** [x || undefined] on an optional string. *)
Definition orUndefined (s : option jstring) : option jstring :=
  if truthyStr s then s else None.

(** The project name that [getProjectRunsStatsTool] asks the client for:
    the part after the slash of a name with exactly one slash, the name
    itself otherwise. *)
Definition actualProjectName (projectName : option jstring) : option jstring :=
  let parts := splitOn 47%N (match orUndefined projectName with Some s => s | None => [] end) in
  if len parts =? 2 then Some (nth 1 parts []) else projectName.

Section StatsTool.

(** [client.getRunStats({ projectNames, trace })], with [projectNames]
    absent or the one name given. *)
Variable getRunStats : option jstring -> option jstring -> outcome obj.

Definition getProjectRunsStatsTool (projectName traceId : option jstring) : obj :=
  let projectName := dropNullWord projectName in
  let traceId := dropNullWord traceId in
  if negb (truthyStr projectName) && negb (truthyStr traceId) then
    errorObject (u16 "Error: Either project_name or trace_id must be provided.")
  else
    let actualProjectName := actualProjectName projectName in
    match getRunStats (orUndefined actualProjectName) (orUndefined traceId) with
    | Throws message =>
        errorObject (u16 "Error getting project runs stats: " ++ message)
    | Returns projectRunsStats =>
        let stats := obj_without (u16 "run_facets") projectRunsStats in
        match actualProjectName with
        | Some name => obj_set (u16 "project_name") (JStr name) stats
        | None => obj_without (u16 "project_name") stats
        end
    end.

End StatsTool.

(** The string holds no slash. *)
Definition noSlash (s : jstring) : bool := forallb (fun c => negb (c =? 47)%N) s.

(* ------------------------------------------------------------------ *)
(** ** [helpers.ts]: the trace tree *)

(** Nesting of a value: 0 for a primitive, one more than its deepest
    member for an object or an array. *)
Fixpoint nesting (v : json) : Z :=
  match v with
  | JObj o => 1 + fold_right (fun kv deepest => Z.max (nesting (snd kv)) deepest) 0 o
  | JArr xs => 1 + fold_right (fun x deepest => Z.max (nesting x) deepest) 0 xs
  | _ => 0
  end.

(** [tree[key] = f(value)] for every entry, in the order of the entries,
    on a [tree] made by [{}]: an entry named [__proto__] adds nothing. *)
Definition treeEntries (f : json -> json) (entries : obj) : obj :=
  flat_map (fun kv => if eqb (fst kv) k_proto then [] else [(fst kv, f (snd kv))])
    entries.

(** One member of the [_preview] of a summarised array. *)
Definition previewItem (item : json) : json :=
  match item with
  | JObj o =>
      JObj [ (u16 "_type", JStr (u16 "dict"));
             (u16 "_keys", JArr (List.map JStr (firstn 5 (List.map fst o)))) ]
  | JArr xs =>
      JObj [ (u16 "_type", JStr (u16 "list")); (u16 "_length", JNum (len xs)) ]
  | _ =>
      let strVal := toStr item in
      JStr (if len strVal >? 100 then slice0 strVal 100 else strVal)
  end.

(** The summary that replaces a non-empty object at depth 0. *)
Definition dictSummary (dictValue : obj) : json :=
  let fieldCount := countFields (JObj dictValue) in
  if fieldCount =? 0 then JObj []
  else
    JObj [ (u16 "_type", JStr (u16 "dict"));
           (u16 "_field_count", JNum fieldCount);
           (u16 "_character_count", JNum (countCharacters (JObj dictValue)));
           (u16 "_keys", JArr (List.map JStr (firstn 10 (List.map fst dictValue)))) ].

(** The summary that replaces a non-empty array at depth 0. *)
Definition listSummary (value : list json) : json :=
  JObj [ (u16 "_type", JStr (u16 "list"));
         (u16 "_length", JNum (len value));
         (u16 "_field_count", JNum (countFields (JArr value)));
         (u16 "_character_count", JNum (countCharacters (JArr value)));
         (u16 "_preview", JArr (List.map previewItem (firstn 2 value))) ].

(** The body of the loop of [buildTraceTree]: what the tree stores for
    one value of the run. *)
Fixpoint treeValue (depth : Z) (value : json) {struct value} : json :=
  match value with
  | JObj dictValue =>
      if len dictValue =? 0 then JObj []
      else if depth >? 0 then JObj (treeEntries (treeValue (depth - 1)) dictValue)
      else dictSummary dictValue
  | JArr items =>
      if len items =? 0 then JArr []
      else if depth >? 0 then
        JArr (List.map
                (fun item =>
                   match item with
                   | JObj d => JObj (treeEntries (treeValue (depth - 1)) d)
                   | JArr subitems =>
                       JArr (List.map
                               (fun subitem =>
                                  match subitem with
                                  | JObj d => JObj (treeEntries (treeValue (depth - 1)) d)
                                  | _ => subitem
                                  end)
                               subitems)
                   | _ => item
                   end)
                items)
      else listSummary items
  | _ => value
  end.

(** [buildTraceTree] *)
Definition buildTraceTree (runDict : obj) (depth : Z) : obj :=
  treeEntries (treeValue depth) runDict.

(* ------------------------------------------------------------------ *)
(** ** Formatters: messages of a run *)

Definition isObject (v : json) : bool :=
  match v with JObj _ => true | _ => false end.

(** The object stored under [message], if it is one. *)
Definition singleMessage (o : obj) : list json :=
  match obj_get (u16 "message") o with
  | Some (JObj m) => [JObj m]
  | _ => []
  end.

(** [extractMessagesFromDict]; the path argument is for debugging only. *)
Fixpoint extractMessagesFromDict (data : json) (depth maxDepth : Z) {struct data}
    : list json :=
  if depth >? maxDepth then []
  else
    match data with
    | JObj o =>
        match obj_get (u16 "messages") o with
        | Some (JArr msgs) => List.filter isObject msgs
        | _ =>
            let messages :=
              singleMessage o ++
              match obj_get (u16 "choices") o with
              | Some (JArr choices) =>
                  flat_map (fun choice =>
                              match choice with
                              | JObj c => singleMessage c
                              | _ => []
                              end) choices
              | _ => []
              end in
            if len messages >? 0 then messages
            else
              flat_map (fun kv =>
                          match snd kv with
                          | JObj _ | JArr _ =>
                              extractMessagesFromDict (snd kv) (depth + 1) maxDepth
                          | _ => []
                          end) o
        end
    | JArr items =>
        flat_map (fun item =>
                    match item with
                    | JObj _ | JArr _ => extractMessagesFromDict item (depth + 1) maxDepth
                    | _ => []
                    end) items
    | _ => []
    end.

(** The string id of a message, if it has one. *)
Definition messageId (msg : json) : option jstring :=
  match msg with
  | JObj m =>
      match obj_get (u16 "id") m with
      | Some (JStr msgId) => Some msgId
      | _ => None
      end
  | _ => None
  end.

(** The last loop of [extractMessagesFromRun]: objects only, and a
    message whose string id was seen before is skipped. *)
Fixpoint dedupe (seenIds : list jstring) (messages : list json) : list json :=
  match messages with
  | [] => []
  | msg :: rest =>
      if isObject msg then
        match messageId msg with
        | Some msgId =>
            if existsb (eqb msgId) seenIds then dedupe seenIds rest
            else msg :: dedupe (msgId :: seenIds) rest
        | None => msg :: dedupe seenIds rest
        end
      else dedupe seenIds rest
  end.

(** What [extractMessagesFromRun] collects from the inputs and the
    outputs before it removes duplicates. *)
Definition collectedMessages (runDict : obj) : list json :=
  match obj_get (u16 "inputs") runDict with
  | None | Some JNull => []
  | Some inputs => extractMessagesFromDict inputs 0 5
  end ++
  match obj_get (u16 "outputs") runDict with
  | None | Some JNull => []
  | Some outputs => extractMessagesFromDict outputs 0 5
  end.

(** [extractMessagesFromRun] *)
Definition extractMessagesFromRun (runDict : obj) : list json :=
  dedupe [] (collectedMessages runDict).

(** [m] is a value nested inside [v], at any depth. *)
Inductive within (m : json) : json -> Prop :=
| within_prop o k : In (k, m) o -> within m (JObj o)
| within_item xs : In m xs -> within m (JArr xs)
| within_prop_deep o k v : In (k, v) o -> within m v -> within m (JObj o)
| within_item_deep xs v : In v xs -> within m v -> within m (JArr xs).

(** The string ids of a list of messages, in order. *)
Definition messageIds (messages : list json) : list jstring :=
  flat_map (fun msg => match messageId msg with Some s => [s] | None => [] end) messages.

(* ------------------------------------------------------------------ *)
(** * Properties *)

(** ** Strings and lengths *)

Lemma len_nonneg {A} (s : list A) : 0 <= len s.
Proof. unfold len; lia. Qed.

Lemma len_app {A} (s t : list A) : len (s ++ t) = len s + len t.
Proof. unfold len; rewrite length_app; lia. Qed.

Lemma len_cons {A} (x : A) (s : list A) : len (x :: s) = 1 + len s.
Proof. unfold len; cbn [List.length]; lia. Qed.

Lemma len_nil {A} : len (@nil A) = 0.
Proof. reflexivity. Qed.

Create Rewrite HintDb len.
#[local] Hint Rewrite @len_app @len_cons @len_nil : len.

(** Lengths of concatenations, then linear arithmetic. *)
Ltac len_arith := autorewrite with len; lia.

(** A closed goal settled by running the model. *)
Ltac by_evaluation := vm_compute; reflexivity.

(** ** The repository's tests, on the model *)

Example test_truncates_long_strings :
  truncateStrings (JStr (u16 "abcdefghij")) 5
  = JStr (u16 "abcde" ++ 8230%N :: u16 " (+5 chars)").
Proof. by_evaluation. Qed.

Example test_leaves_short_strings :
  truncateStrings (JStr (u16 "hi")) 10 = JStr (u16 "hi").
Proof. by_evaluation. Qed.

Example test_truncates_recursively :
  truncateStrings
    (JObj [(u16 "name", JStr (u16 "abcdefghij"));
           (u16 "items", JArr [JStr (u16 "1234567890")])]) 4
  = JObj [(u16 "name", JStr (u16 "abcd" ++ 8230%N :: u16 " (+6 chars)"));
          (u16 "items", JArr [JStr (u16 "1234" ++ 8230%N :: u16 " (+6 chars)")])].
Proof. by_evaluation. Qed.

Example test_unchanged_at_zero :
  truncateStrings (JObj [(u16 "long", JStr (u16 "a very long string"))]) 0
  = JObj [(u16 "long", JStr (u16 "a very long string"))].
Proof. by_evaluation. Qed.

Example test_no_runs_no_pages : buildPagesByCharBudget [] 1000 = [].
Proof. reflexivity. Qed.

Example test_one_page_when_runs_fit :
  buildPagesByCharBudget
    [JObj [(u16 "id", JStr (u16 "1"))]; JObj [(u16 "id", JStr (u16 "2"))]] 100000
  = [[JObj [(u16 "id", JStr (u16 "1"))]; JObj [(u16 "id", JStr (u16 "2"))]]].
Proof. by_evaluation. Qed.

Example test_splits_over_budget :
  2 <= len (buildPagesByCharBudget [run_a; run_b; run_c] 12).
Proof. vm_compute. discriminate. Qed.

Example test_all_runs_on_page_one :
  paginateRuns smallRuns 1 100000 0 = Some (runsPage smallRuns 1 1 100000 0).
Proof. by_evaluation. Qed.

Example test_page_99_is_empty :
  paginateRuns smallRuns 99 100000 0 = Some (runsPage [] 99 1 100000 0).
Proof. by_evaluation. Qed.

Example test_page_0_is_empty :
  paginateRuns smallRuns 0 100000 0 = Some (runsPage [] 0 1 100000 0).
Proof. by_evaluation. Qed.

Example test_messages_use_result_key :
  paginateMessages [msg_user; msg_assistant] 1 100000 0
    = Some (messagesPage [msg_user; msg_assistant] 1 1 100000 0) /\
  obj_get k_runs (messagesPage [msg_user; msg_assistant] 1 1 100000 0) = None.
Proof. split; by_evaluation. Qed.

Lemma slice0_nonneg (s : jstring) (k : Z) :
  0 <= k -> slice0 s k = firstn (Z.to_nat k) s.
Proof.
  intros Hk; unfold slice0.
  destruct (Z.ltb_spec k 0); [lia | reflexivity].
Qed.

Lemma len_slice0 (s : jstring) (k : Z) :
  0 <= k -> len (slice0 s k) = Z.min k (len s).
Proof.
  intros Hk; rewrite slice0_nonneg by assumption.
  unfold len; rewrite length_firstn; lia.
Qed.

(** ** The Truncator *)

Lemma truncateStrings_nonpos (v : json) (n : Z) :
  n <= 0 -> truncateStrings v n = v.
Proof.
  intros Hn; apply Z.leb_le in Hn.
  destruct v; cbn [truncateStrings]; now rewrite Hn.
Qed.

Lemma truncateStrings_str_short (s : jstring) (n : Z) :
  len s <= n -> truncateStrings (JStr s) n = JStr s.
Proof.
  intros Hs; cbn [truncateStrings].
  destruct (n <=? 0); [reflexivity |].
  apply Z.leb_le in Hs; now rewrite Hs.
Qed.

Lemma truncateStrings_str_long (s : jstring) (n : Z) :
  0 < n -> n < len s ->
  truncateStrings (JStr s) n =
  JStr (firstn (Z.to_nat n) s ++ marker (len s - n)).
Proof.
  intros Hn Hs; cbn [truncateStrings].
  destruct (Z.leb_spec n 0); [lia |].
  destruct (Z.leb_spec (len s) n); [lia |].
  now rewrite slice0_nonneg by lia.
Qed.

Lemma flat_map_assigned {A B : Type} (f : jstring * A -> jstring * B)
    (entries : list (jstring * A)) :
  flat_map (fun kv => if eqb (fst kv) k_proto then [] else [f kv]) entries
  = List.map f (assigned entries).
Proof.
  unfold assigned.
  induction entries as [| kv entries IH]; cbn [flat_map List.filter]; [reflexivity |].
  destruct (eqb (fst kv) k_proto); cbn [negb app List.map]; now rewrite IH.
Qed.

Lemma truncateStrings_obj (kvs : list (jstring * json)) (n : Z) :
  0 < n ->
  truncateStrings (JObj kvs) n =
  JObj (List.map (fun kv => (fst kv, truncateStrings (snd kv) n)) (assigned kvs)).
Proof.
  intros Hn; cbn [truncateStrings].
  destruct (Z.leb_spec n 0); [lia |].
  now rewrite (flat_map_assigned (fun kv => (fst kv, truncateStrings (snd kv) n))).
Qed.

Lemma In_assigned {A : Type} (kv : jstring * A) (entries : list (jstring * A)) :
  In kv (assigned entries) <-> In kv entries /\ eqb (fst kv) k_proto = false.
Proof. unfold assigned. rewrite filter_In, negb_true_iff. reflexivity. Qed.

Lemma assigned_all {A : Type} (entries : list (jstring * A)) :
  forallb (fun kv => negb (eqb (fst kv) k_proto)) entries = true ->
  assigned entries = entries.
Proof.
  unfold assigned.
  induction entries as [| kv entries IH]; cbn [forallb List.filter]; [reflexivity |].
  intros H. apply andb_true_iff in H as [-> H]. now rewrite IH.
Qed.

Lemma assigned_map_values {A B : Type} (f : jstring * A -> B)
    (entries : list (jstring * A)) :
  assigned (List.map (fun kv => (fst kv, f kv)) entries)
  = List.map (fun kv => (fst kv, f kv)) (assigned entries).
Proof.
  unfold assigned.
  induction entries as [| kv entries IH]; cbn [List.map List.filter fst]; [reflexivity |].
  destruct (eqb (fst kv) k_proto); cbn [negb List.map]; now rewrite IH.
Qed.

Lemma assigned_idem {A : Type} (entries : list (jstring * A)) :
  assigned (assigned entries) = assigned entries.
Proof.
  unfold assigned at 1. apply forallb_filter_id.
  apply forallb_forall. intros kv Hkv. apply In_assigned in Hkv as [_ Hk].
  now rewrite Hk.
Qed.

Lemma protoFree_obj (kvs : list (jstring * json)) :
  protoFree (JObj kvs) = true ->
  assigned kvs = kvs /\ Forall (fun kv => protoFree (snd kv) = true) kvs.
Proof.
  cbn [protoFree]. intros H. rewrite forallb_forall in H. split.
  - apply assigned_all, forallb_forall. intros kv Hkv.
    now destruct (andb_prop _ _ (H kv Hkv)).
  - apply Forall_forall. intros kv Hkv. now destruct (andb_prop _ _ (H kv Hkv)).
Qed.

Lemma protoFree_arr (xs : list json) :
  protoFree (JArr xs) = true -> Forall (fun x => protoFree x = true) xs.
Proof. cbn [protoFree]. intros H. now apply Forall_forall, forallb_forall. Qed.

(** On a value without a property named [__proto__] every entry of
    every object is rebuilt. *)
Lemma truncateStrings_obj_all (kvs : list (jstring * json)) (n : Z) :
  0 < n -> protoFree (JObj kvs) = true ->
  truncateStrings (JObj kvs) n =
  JObj (List.map (fun kv => (fst kv, truncateStrings (snd kv) n)) kvs).
Proof.
  intros Hn Hp. rewrite truncateStrings_obj by assumption.
  now rewrite (proj1 (protoFree_obj kvs Hp)).
Qed.

Lemma truncateStrings_arr (xs : list json) (n : Z) :
  0 < n ->
  truncateStrings (JArr xs) n = JArr (List.map (fun it => truncateStrings it n) xs).
Proof.
  intros Hn; cbn [truncateStrings].
  destruct (Z.leb_spec n 0); [lia | reflexivity].
Qed.

Lemma truncateStrings_atom (v : json) (n : Z) :
  match v with JNull | JBool _ | JNum _ => True | _ => False end ->
  truncateStrings v n = v.
Proof.
  destruct v; cbn [truncateStrings]; try contradiction;
    intros _; now destruct (n <=? 0).
Qed.

Lemma map_truncateStrings_nonpos (xs : list json) (n : Z) :
  n <= 0 -> List.map (fun it => truncateStrings it n) xs = xs.
Proof.
  intros Hn; induction xs as [| x xs IH]; cbn [List.map]; [reflexivity |].
  now rewrite truncateStrings_nonpos, IH.
Qed.

(** C9.  The leaf contract of the Truncator holds clause by clause: a
    preview length [n <= 0] returns the value unchanged; a string no
    longer than [n] is unchanged; a longer string becomes its first [n]
    code units followed by ["… (+" (L-n) " chars)"], so that
    ["abcdefghij"] at [n = 5] yields ["abcde… (+5 chars)"]; an object
    none of whose keys is [__proto__] is rebuilt entry by entry with the
    same keys in the same order; an array is rebuilt member by member
    with the same order and length; numbers, booleans and [null] are
    unchanged.  It fails on one key: the object is rebuilt by
    [result[k] = ...] on a plain [{}], and for an own key named
    [__proto__] (which [JSON.parse] creates) that assignment reaches the
    prototype setter and adds no property, so that
    [{a: "abcdefghij", __proto__: {x: 1}}], which has both keys at the
    sentinel length, comes back at [n = 3] with the key [a] alone. *)
Theorem truncateStrings_leaf_contract :
  (forall v n, n <= 0 -> truncateStrings v n = v) /\
  (forall s n, len s <= n -> truncateStrings (JStr s) n = JStr s) /\
  (forall s n, 0 < n -> n < len s ->
     truncateStrings (JStr s) n =
     JStr (firstn (Z.to_nat n) s
           ++ 8230%N :: u16 " (+" ++ ofInt (len s - n) ++ u16 " chars)")) /\
  truncateStrings (JStr (u16 "abcdefghij")) 5 =
    JStr (u16 "abcde" ++ 8230%N :: u16 " (+5 chars)") /\
  (forall kvs n, 0 < n ->
     forallb (fun kv => negb (eqb (fst kv) k_proto)) kvs = true ->
     truncateStrings (JObj kvs) n =
     JObj (List.map (fun kv => (fst kv, truncateStrings (snd kv) n)) kvs)) /\
  (forall kvs n,
     forallb (fun kv => negb (eqb (fst kv) k_proto)) kvs = true ->
     exists kvs',
       truncateStrings (JObj kvs) n = JObj kvs' /\
       List.map fst kvs' = List.map fst kvs) /\
  (forall xs n, 0 < n ->
     truncateStrings (JArr xs) n =
     JArr (List.map (fun it => truncateStrings it n) xs)) /\
  (forall xs n, exists xs',
     truncateStrings (JArr xs) n = JArr xs' /\
     List.length xs' = List.length xs) /\
  (forall k n, truncateStrings (JNum k) n = JNum k) /\
  (forall b n, truncateStrings (JBool b) n = JBool b) /\
  (forall n, truncateStrings JNull n = JNull) /\
  (truncateStrings
     (JObj [(u16 "a", JStr (u16 "abcdefghij"));
            (u16 "__proto__", JObj [(u16 "x", JNum 1)])]) 0
   = JObj [(u16 "a", JStr (u16 "abcdefghij"));
           (u16 "__proto__", JObj [(u16 "x", JNum 1)])] /\
   truncateStrings
     (JObj [(u16 "a", JStr (u16 "abcdefghij"));
            (u16 "__proto__", JObj [(u16 "x", JNum 1)])]) 3
   = JObj [(u16 "a", JStr (u16 "abc" ++ 8230%N :: u16 " (+7 chars)"))]).
Proof.
  split; [exact truncateStrings_nonpos |].
  split; [exact truncateStrings_str_short |].
  split; [exact truncateStrings_str_long |].
  split; [vm_compute; reflexivity |].
  split.
  { intros kvs n Hn Hkeys. rewrite truncateStrings_obj by assumption.
    now rewrite (assigned_all kvs Hkeys). }
  split.
  { intros kvs n Hkeys. destruct (Z.leb_spec n 0) as [Hn | Hn].
    - exists kvs. now rewrite truncateStrings_nonpos.
    - eexists; split; [apply truncateStrings_obj; lia |].
      rewrite (assigned_all kvs Hkeys), map_map; cbn [fst]. reflexivity. }
  split; [exact truncateStrings_arr |].
  split.
  { intros xs n. destruct (Z.leb_spec n 0) as [Hn | Hn].
    - exists xs. now rewrite truncateStrings_nonpos.
    - eexists; split; [apply truncateStrings_arr; lia |].
      apply length_map. }
  split; [intros; now apply truncateStrings_atom |].
  split; [intros; now apply truncateStrings_atom |].
  split; [intros; now apply truncateStrings_atom |].
  split; vm_compute; reflexivity.
Qed.

Lemma truncateStrings_leaf_contract_witness :
  truncateStrings (JStr (u16 "hi")) 0 = JStr (u16 "hi") /\
  truncateStrings (JStr (u16 "hi")) 10 = JStr (u16 "hi") /\
  truncateStrings (JStr (u16 "abcdefghijk")) 4 =
    JStr (u16 "abcd" ++ 8230%N :: u16 " (+7 chars)") /\
  truncateStrings (JObj [(u16 "name", JStr (u16 "abcdefghij"))]) 4 =
    JObj [(u16 "name", JStr (u16 "abcd" ++ 8230%N :: u16 " (+6 chars)"))] /\
  truncateStrings (JArr [JStr (u16 "1234567890")]) 4 =
    JArr [JStr (u16 "1234" ++ 8230%N :: u16 " (+6 chars)")].
Proof.
  destruct truncateStrings_leaf_contract
    as (H0 & Hshort & Hlong & _ & Hobj & _ & Harr & _).
  split; [apply H0; lia |].
  split; [apply Hshort; vm_compute; discriminate |].
  split; [rewrite Hlong by (vm_compute; reflexivity); vm_compute; reflexivity |].
  split; [rewrite Hobj by (lia || reflexivity); vm_compute; reflexivity |].
  rewrite Harr by lia; vm_compute; reflexivity.
Defined.

(** ** Truncating twice *)

Lemma len_marker (k : Z) : len (marker k) = 11 + len (ofInt k).
Proof.
  unfold marker. autorewrite with len.
  change (len (u16 " (+")) with 3. change (len (u16 " chars)")) with 7. lia.
Qed.

Lemma firstn_firstn_app (s t : jstring) (n : nat) :
  (n <= List.length s)%nat -> firstn n (firstn n s ++ t) = firstn n s.
Proof.
  intros Hn.
  rewrite firstn_app, length_firstn, Nat.min_l by assumption.
  rewrite Nat.sub_diag, firstn_firstn, Nat.min_id; cbn [firstn].
  apply app_nil_r.
Qed.

(** What a second pass does to a string that the first pass cut: the
    prefix stays, the count in the marker becomes the length of the first
    marker. *)
Lemma truncateStrings_twice_str (s : jstring) (n : Z) :
  0 < n -> n < len s ->
  truncateStrings (truncateStrings (JStr s) n) n =
  JStr (firstn (Z.to_nat n) s ++ marker (len (marker (len s - n)))).
Proof.
  intros Hn Hs.
  rewrite (truncateStrings_str_long s n Hn Hs).
  assert (Hlen : len (firstn (Z.to_nat n) s) = n)
    by (unfold len in *; rewrite length_firstn; lia).
  pose proof (len_marker (len s - n)) as Hm.
  pose proof (len_nonneg (ofInt (len s - n))) as Ho.
  rewrite truncateStrings_str_long by (rewrite ?len_app; lia).
  rewrite firstn_firstn_app by (unfold len in Hs; lia).
  rewrite len_app, Hlen. do 2 f_equal. f_equal. lia.
Qed.

Lemma allStrings_arr_Forall (p : jstring -> bool) (xs : list json) :
  allStrings p (JArr xs) = true -> Forall (fun x => allStrings p x = true) xs.
Proof. cbn [allStrings]; intros H; now apply Forall_forall, forallb_forall. Qed.

Lemma allStrings_obj_Forall (p : jstring -> bool) (kvs : list (jstring * json)) :
  allStrings p (JObj kvs) = true ->
  Forall (fun kv => allStrings p (snd kv) = true) kvs.
Proof. cbn [allStrings]; intros H; now apply Forall_forall, forallb_forall. Qed.

Lemma reachedStrings_arr_Forall (p : jstring -> bool) (xs : list json) :
  reachedStrings p (JArr xs) = true -> Forall (fun x => reachedStrings p x = true) xs.
Proof. cbn [reachedStrings]; intros H; now apply Forall_forall, forallb_forall. Qed.

Lemma reachedStrings_obj_Forall (p : jstring -> bool) (kvs : list (jstring * json)) :
  reachedStrings p (JObj kvs) = true ->
  Forall (fun kv => reachedStrings p (snd kv) = true) (assigned kvs).
Proof.
  cbn [reachedStrings]; intros H. rewrite forallb_forall in H.
  apply Forall_forall. intros kv Hkv. apply In_assigned in Hkv as [Hin Hk].
  specialize (H kv Hin). now rewrite Hk in H.
Qed.

(** Every leaf has the property, so every leaf reached has it. *)
Lemma allStrings_reached (p : jstring -> bool) (v : json) :
  allStrings p v = true -> reachedStrings p v = true.
Proof.
  induction v as [| b | k | s | xs IH | kvs IH] using json_nested_ind;
    cbn [allStrings reachedStrings]; auto.
  - rewrite !forallb_forall, Forall_forall in *. auto.
  - rewrite !forallb_forall, Forall_forall in *. intros H kv Hkv.
    apply orb_true_iff. right. auto.
Qed.

(** Without a property named [__proto__] every leaf is reached. *)
Lemma reachedStrings_all (p : jstring -> bool) (v : json) :
  protoFree v = true -> reachedStrings p v = true -> allStrings p v = true.
Proof.
  induction v as [| b | k | s | xs IH | kvs IH] using json_nested_ind;
    cbn [allStrings reachedStrings protoFree]; auto.
  - rewrite !forallb_forall, Forall_forall in *. auto.
  - rewrite !forallb_forall, Forall_forall in *. intros Hp H kv Hkv.
    specialize (Hp kv Hkv). apply andb_true_iff in Hp as [Hk Hp].
    specialize (H kv Hkv). apply negb_true_iff in Hk. rewrite Hk in H.
    now apply (IH kv Hkv).
Qed.

(** The second pass over a rebuilt object finds no entry to drop. *)
Lemma truncateStrings_obj_twice (kvs : list (jstring * json)) (n : Z) :
  0 < n ->
  truncateStrings (truncateStrings (JObj kvs) n) n =
  JObj (List.map (fun kv => (fst kv, truncateStrings (truncateStrings (snd kv) n) n))
          (assigned kvs)).
Proof.
  intros Hn. rewrite (truncateStrings_obj kvs) by assumption.
  rewrite truncateStrings_obj by assumption.
  rewrite (assigned_map_values (fun kv => truncateStrings (snd kv) n)), assigned_idem.
  rewrite map_map. reflexivity.
Qed.

Lemma truncateStrings_idem_stable (v : json) (n : Z) :
  0 < n -> reachedStrings (stableLeaf n) v = true ->
  truncateStrings (truncateStrings v n) n = truncateStrings v n.
Proof.
  intros Hn. induction v as [| b | k | s | xs IH | kvs IH] using json_nested_ind;
    intros Hv.
  - now rewrite !(truncateStrings_atom JNull n I).
  - now rewrite !(truncateStrings_atom (JBool b) n I).
  - now rewrite !(truncateStrings_atom (JNum k) n I).
  - cbn [reachedStrings] in Hv; unfold stableLeaf in Hv.
    apply orb_true_iff in Hv as [Hv | Hv].
    + apply Z.leb_le in Hv. now rewrite !truncateStrings_str_short.
    + apply Z.eqb_eq in Hv.
      rewrite truncateStrings_twice_str, truncateStrings_str_long by lia.
      replace (len s - n) with 13 by lia. reflexivity.
  - apply reachedStrings_arr_Forall in Hv.
    rewrite (truncateStrings_arr xs) by assumption.
    rewrite truncateStrings_arr by assumption. f_equal.
    rewrite map_map. apply map_ext_in. intros x Hx.
    rewrite Forall_forall in IH, Hv. apply IH; [exact Hx | now apply Hv].
  - apply reachedStrings_obj_Forall in Hv.
    rewrite truncateStrings_obj_twice, truncateStrings_obj by assumption. f_equal.
    apply map_ext_in. intros kv Hkv; cbn [fst snd].
    rewrite Forall_forall in IH, Hv. f_equal.
    apply (IH kv); [now apply In_assigned in Hkv | now apply Hv].
Qed.

(** ** Packing *)

Section Packing.
Variable maxCharsPerPage : Z.

Lemma packStep_flat (st : packState) (run : json) :
  List.concat (pages (packStep maxCharsPerPage st run))
    ++ currentPage (packStep maxCharsPerPage st run)
  = (List.concat (pages st) ++ currentPage st) ++ [run].
Proof.
  unfold packStep.
  destruct ((currentChars st + runCharCount run >? maxCharsPerPage)
            && (len (currentPage st) >? 0)); cbn [pages currentPage].
  - rewrite concat_app; cbn [List.concat]. now rewrite !app_nil_r.
  - now rewrite app_assoc.
Qed.

Lemma pack_flat (runs : list json) (st : packState) :
  List.concat (pages (fold_left (packStep maxCharsPerPage) runs st))
    ++ currentPage (fold_left (packStep maxCharsPerPage) runs st)
  = (List.concat (pages st) ++ currentPage st) ++ runs.
Proof.
  revert st. induction runs as [| run runs IH]; intros st; cbn [fold_left].
  - now rewrite app_nil_r.
  - rewrite IH, packStep_flat, <- app_assoc. reflexivity.
Qed.

Lemma packStep_nonempty (st : packState) (run : json) :
  Forall (fun p => p <> []) (pages st) ->
  Forall (fun p => p <> []) (pages (packStep maxCharsPerPage st run)).
Proof.
  intros Hst. unfold packStep.
  destruct (currentChars st + runCharCount run >? maxCharsPerPage); cbn [andb];
    [| exact Hst].
  destruct (Z.gtb_spec (len (currentPage st)) 0) as [Hpos | Hpos];
    cbn [pages]; [| exact Hst].
  apply Forall_app; split; [exact Hst |].
  constructor; [| constructor].
  intros E; rewrite E in Hpos; cbn in Hpos; lia.
Qed.

Lemma pack_nonempty (runs : list json) (st : packState) :
  Forall (fun p => p <> []) (pages st) ->
  Forall (fun p => p <> [])
    (pages (fold_left (packStep maxCharsPerPage) runs st)).
Proof.
  revert st. induction runs as [| run runs IH]; intros st Hst; cbn [fold_left].
  - exact Hst.
  - now apply IH, packStep_nonempty.
Qed.

Lemma buildPages_nonempty (runs : list json) :
  Forall (fun p => p <> []) (buildPagesByCharBudget runs maxCharsPerPage).
Proof.
  unfold buildPagesByCharBudget.
  destruct (len runs =? 0); [constructor |].
  pose proof (pack_nonempty runs (mkPack [] [] 0) (Forall_nil _)) as Hp.
  destruct (Z.gtb_spec
    (len (currentPage (fold_left (packStep maxCharsPerPage) runs (mkPack [] [] 0)))) 0)
    as [Hpos | Hpos]; [| exact Hp].
  apply Forall_app; split; [exact Hp |].
  constructor; [| constructor].
  intros E; rewrite E in Hpos; cbn in Hpos; lia.
Qed.

End Packing.

(** C6. Concatenating the pages of [buildPagesByCharBudget] in page order
    gives back the input sequence: same items, same order, none lost and
    none repeated, whatever the budget. *)
Theorem buildPages_concat (runsDict : list json) (maxCharsPerPage : Z) :
  List.concat (buildPagesByCharBudget runsDict maxCharsPerPage) = runsDict.
Proof.
  unfold buildPagesByCharBudget.
  destruct (Z.eqb_spec (len runsDict) 0) as [He | Hne].
  - destruct runsDict; [reflexivity | rewrite len_cons in He].
    pose proof (len_nonneg runsDict); lia.
  - pose proof (pack_flat maxCharsPerPage runsDict (mkPack [] [] 0)) as Hflat.
    cbn [pages currentPage List.concat app] in Hflat.
    destruct (Z.gtb_spec
      (len (currentPage (fold_left (packStep maxCharsPerPage) runsDict (mkPack [] [] 0)))) 0)
      as [Hpos | Hpos].
    + rewrite concat_app; cbn [List.concat]. now rewrite app_nil_r.
    + destruct (currentPage (fold_left (packStep maxCharsPerPage) runsDict (mkPack [] [] 0)))
        as [| x l] eqn:Ecur.
      * now rewrite app_nil_r in Hflat.
      * rewrite len_cons in Hpos. pose proof (len_nonneg l); lia.
Qed.

(** ** Objects *)

Lemma eqb_eq (a b : jstring) : eqb a b = true <-> a = b.
Proof.
  revert b. induction a as [| x a IH]; intros [| y b]; cbn [eqb];
    try (split; [discriminate | discriminate]); [tauto |].
  rewrite andb_true_iff, N.eqb_eq, IH.
  split; [intros [-> ->]; reflexivity | intros E; inversion E; auto].
Qed.

Lemma eqb_refl (a : jstring) : eqb a a = true.
Proof. now apply eqb_eq. Qed.

Lemma obj_get_set_same (k : jstring) (v : json) (o : obj) :
  obj_get k (obj_set k v o) = Some v.
Proof.
  induction o as [| [k' v'] o IH]; cbn [obj_set obj_get].
  - now rewrite eqb_refl.
  - destruct (eqb k k') eqn:E; cbn [obj_get]; now rewrite E.
Qed.

Lemma obj_get_set_other (k k2 : jstring) (v : json) (o : obj) :
  eqb k k2 = false -> obj_get k (obj_set k2 v o) = obj_get k o.
Proof.
  intros Hk. induction o as [| [k' v'] o IH]; cbn [obj_set obj_get].
  - now rewrite Hk.
  - destruct (eqb k2 k') eqn:E; cbn [obj_get].
    + apply eqb_eq in E; subst k'. now rewrite Hk.
    + now rewrite IH.
Qed.

Lemma obj_get_set_opt_other (k k2 : jstring) (v : option json) (o : obj) :
  eqb k k2 = false -> obj_get k (obj_set_opt k2 v o) = obj_get k o.
Proof.
  intros Hk. destruct v; cbn [obj_set_opt]; [now apply obj_get_set_other | reflexivity].
Qed.

Lemma obj_set_get_id (k : jstring) (v : json) (o : obj) :
  obj_get k o = Some v -> obj_set k v o = o.
Proof.
  induction o as [| [k' v'] o IH]; cbn [obj_set obj_get]; [discriminate |].
  destruct (eqb k k'); [now intros [= ->] | intros H; now rewrite IH].
Qed.

(** Rebuilding with the no-op length gives the page itself. *)
Lemma rebuild_zero (pageDict : obj) (key : jstring) (items : list json) :
  obj_get key pageDict = Some (JArr items) ->
  rebuild pageDict key items 0 = pageDict.
Proof.
  intros Hget. unfold rebuild.
  rewrite map_truncateStrings_nonpos by lia.
  now apply obj_set_get_id.
Qed.

(** ** The binary search *)

Section Search.
Variable probe : Z -> obj.
Variable maxCharsPerPage : Z.

Local Abbreviation fits := (fitsAt probe maxCharsPerPage).

(** The loop ends within its fuel: the interval at least halves at every
    iteration. *)
Lemma searchLoop_terminates (fuel : nat) (low high : Z) (best : obj) :
  high - low + 1 < 2 ^ Z.of_nat fuel ->
  exists r, searchLoop fuel probe maxCharsPerPage low high best = Some r.
Proof.
  revert low high best.
  induction fuel as [| fuel IH]; intros low high best Hsz.
  - cbn [searchLoop]. change (2 ^ Z.of_nat 0) with 1 in Hsz.
    destruct (Z.leb_spec low high); [lia | now eexists].
  - cbn [searchLoop]. destruct (Z.leb_spec low high) as [Hle | Hgt]; [| now eexists].
    rewrite Nat2Z.inj_succ, Z.pow_succ_r in Hsz by lia.
    assert (Hmid : low <= (low + high) / 2 <= high)
      by (split; [apply Z.div_le_lower_bound | apply Z.div_le_upper_bound]; lia).
    pose proof (Z.mul_div_le (low + high) 2 ltac:(lia)) as Hd1.
    pose proof (Z.mul_succ_div_gt (low + high) 2 ltac:(lia)) as Hd2.
    destruct (pageOutputSize (probe ((low + high) / 2)) <=? maxCharsPerPage);
      apply IH; lia.
Qed.

(** What the loop returns: the page it started from when no probe fitted
    (and then the last probe was [low] itself), or the probe at some [t]
    of the interval that fits and is followed by a probe that does not. *)
Lemma searchLoop_result (fuel : nat) (low high : Z) (best r : obj) :
  searchLoop fuel probe maxCharsPerPage low high best = Some r ->
  (r = best /\ (low <= high -> fits low = false)) \/
  (exists t, low <= t <= high /\ r = probe t /\ fits t = true /\
             (t < high -> fits (t + 1) = false)).
Proof.
  revert low high best.
  induction fuel as [| fuel IH]; intros low high best; cbn [searchLoop];
    destruct (Z.leb_spec low high) as [Hle | Hgt];
    try discriminate; try (intros [= <-]; left; split; [reflexivity | lia]).
  assert (Hmid : low <= (low + high) / 2 <= high)
    by (split; [apply Z.div_le_lower_bound | apply Z.div_le_upper_bound]; lia).
  set (mid := (low + high) / 2) in *.
  destruct (pageOutputSize (probe mid) <=? maxCharsPerPage) eqn:Hfit; intros Hrun.
  - right. apply IH in Hrun as [[-> Hlast] | (t & Ht & -> & Hft & Hnext)].
    + exists mid. repeat split; try lia; [exact Hfit |].
      intros Hlt. apply Hlast. lia.
    + exists t. repeat split; try lia; assumption.
  - apply IH in Hrun as [[-> Hlast] | (t & Ht & -> & Hft & Hnext)].
    + left. split; [reflexivity |]. intros _.
      destruct (Z.eq_dec mid low) as [E | Hne];
        [unfold fitsAt; rewrite <- E; exact Hfit | apply Hlast; lia].
    + right. exists t. repeat split; try lia; [exact Hft |].
      intros Hlt. destruct (Z.eq_dec (t + 1) mid) as [E | Hne];
        [unfold fitsAt; rewrite E; exact Hfit | apply Hnext; lia].
Qed.

(** No probe of the interval fits: the loop returns the page it started
    from. *)
Lemma searchLoop_none_fit (fuel : nat) (low high : Z) (best r : obj) :
  (forall t, low <= t <= high -> fits t = false) ->
  searchLoop fuel probe maxCharsPerPage low high best = Some r -> r = best.
Proof.
  intros Hnone Hrun.
  apply searchLoop_result in Hrun as [[-> _] | (t & Ht & _ & Hft & _)];
    [reflexivity |].
  rewrite Hnone in Hft by assumption. discriminate.
Qed.

(** When fitting is downward closed from 1 upwards, a search from 0 that
    returns the page it started from has met no fitting length above 1. *)
Lemma searchLoop_from_zero_misses (fuel : nat) (bound high : Z) (best : obj) :
  (forall t t', 1 <= t' <= t -> t <= bound -> fits t = true -> fits t' = true) ->
  (forall t, fits t = true -> probe t <> best) ->
  high <= bound ->
  searchLoop fuel probe maxCharsPerPage 0 high best = Some best ->
  forall t, 2 <= t <= high -> fits t = false.
Proof.
  intros Hdown Hdiff. revert high.
  induction fuel as [| fuel IH]; intros high Hb; cbn [searchLoop];
    destruct (Z.leb_spec 0 high) as [Hle | Hgt]; try discriminate;
    try (intros _ t Ht; lia).
  assert (Hmid : 0 <= (0 + high) / 2 <= high)
    by (split; [apply Z.div_le_lower_bound | apply Z.div_le_upper_bound]; lia).
  pose proof (Z.mul_div_le (0 + high) 2 ltac:(lia)) as Hd1.
  pose proof (Z.mul_succ_div_gt (0 + high) 2 ltac:(lia)) as Hd2.
  set (mid := (0 + high) / 2) in *.
  destruct (pageOutputSize (probe mid) <=? maxCharsPerPage) eqn:Hfit; intros Hrun t Ht.
  - exfalso.
    apply searchLoop_result in Hrun as [[E _] | (u & _ & E & Hfu & _)].
    + now apply (Hdiff mid).
    + now apply (Hdiff u).
  - destruct (Z.le_gt_cases mid t) as [Hge | Hlt].
    + destruct (fits t) eqn:Ht'; [| reflexivity].
      assert (Hm : 1 <= mid <= t) by lia.
      specialize (Hdown t mid Hm ltac:(lia) Ht'). unfold fitsAt in Hdown.
      congruence.
    + apply (IH (mid - 1) ltac:(lia) Hrun). lia.
Qed.

End Search.

(** ** Budget enforcement *)

Lemma rangeAll_spec (f : Z -> bool) (lo : Z) (n : nat) :
  rangeAll f lo n = true ->
  forall t, lo <= t < lo + Z.of_nat n -> f t = true.
Proof.
  unfold rangeAll. intros H t Ht.
  rewrite forallb_forall in H.
  specialize (H (Z.to_nat (t - lo))).
  replace (lo + Z.of_nat (Z.to_nat (t - lo))) with t in H by lia.
  apply H, in_seq. lia.
Qed.

Lemma allStrings_impl (p q : jstring -> bool) (v : json) :
  (forall s, p s = true -> q s = true) ->
  allStrings p v = true -> allStrings q v = true.
Proof.
  intros Hpq.
  induction v as [| b | k | s | xs IH | kvs IH] using json_nested_ind;
    cbn [allStrings]; auto.
  - rewrite !forallb_forall. rewrite Forall_forall in IH. auto.
  - rewrite !forallb_forall. rewrite Forall_forall in IH. auto.
Qed.

(** A value without a property named [__proto__] whose strings are all
    within the preview length is returned as it is. *)
Lemma truncateStrings_all_short (v : json) (n : Z) :
  protoFree v = true ->
  allStrings (fun s => len s <=? n) v = true -> truncateStrings v n = v.
Proof.
  destruct (Z.leb_spec n 0) as [Hn | Hn];
    [intros _ _; now apply truncateStrings_nonpos |].
  induction v as [| b | k | s | xs IH | kvs IH] using json_nested_ind; intros Hp Hv.
  - now apply truncateStrings_atom.
  - now apply truncateStrings_atom.
  - now apply truncateStrings_atom.
  - cbn [allStrings] in Hv. apply Z.leb_le in Hv. now apply truncateStrings_str_short.
  - apply allStrings_arr_Forall in Hv. apply protoFree_arr in Hp.
    rewrite truncateStrings_arr by assumption.
    f_equal. rewrite <- (map_id xs) at 2. apply map_ext_in. intros x Hx.
    rewrite Forall_forall in IH, Hv, Hp. auto.
  - apply allStrings_obj_Forall in Hv.
    rewrite truncateStrings_obj_all by assumption.
    apply protoFree_obj in Hp as [_ Hp].
    f_equal. rewrite <- (map_id kvs) at 2. apply map_ext_in. intros [k v] Hkv.
    rewrite Forall_forall in IH, Hv, Hp. cbn [fst snd]. f_equal.
    apply (IH (k, v) Hkv); [apply (Hp (k, v) Hkv) | apply (Hv (k, v) Hkv)].
Qed.

(** Rebuilding with a length no string of the page exceeds gives the page
    itself. *)
Lemma rebuild_all_short (pageDict : obj) (key : jstring) (items : list json) (t : Z) :
  obj_get key pageDict = Some (JArr items) ->
  protoFree (JArr items) = true ->
  allStrings (fun s => len s <=? t) (JArr items) = true ->
  rebuild pageDict key items t = pageDict.
Proof.
  intros Hget Hproto Hshort. unfold rebuild.
  apply allStrings_arr_Forall in Hshort. rewrite Forall_forall in Hshort.
  apply protoFree_arr in Hproto. rewrite Forall_forall in Hproto.
  replace (List.map (fun it => truncateStrings it t) items) with items.
  - now apply obj_set_get_id.
  - rewrite <- (map_id items) at 1. apply map_ext_in. intros x Hx.
    symmetry. apply truncateStrings_all_short; [now apply Hproto | now apply Hshort].
Qed.

Lemma enforce_when_fits (pageDict : obj) (m : Z) (key : jstring) :
  pageOutputSize pageDict <= m ->
  enforcePageCharBudget pageDict m key = Some pageDict.
Proof.
  intros H. unfold enforcePageCharBudget.
  apply Z.leb_le in H. now rewrite H.
Qed.

Lemma enforce_when_empty (pageDict : obj) (m : Z) (key : jstring) :
  obj_get key pageDict = Some (JArr []) ->
  enforcePageCharBudget pageDict m key = Some pageDict.
Proof.
  intros H. unfold enforcePageCharBudget. rewrite H.
  now destruct (pageOutputSize pageDict <=? m).
Qed.

(** With an over-budget page that holds items, the search runs to its
    end, and its result decides between the rebuilt and the degraded
    page. *)
Lemma enforce_when_searching (pageDict : obj) (m : Z) (key : jstring)
    (items : list json) :
  m < pageOutputSize pageDict ->
  obj_get key pageDict = Some (JArr items) -> items <> [] ->
  exists best,
    searchLoop searchFuel (rebuild pageDict key items) m 0 100000 pageDict = Some best /\
    enforcePageCharBudget pageDict m key =
      Some (if pageOutputSize best >? m
            then degraded pageDict best m key else best).
Proof.
  intros Hover Hget Hne. unfold enforcePageCharBudget.
  destruct (Z.leb_spec (pageOutputSize pageDict) m); [lia |].
  rewrite Hget. destruct items as [| it items]; [congruence |].
  cbv beta iota zeta.
  destruct (searchLoop_terminates (rebuild pageDict key (it :: items)) m
              searchFuel 0 100000 pageDict) as [best Hbest].
  { vm_compute. reflexivity. }
  exists best. rewrite Hbest. split; [reflexivity |].
  destruct (pageOutputSize best >? m); reflexivity.
Qed.

(** The search of [enforcePageCharBudget] on an over-budget page that
    holds items: it ends, the no-op length 0 does not fit, and what it
    returns decides the answer. *)
Lemma enforce_search_run (pageDict : obj) (m : Z) (key : jstring)
    (items : list json) :
  m < pageOutputSize pageDict ->
  obj_get key pageDict = Some (JArr items) -> items <> [] ->
  fitsAt (rebuild pageDict key items) m 0 = false /\
  exists best,
    searchLoop searchFuel (rebuild pageDict key items) m 0 100000 pageDict = Some best /\
    (best = pageDict ->
     enforcePageCharBudget pageDict m key = Some (degraded pageDict pageDict m key)) /\
    (forall t, best = rebuild pageDict key items t ->
       fitsAt (rebuild pageDict key items) m t = true ->
       enforcePageCharBudget pageDict m key = Some (rebuild pageDict key items t)).
Proof.
  intros Hover Hget Hne.
  destruct (enforce_when_searching pageDict m key items Hover Hget Hne)
    as (best & Hrun & Henf).
  split.
  { unfold fitsAt. rewrite rebuild_zero by assumption. now apply Z.leb_gt. }
  exists best. split; [exact Hrun |]. split.
  - intros ->. rewrite Henf.
    destruct (Z.gtb_spec (pageOutputSize pageDict) m); [reflexivity | lia].
  - intros t -> Hft. rewrite Henf. unfold fitsAt in Hft. apply Z.leb_le in Hft.
    destruct (Z.gtb_spec (pageOutputSize (rebuild pageDict key items t)) m);
      [lia | reflexivity].
Qed.

(** C3, as the code has it.  For an over-budget page that holds items,
    [enforcePageCharBudget] returns the degraded page, or the page rebuilt
    with a length [t] of [1..100000] that fits and whose successor does
    not fit; it returns the degraded page whenever no length of the domain
    fits; and when fitting is downward closed on [1..100000] and some
    length above 1 fits, the length it rebuilds with is the largest that
    fits. *)
Theorem enforce_search_outcome (pageDict : obj) (m : Z) (key : jstring)
    (items : list json) :
  m < pageOutputSize pageDict ->
  obj_get key pageDict = Some (JArr items) -> items <> [] ->
  (enforcePageCharBudget pageDict m key = Some (degraded pageDict pageDict m key) \/
   exists t, 1 <= t <= 100000 /\
     fitsAt (rebuild pageDict key items) m t = true /\
     (t < 100000 -> fitsAt (rebuild pageDict key items) m (t + 1) = false) /\
     enforcePageCharBudget pageDict m key = Some (rebuild pageDict key items t)) /\
  ((forall t, 0 <= t <= 100000 -> fitsAt (rebuild pageDict key items) m t = false) ->
   enforcePageCharBudget pageDict m key = Some (degraded pageDict pageDict m key)) /\
  ((forall t t', 1 <= t' <= t -> t <= 100000 ->
      fitsAt (rebuild pageDict key items) m t = true ->
      fitsAt (rebuild pageDict key items) m t' = true) ->
   (exists t, 2 <= t <= 100000 /\ fitsAt (rebuild pageDict key items) m t = true) ->
   exists T, 1 <= T <= 100000 /\
     fitsAt (rebuild pageDict key items) m T = true /\
     (forall t, 0 <= t <= 100000 ->
        fitsAt (rebuild pageDict key items) m t = true -> t <= T) /\
     enforcePageCharBudget pageDict m key = Some (rebuild pageDict key items T)).
Proof.
  intros Hover Hget Hne.
  destruct (enforce_search_run pageDict m key items Hover Hget Hne)
    as (Hzero & best & Hrun & Hdeg & Hreb).
  set (fits := fitsAt (rebuild pageDict key items) m) in *.
  pose proof (searchLoop_result _ _ _ _ _ _ _ Hrun) as Hres. fold fits in Hres.
  split; [| split].
  - destruct Hres as [[E _] | (t & Ht & E & Hft & Hnext)]; [left; auto | right].
    exists t. repeat split; try lia; auto.
    destruct (Z.eq_dec t 0) as [-> | ?]; [congruence | lia].
  - intros Hnone. apply Hdeg.
    now apply (searchLoop_none_fit _ _ _ _ _ _ _ Hnone Hrun).
  - intros Hdown (u & Hu & Hfu).
    destruct Hres as [[E _] | (t & Ht & E & Hft & Hnext)].
    + exfalso. subst best.
      assert (Hdiff : forall t, fits t = true -> rebuild pageDict key items t <> pageDict).
      { intros t Hft E. unfold fits, fitsAt in Hft. rewrite E in Hft.
        apply Z.leb_le in Hft. lia. }
      pose proof (searchLoop_from_zero_misses _ _ _ 100000 _ _ Hdown Hdiff
                    (Z.le_refl _) Hrun u Hu) as Hmiss.
      fold fits in Hmiss. congruence.
    + exists t.
      assert (t <> 0) by (intros ->; congruence).
      repeat split; try lia; auto.
      intros t' Ht' Hft'.
      destruct (Z.le_gt_cases t' t) as [| Hgt]; [assumption | exfalso].
      assert (Hn : fits (t + 1) = true)
        by (apply (Hdown t' (t + 1)); [lia | lia | exact Hft']).
      rewrite Hnext in Hn by lia. discriminate.
Qed.

(** On [page_one_string_110] the lengths that fit are exactly 1, 2, 3. *)
Lemma page_one_string_110_fits (t : Z) :
  fitsAt (rebuild page_one_string_110 k_runs [run_one_string]) 110 t = true <->
  1 <= t <= 3.
Proof.
  split.
  - intros Hfit.
    destruct (Z.le_gt_cases t 0) as [Hle | Hpos].
    { exfalso. unfold fitsAt, rebuild in Hfit.
      rewrite map_truncateStrings_nonpos in Hfit by assumption.
      vm_compute in Hfit. discriminate. }
    destruct (Z.le_gt_cases t 3) as [| Hgt]; [lia | exfalso].
    destruct (Z.lt_ge_cases t 20) as [Hlt | Hge].
    + assert (Hr : rangeAll
        (fun u => negb (fitsAt (rebuild page_one_string_110 k_runs [run_one_string]) 110 u))
        4 16 = true) by (vm_compute; reflexivity).
      pose proof (rangeAll_spec _ _ _ Hr t ltac:(lia)) as Hn.
      cbv beta in Hn. rewrite Hfit in Hn. discriminate.
    + unfold fitsAt in Hfit. rewrite rebuild_all_short in Hfit;
        [vm_compute in Hfit; discriminate | reflexivity | reflexivity |].
      apply (allStrings_impl (fun s => len s <=? 20)); [| vm_compute; reflexivity].
      intros s Hs. apply Z.leb_le in Hs. apply Z.leb_le. lia.
  - intros Ht.
    assert (Hc : t = 1 \/ t = 2 \/ t = 3) by lia.
    destruct Hc as [-> | [-> | ->]]; vm_compute; reflexivity.
Qed.

Lemma enforce_search_outcome_witness :
  (130 < pageOutputSize page_two_strings /\
   (enforcePageCharBudget page_two_strings 130 k_runs
      = Some (degraded page_two_strings page_two_strings 130 k_runs) \/
    exists t, 1 <= t <= 100000 /\
      fitsAt (rebuild page_two_strings k_runs [run_two_strings]) 130 t = true /\
      (t < 100000 ->
       fitsAt (rebuild page_two_strings k_runs [run_two_strings]) 130 (t + 1) = false) /\
      enforcePageCharBudget page_two_strings 130 k_runs
        = Some (rebuild page_two_strings k_runs [run_two_strings] t))) /\
  (110 < pageOutputSize page_one_string_110 /\
   exists T, 1 <= T <= 100000 /\
     fitsAt (rebuild page_one_string_110 k_runs [run_one_string]) 110 T = true /\
     (forall t, 0 <= t <= 100000 ->
        fitsAt (rebuild page_one_string_110 k_runs [run_one_string]) 110 t = true ->
        t <= T) /\
     enforcePageCharBudget page_one_string_110 110 k_runs
       = Some (rebuild page_one_string_110 k_runs [run_one_string] T)).
Proof.
  split.
  - assert (H1 : 130 < pageOutputSize page_two_strings) by (vm_compute; reflexivity).
    assert (H2 : obj_get k_runs page_two_strings = Some (JArr [run_two_strings]))
      by reflexivity.
    assert (H3 : [run_two_strings] <> []) by discriminate.
    split; [exact H1 |].
    exact (proj1 (enforce_search_outcome page_two_strings 130 k_runs
                    [run_two_strings] H1 H2 H3)).
  - assert (H1 : 110 < pageOutputSize page_one_string_110) by (vm_compute; reflexivity).
    assert (H2 : obj_get k_runs page_one_string_110 = Some (JArr [run_one_string]))
      by reflexivity.
    assert (H3 : [run_one_string] <> []) by discriminate.
    split; [exact H1 |].
    apply (proj2 (proj2 (enforce_search_outcome page_one_string_110 110 k_runs
                           [run_one_string] H1 H2 H3))).
    + intros t t' Ht' Ht Hfit. apply page_one_string_110_fits in Hfit.
      apply page_one_string_110_fits. lia.
    + exists 2. split; [lia | vm_compute; reflexivity].
Defined.

(** C3, as the specification states it, fails.  The page of
    [run_two_strings] with a budget of 130 is over budget (149
    characters); the lengths that fit are 1, 2 and 8, because the short
    string costs more cut (with its marker) than whole; the search probes
    ..., 23, 11, 5, 2, 3 and returns the page rebuilt with 2, not with the
    largest fitting length 8. *)
Lemma enforce_misses_largest :
  130 < pageOutputSize page_two_strings /\
  paginateRuns [run_two_strings] 1 130 0
    = enforcePageCharBudget page_two_strings 130 k_runs /\
  enforcePageCharBudget page_two_strings 130 k_runs
    = Some (rebuild page_two_strings k_runs [run_two_strings] 2) /\
  fitsAt (rebuild page_two_strings k_runs [run_two_strings]) 130 8 = true /\
  (forall t, 8 < t <= 100000 ->
     fitsAt (rebuild page_two_strings k_runs [run_two_strings]) 130 t = false) /\
  rebuild page_two_strings k_runs [run_two_strings] 8
    <> rebuild page_two_strings k_runs [run_two_strings] 2.
Proof.
  split; [vm_compute; reflexivity |].
  split; [vm_compute; reflexivity |].
  split; [vm_compute; reflexivity |].
  split; [vm_compute; reflexivity |].
  split; [| vm_compute; discriminate].
  intros t Ht. destruct (Z.lt_ge_cases t 40) as [Hlt | Hge].
  - assert (Hr : rangeAll
      (fun u => negb (fitsAt (rebuild page_two_strings k_runs [run_two_strings]) 130 u))
      9 31 = true) by (vm_compute; reflexivity).
    apply negb_true_iff. apply (rangeAll_spec _ _ _ Hr). lia.
  - unfold fitsAt. rewrite rebuild_all_short; [vm_compute; reflexivity | reflexivity | reflexivity |].
    apply (allStrings_impl (fun s => len s <=? 40)); [| vm_compute; reflexivity].
    intros s Hs. apply Z.leb_le in Hs. apply Z.leb_le. lia.
Qed.

(** The search never probes length 1 once its interval is [0, 1]: it
    probes 0, the no-op sentinel, and gives up.  The page of
    [run_one_string] with a budget of 108 fits at length 1 only, and is
    returned degraded. *)
Lemma enforce_misses_length_one :
  paginateRuns [run_one_string] 1 108 0
    = enforcePageCharBudget page_one_string 108 k_runs /\
  enforcePageCharBudget page_one_string 108 k_runs
    = Some (degraded page_one_string page_one_string 108 k_runs) /\
  fitsAt (rebuild page_one_string k_runs [run_one_string]) 108 1 = true.
Proof.
  split; [vm_compute; reflexivity |].
  split; vm_compute; reflexivity.
Qed.

(** ** The degraded page *)

Lemma degraded_runsPage (sel : list json) (p tp m pc : Z) (best : obj) :
  degraded (runsPage sel p tp m pc) best m k_runs
  = degradedRunsPage (previewOf best m) p tp m pc.
Proof. reflexivity. Qed.

Lemma degraded_messagesPage (sel : list json) (p tp m pc : Z) (best : obj) :
  degraded (messagesPage sel p tp m pc) best m k_result
  = degradedMessagesPage (previewOf best m) p tp m pc.
Proof. reflexivity. Qed.

(** The marks of a degraded page, whatever the page and its item key. *)
Lemma degraded_marks (pageDict best : obj) (m : Z) (key : jstring) :
  obj_get k_truncated (degraded pageDict best m key) = Some (JBool true) /\
  obj_get k_truncated_message (degraded pageDict best m key)
    = Some (JStr truncated_message) /\
  obj_get k_truncated_preview (degraded pageDict best m key)
    = Some (JStr (previewOf best m)) /\
  obj_get k_max_chars_per_page (degraded pageDict best m key) = Some (JNum m).
Proof.
  unfold degraded, previewOf. repeat split.
  - rewrite !obj_get_set_other by reflexivity. apply obj_get_set_same.
  - rewrite obj_get_set_other by reflexivity. apply obj_get_set_same.
  - apply obj_get_set_same.
  - rewrite !obj_get_set_other by reflexivity. apply obj_get_set_same.
Qed.

(** The item list of a degraded page is empty, for an item key that is
    none of the metadata names. *)
Lemma degraded_items (pageDict best : obj) (m : Z) (key : jstring) :
  forallb (fun k => negb (eqb key k))
    [k_page_number; k_total_pages; k_max_chars_per_page; k_preview_chars;
     k_truncated; k_truncated_message; k_truncated_preview] = true ->
  obj_get key (degraded pageDict best m key) = Some (JArr []).
Proof.
  cbn [forallb]. rewrite !andb_true_iff, !negb_true_iff.
  intros (H1 & H2 & H3 & H4 & H5 & H6 & H7 & _). unfold degraded.
  rewrite !obj_get_set_other by assumption.
  rewrite !obj_get_set_opt_other by assumption.
  apply obj_get_set_same.
Qed.

Lemma len_suffix : len suffix = 50.
Proof. reflexivity. Qed.

Lemma previewMax_ge (m : Z) : 100 <= previewMax m.
Proof. unfold previewMax. lia. Qed.

(** The preview is at most [previewMax] characters of the page plus the
    50 characters of the suffix. *)
Lemma len_previewOf (best : obj) (m : Z) :
  len (previewOf best m) <= Z.max 100 ((m - 50 - 1000) / 2) + 50.
Proof.
  unfold previewOf. pose proof (previewMax_ge m).
  rewrite len_app, len_slice0, len_suffix by lia.
  unfold previewMax, overhead. rewrite len_suffix. lia.
Qed.

(** Every outcome of the enforcement, for a page whose item list is an
    array. *)
Lemma enforce_cases (pageDict : obj) (m : Z) (key : jstring) (items : list json) :
  obj_get key pageDict = Some (JArr items) ->
  exists page,
    enforcePageCharBudget pageDict m key = Some page /\
    ((page = pageDict /\ (pageOutputSize pageDict <= m \/ items = [])) \/
     (exists t, 1 <= t <= 100000 /\ page = rebuild pageDict key items t /\
                pageOutputSize page <= m /\ items <> []) \/
     (page = degraded pageDict pageDict m key /\ items <> [] /\
      m < pageOutputSize pageDict)).
Proof.
  intros Hget.
  destruct (Z.le_gt_cases (pageOutputSize pageDict) m) as [Hfit | Hover].
  { exists pageDict. split; [now apply enforce_when_fits | left; auto]. }
  destruct items as [| it items].
  { exists pageDict. split; [now apply enforce_when_empty | left; auto]. }
  assert (Hne : it :: items <> []) by discriminate.
  destruct (enforce_search_run pageDict m key (it :: items) ltac:(lia) Hget Hne)
    as (Hzero & best & Hrun & Hdeg & Hreb).
  apply searchLoop_result in Hrun as [[E _] | (t & Ht & E & Hft & _)].
  - eexists; split; [exact (Hdeg E) |]. right; right. repeat split; [assumption | lia].
  - eexists; split; [exact (Hreb t E Hft) |]. right; left. exists t.
    assert (t <> 0) by (intros ->; congruence).
    unfold fitsAt in Hft. apply Z.leb_le in Hft. repeat split; auto; lia.
Qed.

(** ** The entry points *)

Lemma paginateRuns_unfold (items : list json) (p m pc : Z) :
  paginateRuns items p m pc =
  enforcePageCharBudget
    (runsPage (selectPage (buildPagesByCharBudget (previewPass items pc) m) p)
       p (len (buildPagesByCharBudget (previewPass items pc) m)) m pc) m k_runs.
Proof. reflexivity. Qed.

Lemma paginateMessages_unfold (items : list json) (p m pc : Z) :
  paginateMessages items p m pc =
  enforcePageCharBudget
    (messagesPage (selectPage (buildPagesByCharBudget (previewPass items pc) m) p)
       p (len (buildPagesByCharBudget (previewPass items pc) m)) m pc) m k_result.
Proof. reflexivity. Qed.

Lemma selectPage_out_of_range (pgs : list (list json)) (p : Z) :
  p < 1 \/ len pgs < p -> selectPage pgs p = [].
Proof.
  intros H. unfold selectPage.
  destruct (Z.ltb_spec p 1); [reflexivity |].
  destruct (Z.gtb_spec p (len pgs)); [reflexivity | lia].
Qed.

Lemma selectPage_in_range (pgs : list (list json)) (p : Z) :
  1 <= p <= len pgs -> Forall (fun pg => pg <> []) pgs -> selectPage pgs p <> [].
Proof.
  intros H Hne. unfold selectPage.
  destruct (Z.ltb_spec p 1); [lia |].
  destruct (Z.gtb_spec p (len pgs)); [lia |]. cbn [orb].
  rewrite Forall_forall in Hne. apply Hne, nth_In. unfold len in H. lia.
Qed.

Lemma selectPage_empty_iff (items : list json) (p m : Z) :
  selectPage (buildPagesByCharBudget items m) p = [] <->
  p < 1 \/ len (buildPagesByCharBudget items m) < p.
Proof.
  split; [| apply selectPage_out_of_range].
  intros Hsel.
  destruct (Z.lt_ge_cases p 1); [now left |].
  destruct (Z.lt_ge_cases (len (buildPagesByCharBudget items m)) p); [now right |].
  exfalso. revert Hsel. apply selectPage_in_range; [lia | apply buildPages_nonempty].
Qed.

Lemma previewPass_nil (pc : Z) : previewPass [] pc = [].
Proof. unfold previewPass. now destruct (pc >? 0). Qed.

(** A request for a page that does not exist is answered with the page as
    assembled: no items, the real page count, the page number echoed. *)
Lemma paginate_missing_page (items : list json) (p m pc : Z) :
  p < 1 \/ len (buildPagesByCharBudget (previewPass items pc) m) < p ->
  paginateRuns items p m pc
    = Some (runsPage [] p (len (buildPagesByCharBudget (previewPass items pc) m)) m pc) /\
  paginateMessages items p m pc
    = Some (messagesPage [] p (len (buildPagesByCharBudget (previewPass items pc) m)) m pc).
Proof.
  intros H. rewrite paginateRuns_unfold, paginateMessages_unfold.
  rewrite (selectPage_out_of_range _ _ H).
  split; now apply enforce_when_empty.
Qed.

(** C7. With an empty item list, [total_pages] is 0 and the returned items
    are empty for every page number; with a page number below 1 or above
    the number of pages, the returned items are empty, [total_pages] is
    the number of pages of the packing of the whole (preview-truncated)
    item list, and [page_number] echoes the request. *)
Theorem paginate_out_of_range :
  (forall p m pc,
     paginateRuns [] p m pc = Some (runsPage [] p 0 m pc) /\
     paginateMessages [] p m pc = Some (messagesPage [] p 0 m pc)) /\
  (forall items p m pc,
     p < 1 \/ len (buildPagesByCharBudget (previewPass items pc) m) < p ->
     exists runsOut messagesOut,
       paginateRuns items p m pc = Some runsOut /\
       paginateMessages items p m pc = Some messagesOut /\
       obj_get k_runs runsOut = Some (JArr []) /\
       obj_get k_result messagesOut = Some (JArr []) /\
       obj_get k_total_pages runsOut
         = Some (JNum (len (buildPagesByCharBudget (previewPass items pc) m))) /\
       obj_get k_total_pages messagesOut
         = Some (JNum (len (buildPagesByCharBudget (previewPass items pc) m))) /\
       obj_get k_page_number runsOut = Some (JNum p) /\
       obj_get k_page_number messagesOut = Some (JNum p)).
Proof.
  split.
  - intros p m pc.
    assert (H : p < 1 \/ len (buildPagesByCharBudget (previewPass [] pc) m) < p)
      by (rewrite previewPass_nil; cbn; lia).
    destruct (paginate_missing_page [] p m pc H) as [Hr Hm].
    rewrite previewPass_nil in Hr, Hm. now split.
  - intros items p m pc H.
    destruct (paginate_missing_page items p m pc H) as [Hr Hm].
    do 2 eexists. split; [exact Hr |]. split; [exact Hm |].
    repeat split; reflexivity.
Qed.

Lemma paginate_out_of_range_witness :
  exists runsOut messagesOut,
    paginateRuns [run_a; run_b; run_c] 99 100000 0 = Some runsOut /\
    paginateMessages [run_a; run_b; run_c] 99 100000 0 = Some messagesOut /\
    obj_get k_runs runsOut = Some (JArr []) /\
    obj_get k_result messagesOut = Some (JArr []) /\
    obj_get k_total_pages runsOut = Some (JNum 1) /\
    obj_get k_total_pages messagesOut = Some (JNum 1) /\
    obj_get k_page_number runsOut = Some (JNum 99) /\
    obj_get k_page_number messagesOut = Some (JNum 99).
Proof.
  apply (proj2 paginate_out_of_range [run_a; run_b; run_c] 99 100000 0).
  right. vm_compute. reflexivity.
Defined.

(** C10. When the selected page has no items (empty input or a page
    number out of range) and the assembled page exceeds the budget, the
    entry points return it as assembled: over budget and without
    [_truncated], [_truncated_message] or [_truncated_preview]. *)
Theorem empty_page_returned_over_budget (items : list json) (p m pc : Z) :
  selectPage (buildPagesByCharBudget (previewPass items pc) m) p = [] ->
  (m < pageOutputSize
         (runsPage [] p (len (buildPagesByCharBudget (previewPass items pc) m)) m pc) ->
   exists page,
     paginateRuns items p m pc = Some page /\
     page = runsPage [] p (len (buildPagesByCharBudget (previewPass items pc) m)) m pc /\
     m < pageOutputSize page /\
     obj_get k_truncated page = None /\
     obj_get k_truncated_message page = None /\
     obj_get k_truncated_preview page = None) /\
  (m < pageOutputSize
         (messagesPage [] p (len (buildPagesByCharBudget (previewPass items pc) m)) m pc) ->
   exists page,
     paginateMessages items p m pc = Some page /\
     page = messagesPage [] p (len (buildPagesByCharBudget (previewPass items pc) m)) m pc /\
     m < pageOutputSize page /\
     obj_get k_truncated page = None /\
     obj_get k_truncated_message page = None /\
     obj_get k_truncated_preview page = None).
Proof.
  intros Hsel. apply selectPage_empty_iff in Hsel.
  destruct (paginate_missing_page items p m pc Hsel) as [Hr Hm].
  split; intros Hover; eexists; (split; [eassumption |]);
    repeat split; try reflexivity; exact Hover.
Qed.

Lemma empty_page_returned_over_budget_witness :
  exists page,
    paginateRuns [] 1 10 0 = Some page /\
    page = runsPage [] 1 0 10 0 /\
    10 < pageOutputSize page /\
    obj_get k_truncated page = None /\
    obj_get k_truncated_message page = None /\
    obj_get k_truncated_preview page = None.
Proof.
  apply (proj1 (empty_page_returned_over_budget [] 1 10 0 eq_refl)).
  vm_compute. reflexivity.
Defined.




(** C2, as the code has it.  The page an entry point returns fits the
    budget, or it is the degraded page ([_truncated] is [true] and
    [_truncated_preview] holds at most [max (100, (budget - 50 - 1000) / 2)]
    characters of the page plus the 50 characters of the suffix), or the
    requested page does not exist and the page is returned as assembled,
    without items, whatever its size. *)
Theorem page_fits_or_degraded_or_missing (items : list json) (p m pc : Z) :
  (exists page,
     paginateRuns items p m pc = Some page /\
     (pageOutputSize page <= m \/
      (obj_get k_truncated page = Some (JBool true) /\
       exists preview,
         obj_get k_truncated_preview page = Some (JStr preview) /\
         len preview <= Z.max 100 ((m - 50 - 1000) / 2) + 50) \/
      ((p < 1 \/ len (buildPagesByCharBudget (previewPass items pc) m) < p) /\
       page = runsPage [] p
                (len (buildPagesByCharBudget (previewPass items pc) m)) m pc))) /\
  (exists page,
     paginateMessages items p m pc = Some page /\
     (pageOutputSize page <= m \/
      (obj_get k_truncated page = Some (JBool true) /\
       exists preview,
         obj_get k_truncated_preview page = Some (JStr preview) /\
         len preview <= Z.max 100 ((m - 50 - 1000) / 2) + 50) \/
      ((p < 1 \/ len (buildPagesByCharBudget (previewPass items pc) m) < p) /\
       page = messagesPage [] p
                (len (buildPagesByCharBudget (previewPass items pc) m)) m pc))).
Proof.
  rewrite paginateRuns_unfold, paginateMessages_unfold.
  pose proof (selectPage_empty_iff (previewPass items pc) p m) as Hsel.
  set (sel := selectPage _ p) in *. set (tp := len _) in *.
  split.
  - destruct (enforce_cases (runsPage sel p tp m pc) m k_runs sel eq_refl)
      as (page & Hrun & [[-> [Hfit | Hnil]] | [(t & _ & -> & Hfit & _) | (-> & _)]]);
      eexists; (split; [exact Hrun |]).
    + now left.
    + right; right. split; [now apply Hsel | now rewrite Hnil].
    + now left.
    + right; left. rewrite degraded_runsPage. split; [reflexivity |].
      eexists. split; [reflexivity | apply len_previewOf].
  - destruct (enforce_cases (messagesPage sel p tp m pc) m k_result sel eq_refl)
      as (page & Hrun & [[-> [Hfit | Hnil]] | [(t & _ & -> & Hfit & _) | (-> & _)]]);
      eexists; (split; [exact Hrun |]).
    + now left.
    + right; right. split; [now apply Hsel | now rewrite Hnil].
    + now left.
    + right; left. rewrite degraded_messagesPage. split; [reflexivity |].
      eexists. split; [reflexivity | apply len_previewOf].
Qed.

(** C2, as the specification states it, fails on a page without items:
    with an empty list and a budget of 10 the returned page has 85
    characters and no [_truncated] field. *)
Lemma empty_page_over_budget_unmarked :
  paginateRuns [] 1 10 0 = Some (runsPage [] 1 0 10 0) /\
  pageOutputSize (runsPage [] 1 0 10 0) = 85 /\
  obj_get k_truncated (runsPage [] 1 0 10 0) = None /\
  obj_get k_truncated_preview (runsPage [] 1 0 10 0) = None.
Proof. repeat split; vm_compute; reflexivity. Qed.



(** ** Decimal numerals *)

Lemma ofInt_nonneg (k : Z) : 0 <= k -> ofInt k = ofNat k.
Proof. intros Hk. unfold ofInt. destruct (Z.ltb_spec k 0); [lia | reflexivity]. Qed.

(** A number below [10^k] has at most [k] digits. *)
Lemma digits_len_upper (fuel : nat) (n k : Z) :
  1 <= k -> 0 <= n < 10 ^ k -> len (digits fuel n) <= k.
Proof.
  revert n k. induction fuel as [| fuel IH]; intros n k Hk Hn; cbn [digits].
  - rewrite len_nil. lia.
  - destruct (Z.ltb_spec n 10) as [Hlt | Hge].
    + rewrite len_cons, len_nil. lia.
    + rewrite len_app, len_cons, len_nil.
      assert (Hk2 : 2 <= k).
      { destruct (Z.eq_dec k 1) as [-> | ?]; [| lia]. change (10 ^ 1) with 10 in Hn. lia. }
      assert (Hpow : 10 ^ k = 10 * 10 ^ (k - 1)).
      { rewrite <- Z.pow_succ_r by lia. f_equal. lia. }
      assert (Hdiv : 0 <= n / 10 < 10 ^ (k - 1)).
      { split; [apply Z.div_pos; lia | apply Z.div_lt_upper_bound; lia]. }
      specialize (IH (n / 10) (k - 1) ltac:(lia) Hdiv). lia.
Qed.

(** With enough fuel, a number from [10^k] on has more than [k] digits. *)
Lemma digits_len_lower (fuel : nat) (n k : Z) :
  0 <= k -> 10 ^ k <= n -> n < 2 ^ Z.of_nat fuel -> k + 1 <= len (digits fuel n).
Proof.
  revert n k. induction fuel as [| fuel IH]; intros n k Hk Hn Hfuel.
  - change (2 ^ Z.of_nat 0) with 1 in Hfuel.
    pose proof (Z.pow_pos_nonneg 10 k ltac:(lia) Hk). lia.
  - cbn [digits]. rewrite Nat2Z.inj_succ, Z.pow_succ_r in Hfuel by lia.
    destruct (Z.ltb_spec n 10) as [Hlt | Hge].
    + rewrite len_cons, len_nil.
      destruct (Z.eq_dec k 0) as [-> | Hk0]; [lia |].
      assert (10 ^ 1 <= 10 ^ k) by (apply Z.pow_le_mono_r; lia).
      change (10 ^ 1) with 10 in *. lia.
    + rewrite len_app, len_cons, len_nil.
      destruct (Z.eq_dec k 0) as [-> | Hk0].
      { pose proof (len_nonneg (digits fuel (n / 10))). lia. }
      assert (Hpow : 10 ^ k = 10 * 10 ^ (k - 1)).
      { rewrite <- Z.pow_succ_r by lia. f_equal. lia. }
      assert (Hlow : 10 ^ (k - 1) <= n / 10)
        by (apply Z.div_le_lower_bound; lia).
      assert (Hup : n / 10 < 2 ^ Z.of_nat fuel)
        by (apply Z.div_lt_upper_bound; lia).
      specialize (IH (n / 10) (k - 1) ltac:(lia) Hlow Hup). lia.
Qed.

Lemma ofNat_fuel (a : Z) : 0 < a -> a < 2 ^ Z.of_nat (S (Z.to_nat (Z.log2 a))).
Proof.
  intros Ha. pose proof (Z.log2_nonneg a). pose proof (Z.log2_spec a Ha) as [_ Hs].
  rewrite Nat2Z.inj_succ, Z2Nat.id by assumption. exact Hs.
Qed.

Lemma pow10_ge_succ (d : Z) : 0 <= d -> d + 1 <= 10 ^ d.
Proof.
  intros Hd. pattern d. apply natlike_ind; [reflexivity | | assumption].
  intros x Hx IH. rewrite Z.pow_succ_r by assumption. lia.
Qed.

(** Adding [d] to a positive number adds at most [d] digits. *)
Lemma len_ofNat_add (a d : Z) :
  1 <= a -> 0 <= d -> len (ofNat (a + d)) <= len (ofNat a) + d.
Proof.
  intros Ha Hd. set (k := len (ofNat a)).
  assert (Hk : 1 <= k).
  { subst k. unfold ofNat.
    apply (digits_len_lower _ a 0); [lia | change (10 ^ 0) with 1; lia |].
    apply ofNat_fuel; lia. }
  assert (Hlt : a < 10 ^ k).
  { destruct (Z.lt_ge_cases a (10 ^ k)) as [| Hge]; [assumption | exfalso].
    pose proof (digits_len_lower (S (Z.to_nat (Z.log2 a))) a k ltac:(lia) Hge
                  (ofNat_fuel a ltac:(lia))) as Hl.
    fold (ofNat a) in Hl. fold k in Hl. lia. }
  unfold ofNat at 1. apply digits_len_upper; [lia |].
  rewrite Z.pow_add_r by lia.
  pose proof (pow10_ge_succ d Hd). nia.
Qed.

(** ** Escapes *)

Lemma plainUnit_digit (d : Z) : 0 <= d < 10 -> plainUnit (Z.to_N (48 + d)).
Proof.
  intros Hd.
  assert (Hc : d = 0 \/ d = 1 \/ d = 2 \/ d = 3 \/ d = 4 \/ d = 5 \/ d = 6 \/
               d = 7 \/ d = 8 \/ d = 9) by lia.
  repeat (destruct Hc as [-> | Hc]); try subst d; split; reflexivity.
Qed.

Lemma digits_plain (fuel : nat) (n : Z) :
  0 <= n -> Forall plainUnit (digits fuel n).
Proof.
  revert n. induction fuel as [| fuel IH]; intros n Hn; cbn [digits]; [constructor |].
  destruct (Z.ltb_spec n 10).
  - constructor; [apply plainUnit_digit; lia | constructor].
  - apply Forall_app. split.
    + apply IH. apply Z.div_pos; lia.
    + constructor; [| constructor]. apply plainUnit_digit.
      apply Z.mod_pos_bound. lia.
Qed.

Lemma marker_plain (k : Z) : 0 <= k -> Forall plainUnit (marker k).
Proof.
  intros Hk. unfold marker. rewrite ofInt_nonneg by assumption.
  constructor; [split; reflexivity |].
  apply Forall_app. split; [repeat constructor |].
  apply Forall_app. split; [apply digits_plain; assumption | repeat constructor].
Qed.

Lemma isHigh_surrogate (c : char16) : isHigh c = true -> isSurrogate c = true.
Proof.
  unfold isHigh, isSurrogate. rewrite !andb_true_iff, !N.leb_le. lia.
Qed.

Lemma isLow_surrogate (c : char16) : isLow c = true -> isSurrogate c = true.
Proof.
  unfold isLow, isSurrogate. rewrite !andb_true_iff, !N.leb_le. lia.
Qed.

Lemma plainUnit_not_high (c : char16) : plainUnit c -> isHigh c = false.
Proof.
  intros [_ Hc]. destruct (isHigh c) eqn:E; [| reflexivity].
  apply isHigh_surrogate in E. congruence.
Qed.

Lemma plainUnit_not_low (c : char16) : plainUnit c -> isLow c = false.
Proof.
  intros [_ Hc]. destruct (isLow c) eqn:E; [| reflexivity].
  apply isLow_surrogate in E. congruence.
Qed.

Lemma escapeUnit_len (c : char16) : 1 <= len (escapeUnit c).
Proof.
  unfold escapeUnit.
  repeat match goal with |- context [if ?b then _ else _] => destruct b end;
    cbv; discriminate.
Qed.

Lemma escape_cons2 (c d : char16) (tl : jstring) :
  escape (c :: d :: tl)
  = if isHigh c && isLow d then c :: d :: escape tl
    else escapeUnit c ++ escape (d :: tl).
Proof. reflexivity. Qed.

(** Every code unit takes at least one character of the escape. *)
Lemma escape_len_ge (s : jstring) : len s <= len (escape s).
Proof.
  assert (H : forall n s, (List.length s <= n)%nat -> len s <= len (escape s)).
  { induction n as [| n IH]; intros [| c [| d tl]] Hlen; cbn [List.length] in Hlen;
      try lia; try reflexivity.
    - cbn [escape]. rewrite len_cons, len_nil. pose proof (escapeUnit_len c). lia.
    - rewrite escape_cons2. destruct (isHigh c && isLow d).
      + rewrite !len_cons. specialize (IH tl ltac:(lia)). lia.
      + rewrite len_app, (len_cons c). pose proof (escapeUnit_len c).
        specialize (IH (d :: tl) ltac:(cbn [List.length]; lia)). lia. }
  apply (H (List.length s)). lia.
Qed.

(** Plain text is its own escape. *)
Lemma escape_plain (m : jstring) : Forall plainUnit m -> escape m = m.
Proof.
  induction 1 as [| c tl Hc Htl IH]; [reflexivity |].
  destruct tl as [| d tl'].
  - cbn [escape]. exact (proj1 Hc).
  - rewrite escape_cons2, (plainUnit_not_high c Hc). cbn [andb].
    rewrite IH, (proj1 Hc). reflexivity.
Qed.

(** Plain text appended to a string is escaped on its own: its first
    unit cannot complete a surrogate pair. *)
Lemma escape_app_plain (a m : jstring) :
  Forall plainUnit m -> escape (a ++ m) = escape a ++ m.
Proof.
  intros Hm.
  assert (H : forall n a, (List.length a <= n)%nat -> escape (a ++ m) = escape a ++ m).
  { induction n as [| n IH]; intros [| c [| d tl]] Hlen; cbn [List.length] in Hlen;
      try lia; try (now apply escape_plain).
    - cbn [app]. destruct m as [| e m'].
      + now rewrite app_nil_r.
      + rewrite escape_cons2.
        rewrite (plainUnit_not_low e (Forall_inv Hm)), andb_false_r.
        now rewrite (escape_plain (e :: m') Hm).
    - cbn [app]. rewrite !escape_cons2. destruct (isHigh c && isLow d).
      + cbn [app]. now rewrite (IH tl ltac:(lia)).
      + rewrite <- app_assoc. f_equal.
        apply (IH (d :: tl)). cbn [List.length]. lia. }
  apply (H (List.length a)). lia.
Qed.

(** A cut outside a surrogate pair divides the escape. *)
Lemma escape_split (k : nat) (s : jstring) :
  splitsAt k s = false -> escape s = escape (firstn k s) ++ escape (skipn k s).
Proof.
  assert (H : forall n s k, (List.length s <= n)%nat -> splitsAt k s = false ->
                escape s = escape (firstn k s) ++ escape (skipn k s)).
  { clear k s. induction n as [| n IH]; intros [| c [| d tl]] k Hlen Hk;
      cbn [List.length] in Hlen; try lia;
      try (now rewrite firstn_nil, skipn_nil).
    - destruct k as [| k]; [reflexivity |].
      cbn [firstn skipn]. now rewrite firstn_nil, skipn_nil, app_nil_r.
    - destruct k as [| [| k]]; [reflexivity | |].
      + cbn [splitsAt skipn] in Hk. cbn [firstn skipn].
        rewrite escape_cons2, Hk. reflexivity.
      + cbn [firstn skipn]. rewrite !escape_cons2.
        destruct (isHigh c && isLow d).
        * cbn [app]. do 2 f_equal. apply IH; [lia |].
          destruct k as [| k]; [reflexivity | exact Hk].
        * rewrite <- app_assoc. f_equal.
          apply (IH (d :: tl) (S k)); [cbn [List.length]; lia | exact Hk]. }
  apply (H (List.length s)). lia.
Qed.

(** A cut that splits no pair of the string splits none of a prefix. *)
Lemma splitsAt_firstn (k m : nat) (s : jstring) :
  splitsAt k s = false -> splitsAt k (firstn m s) = false.
Proof.
  destruct k as [| j]; [reflexivity |]. cbn [splitsAt].
  rewrite skipn_firstn_comm.
  destruct (skipn j s) as [| c [| d r]]; destruct (m - j)%nat as [| [| i]];
    cbn [firstn]; auto.
Qed.

(** From 13 elided units on, the marker is no longer than what it
    replaces. *)
Lemma marker_le (d : Z) : 13 <= d -> len (marker d) <= d.
Proof.
  intros Hd. rewrite len_marker, ofInt_nonneg by lia.
  pose proof (len_ofNat_add 13 (d - 13) ltac:(lia) ltac:(lia)) as H.
  replace (13 + (d - 13)) with d in H by lia.
  change (len (ofNat 13)) with 2 in H. lia.
Qed.

(** The serialised length of a cut string. *)
Lemma len_quote_cut (p : jstring) (k : Z) :
  0 <= k -> len (quote (p ++ marker k)) = 2 + len (escape p) + len (marker k).
Proof.
  intros Hk. unfold quote.
  rewrite escape_app_plain by now apply marker_plain.
  rewrite len_cons, !len_app, len_cons, len_nil. lia.
Qed.

(** ** Size against preview length *)

Lemma joinComma_cons2 (p q : jstring) (r : list jstring) :
  joinComma (p :: q :: r) = p ++ 44%N :: joinComma (q :: r).
Proof. reflexivity. Qed.

Lemma len_joinComma_mono {A} (f g : A -> jstring) (xs : list A) :
  Forall (fun x => len (f x) <= len (g x)) xs ->
  len (joinComma (List.map f xs)) <= len (joinComma (List.map g xs)).
Proof.
  induction 1 as [| x xs Hx Hxs IH]; [reflexivity |].
  destruct xs as [| y xs]; [exact Hx |].
  cbn [List.map] in *. rewrite !joinComma_cons2, !len_app, !len_cons. lia.
Qed.

Lemma jsonSize_str (s : jstring) : jsonSize (JStr s) = len (quote s).
Proof. reflexivity. Qed.

Lemma jsonSize_arr (xs : list json) :
  jsonSize (JArr xs) = 2 + len (joinComma (List.map stringify xs)).
Proof.
  unfold jsonSize. cbn [stringify]. len_arith.
Qed.

Lemma jsonSize_obj (kvs : list (jstring * json)) :
  jsonSize (JObj kvs)
  = 2 + len (joinComma
               (List.map (fun kv => quote (fst kv) ++ 58%N :: stringify (snd kv)) kvs)).
Proof.
  unfold jsonSize. cbn [stringify]. len_arith.
Qed.

Lemma len_firstn_Z {A} (l : list A) (n : Z) :
  0 <= n <= len l -> len (firstn (Z.to_nat n) l) = n.
Proof. intros Hn. unfold len in *. rewrite length_firstn. lia. Qed.

Lemma len_skipn_Z {A} (l : list A) (n : Z) :
  0 <= n <= len l -> len (skipn (Z.to_nat n) l) = len l - n.
Proof. intros Hn. unfold len in *. rewrite length_skipn. lia. Qed.

(** A string that both lengths cut, the shorter one outside a surrogate
    pair: the shorter preview gives the shorter text. *)
Lemma cut_both_size_mono (s : jstring) (n' n : Z) :
  1 <= n' -> n' <= n -> n < len s -> splitsAt (Z.to_nat n') s = false ->
  jsonSize (truncateStrings (JStr s) n') <= jsonSize (truncateStrings (JStr s) n).
Proof.
  intros H1 Hle Hlong Hsplit.
  rewrite !truncateStrings_str_long by lia.
  rewrite !jsonSize_str, !len_quote_cut by lia.
  rewrite (escape_split (Z.to_nat n') (firstn (Z.to_nat n) s))
    by now apply splitsAt_firstn.
  rewrite firstn_firstn, Nat.min_l by lia.
  pose proof (escape_len_ge (skipn (Z.to_nat n') (firstn (Z.to_nat n) s))) as Hmid.
  rewrite len_skipn_Z in Hmid by (rewrite len_firstn_Z; lia).
  rewrite len_firstn_Z in Hmid by lia.
  rewrite !len_marker, !ofInt_nonneg by lia.
  pose proof (len_ofNat_add (len s - n) (n - n') ltac:(lia) ltac:(lia)) as Hdig.
  replace (len s - n + (n - n')) with (len s - n') in Hdig by lia.
  rewrite len_app. lia.
Qed.

(** A string that only the shorter length cuts, outside a surrogate
    pair: the two sizes differ by the marker against the escape of what
    it replaces. *)
Lemma cut_one_size (s : jstring) (n' n : Z) :
  1 <= n' -> n' < len s -> len s <= n -> splitsAt (Z.to_nat n') s = false ->
  jsonSize (truncateStrings (JStr s) n') + len (escape (skipn (Z.to_nat n') s))
  = jsonSize (truncateStrings (JStr s) n) + len (marker (len s - n')).
Proof.
  intros H1 Hcut Hkeep Hsplit.
  rewrite truncateStrings_str_long, truncateStrings_str_short by lia.
  rewrite !jsonSize_str, len_quote_cut by lia.
  unfold quote at 1. rewrite (escape_split (Z.to_nat n') s Hsplit).
  rewrite len_cons, !len_app, len_cons, len_nil. lia.
Qed.

Lemma cut_str_size_mono (s : jstring) (n' n : Z) :
  1 <= n' -> n' <= n -> cutShrinks n' n s = true ->
  jsonSize (truncateStrings (JStr s) n') <= jsonSize (truncateStrings (JStr s) n).
Proof.
  intros H1 Hle Hs. unfold cutShrinks in Hs.
  destruct (Z.leb_spec (len s) n') as [Hshort | Hcut].
  { rewrite !truncateStrings_str_short by lia. reflexivity. }
  cbn [orb] in Hs. apply andb_true_iff in Hs as [Hsplit Hs].
  apply negb_true_iff in Hsplit.
  destruct (Z.ltb_spec n (len s)) as [Hlong | Hkeep].
  - now apply cut_both_size_mono.
  - cbn [orb] in Hs. apply Z.leb_le in Hs.
    pose proof (cut_one_size s n' n H1 Hcut Hkeep Hsplit). lia.
Qed.

(** The condition on a string that only the shorter length cuts is
    exact: when the marker is longer than the escape of what it replaces,
    the shorter preview gives the longer text. *)
Lemma cut_str_size_grows (s : jstring) (n' n : Z) :
  1 <= n' -> n' < len s -> len s <= n -> splitsAt (Z.to_nat n') s = false ->
  len (escape (skipn (Z.to_nat n') s)) < len (marker (len s - n')) ->
  jsonSize (truncateStrings (JStr s) n) < jsonSize (truncateStrings (JStr s) n').
Proof.
  intros H1 Hcut Hkeep Hsplit Hm.
  pose proof (cut_one_size s n' n H1 Hcut Hkeep Hsplit). lia.
Qed.

Lemma cutShrinks_sufficient (s : jstring) (n' n : Z) :
  0 <= n' ->
  len s <= n' \/
  (splitsAt (Z.to_nat n') s = false /\ (n < len s \/ n' + 13 <= len s)) ->
  cutShrinks n' n s = true.
Proof.
  intros H0 [Hshort | [Hsplit Hlen]]; unfold cutShrinks.
  - apply Z.leb_le in Hshort. now rewrite Hshort.
  - rewrite Hsplit. cbn [negb andb]. apply orb_true_iff. right.
    destruct Hlen as [Hlong | Hfar].
    + apply Z.ltb_lt in Hlong. now rewrite Hlong.
    + apply orb_true_iff. right. apply Z.leb_le.
      pose proof (marker_le (len s - n') ltac:(lia)) as Hm.
      pose proof (escape_len_ge (skipn (Z.to_nat n') s)) as He.
      rewrite len_skipn_Z in He by lia. lia.
Qed.

(** The sizes compare as soon as the leaves that the Truncator reaches
    do. *)
Lemma truncateStrings_size_mono_reached (v : json) (n' n : Z) :
  1 <= n' -> n' <= n ->
  reachedStrings (cutShrinks n' n) v = true ->
  jsonSize (truncateStrings v n') <= jsonSize (truncateStrings v n).
Proof.
  intros H1 Hle.
  induction v as [| b | k | s | xs IH | kvs IH] using json_nested_ind; intros Hv.
  - now rewrite !(truncateStrings_atom JNull _ I).
  - now rewrite !(truncateStrings_atom (JBool b) _ I).
  - now rewrite !(truncateStrings_atom (JNum k) _ I).
  - cbn [reachedStrings] in Hv. now apply cut_str_size_mono.
  - apply reachedStrings_arr_Forall in Hv.
    rewrite !truncateStrings_arr, !jsonSize_arr, !map_map by lia.
    apply Z.add_le_mono_l, len_joinComma_mono.
    rewrite Forall_forall in *. intros x Hx. apply (IH x Hx), (Hv x Hx).
  - apply reachedStrings_obj_Forall in Hv.
    rewrite !truncateStrings_obj, !jsonSize_obj, !map_map by lia.
    apply Z.add_le_mono_l, len_joinComma_mono.
    rewrite Forall_forall in *. intros kv Hkv. cbn [fst snd].
    rewrite !len_app, !len_cons.
    assert (Hin : In kv kvs) by now apply In_assigned in Hkv.
    pose proof (IH kv Hin (Hv kv Hkv)) as Hkv'. unfold jsonSize in Hkv'. lia.
Qed.

(** C5, as the code has it.  For preview lengths [1 <= n' <= n], the
    value truncated at [n'] serialises to at most as many characters as
    the value truncated at [n] whenever each string leaf is one that [n']
    does not cut, or one that [n'] cuts outside a surrogate pair and that
    either [n] cuts too or loses to [n'] a part whose escaped text is at
    least as long as the marker.  The last is the case for every leaf of
    at least [n' + 13] code units. *)
Theorem truncateStrings_size_monotone (v : json) (n' n : Z) :
  1 <= n' -> n' <= n ->
  (allStrings (cutShrinks n' n) v = true ->
   jsonSize (truncateStrings v n') <= jsonSize (truncateStrings v n)) /\
  (forall s,
     len s <= n' \/
     (splitsAt (Z.to_nat n') s = false /\ (n < len s \/ n' + 13 <= len s)) ->
     cutShrinks n' n s = true).
Proof.
  intros H1 Hle. split; [| intros s; apply cutShrinks_sufficient; lia].
  intros Hv. apply truncateStrings_size_mono_reached; [assumption | assumption |].
  now apply allStrings_reached.
Qed.

Lemma truncateStrings_size_monotone_witness :
  jsonSize (truncateStrings
              (JObj [(u16 "id", JStr (u16 "r1"));
                     (u16 "content", JStr (repeat 120%N (Z.to_nat 5000)))]) 150)
  <= jsonSize (truncateStrings
              (JObj [(u16 "id", JStr (u16 "r1"));
                     (u16 "content", JStr (repeat 120%N (Z.to_nat 5000)))]) 10000).
Proof.
  apply (proj1 (truncateStrings_size_monotone _ 150 10000 ltac:(lia) ltac:(lia))).
  vm_compute. reflexivity.
Defined.

(** C5, as the specification states it, fails in three ways: the length 0
    is the no-op sentinel, so it gives the largest result, not the
    smallest; a string cut by [n'] but not by [n] grows by its marker; and
    a cut between the two halves of a surrogate pair leaves a lone
    surrogate, which is serialised as six characters. *)
Lemma truncateStrings_size_not_monotone :
  (10 <= 11 /\
   jsonSize (truncateStrings (JStr (u16 "abcdefghijk")) 10) = 24 /\
   jsonSize (truncateStrings (JStr (u16 "abcdefghijk")) 11) = 13) /\
  (0 <= 5 /\
   jsonSize (truncateStrings (JStr (repeat 120%N 30)) 0) = 32 /\
   jsonSize (truncateStrings (JStr (repeat 120%N 30)) 5) = 20) /\
  (1 <= 2 /\
   jsonSize (truncateStrings (JStr str_emoji) 1) = 20 /\
   jsonSize (truncateStrings (JStr str_emoji) 2) = 16).
Proof. repeat split; try lia; vm_compute; reflexivity. Qed.

(** ** When a second pass changes nothing *)

Lemma valueOf_snoc (s : jstring) (c : char16) :
  valueOf (s ++ [c]) = 10 * valueOf s + (Z.of_N c - 48).
Proof. unfold valueOf. now rewrite fold_left_app. Qed.

(** With enough fuel the digits spell the number. *)
Lemma digits_value (fuel : nat) (n : Z) :
  0 <= n < 2 ^ Z.of_nat fuel -> valueOf (digits fuel n) = n.
Proof.
  revert n. induction fuel as [| fuel IH]; intros n Hn.
  - change (2 ^ Z.of_nat 0) with 1 in Hn. replace n with 0 by lia. reflexivity.
  - cbn [digits]. rewrite Nat2Z.inj_succ, Z.pow_succ_r in Hn by lia.
    destruct (Z.ltb_spec n 10).
    + unfold valueOf; cbn [fold_left]. rewrite Z2N.id by lia. lia.
    + rewrite valueOf_snoc, IH.
      * rewrite Z2N.id by (pose proof (Z.mod_pos_bound n 10); lia).
        pose proof (Z.div_mod n 10). lia.
      * split; [apply Z.div_pos; lia | apply Z.div_lt_upper_bound; lia].
Qed.

Lemma ofNat_value (n : Z) : 0 <= n -> valueOf (ofNat n) = n.
Proof.
  intros Hn. unfold ofNat. apply digits_value. split; [assumption |].
  destruct (Z.eq_dec n 0) as [-> | ?]; [reflexivity | apply ofNat_fuel; lia].
Qed.

Lemma marker_inj (a b : Z) : 0 <= a -> 0 <= b -> marker a = marker b -> a = b.
Proof.
  intros Ha Hb. unfold marker. rewrite !ofInt_nonneg by assumption.
  intros E. apply (app_inv_head (8230%N :: u16 " (+")), app_inv_tail in E.
  now rewrite <- (ofNat_value a), <- (ofNat_value b), E.
Qed.

(** The only count that the marker spells with as many characters as it
    counts is 13. *)
Lemma marker_self_count (x : Z) : 1 <= x -> len (marker x) = x -> x = 13.
Proof.
  intros Hx. rewrite len_marker, ofInt_nonneg by lia.
  set (k := len (ofNat x)). intros Hk.
  assert (Hlow : forall j, 0 <= j -> 10 ^ j <= x -> j + 1 <= k).
  { intros j Hj Hp. apply digits_len_lower; [assumption | assumption |].
    apply ofNat_fuel; lia. }
  assert (Hup : forall j, 1 <= j -> x < 10 ^ j -> k <= j).
  { intros j Hj Hp. apply digits_len_upper; [assumption | lia]. }
  pose proof (Hlow 0 ltac:(lia) ltac:(change (10 ^ 0) with 1; lia)) as Hk1.
  destruct (Z.eq_dec k 1) as [E1 | N1].
  { pose proof (Hlow 1 ltac:(lia) ltac:(change (10 ^ 1) with 10; lia)). lia. }
  destruct (Z.eq_dec k 2) as [E2 | N2]; [lia | exfalso].
  assert (Hge : 10 ^ (k - 1) <= x).
  { destruct (Z.lt_ge_cases x (10 ^ (k - 1))) as [Hlt | ?]; [| assumption].
    pose proof (Hup (k - 1) ltac:(lia) Hlt). lia. }
  assert (Hpow : 10 ^ (k - 1) = 10 * 10 ^ (k - 2)).
  { rewrite <- Z.pow_succ_r by lia. f_equal. lia. }
  pose proof (pow10_ge_succ (k - 2) ltac:(lia)). lia.
Qed.

(** A cut string survives a second pass only if exactly 13 units were
    elided. *)
Lemma truncateStrings_str_idem_inv (s : jstring) (n : Z) :
  0 < n -> n < len s ->
  truncateStrings (truncateStrings (JStr s) n) n = truncateStrings (JStr s) n ->
  len s = n + 13.
Proof.
  intros Hn Hs.
  rewrite truncateStrings_twice_str, truncateStrings_str_long by assumption.
  intros E. injection E as E. apply app_inv_head in E.
  pose proof (len_marker (len s - n)) as Hm.
  pose proof (len_nonneg (ofInt (len s - n))).
  apply marker_inj in E; [| lia | lia].
  pose proof (marker_self_count (len s - n) ltac:(lia) E). lia.
Qed.

Lemma truncateStrings_idem_inv (v : json) (n : Z) :
  0 < n ->
  truncateStrings (truncateStrings v n) n = truncateStrings v n ->
  reachedStrings (stableLeaf n) v = true.
Proof.
  intros Hn.
  induction v as [| b | k | s | xs IH | kvs IH] using json_nested_ind;
    try reflexivity; intros Hv.
  - cbn [reachedStrings]. unfold stableLeaf.
    destruct (Z.leb_spec (len s) n) as [| Hlong]; [reflexivity |].
    apply Z.eqb_eq. now apply truncateStrings_str_idem_inv.
  - rewrite (truncateStrings_arr xs) in Hv by assumption.
    rewrite truncateStrings_arr, map_map in Hv by assumption.
    injection Hv as Hv. rewrite map_ext_in_iff in Hv.
    cbn [reachedStrings]. apply forallb_forall. intros x Hx.
    rewrite Forall_forall in IH. apply (IH x Hx), (Hv x Hx).
  - rewrite truncateStrings_obj_twice, truncateStrings_obj in Hv by assumption.
    injection Hv as Hv. rewrite map_ext_in_iff in Hv.
    cbn [reachedStrings]. apply forallb_forall. intros kv Hkv.
    destruct (eqb (fst kv) k_proto) eqn:Hk; [reflexivity |]. cbn [orb].
    rewrite Forall_forall in IH. apply (IH kv Hkv).
    assert (Hin : In kv (assigned kvs)) by now apply In_assigned.
    specialize (Hv kv Hin). cbn [fst snd] in Hv. now injection Hv.
Qed.

(** C4, as the code has it.  For a value in which no object has a
    property named [__proto__], a second pass at the same length changes
    nothing exactly when the preview length is the no-op sentinel
    ([n <= 0]) or every string leaf is stable at [n]: no longer than [n],
    or exactly [n + 13] long (the one case in which the marker of the
    second pass spells the count of the first); for any value that
    condition is sufficient.  A string of any length [L > n] is cut again
    by the second pass, which keeps the same [n] code units and puts the
    length of the first marker where the count was; unless [L = n + 13]
    the result differs from that of the first pass. *)
Theorem truncateStrings_idempotent_iff (v : json) (n : Z) :
  (protoFree v = true ->
   (truncateStrings (truncateStrings v n) n = truncateStrings v n <->
    (n <= 0 \/ allStrings (stableLeaf n) v = true))) /\
  (n <= 0 \/ allStrings (stableLeaf n) v = true ->
   truncateStrings (truncateStrings v n) n = truncateStrings v n) /\
  (forall s, 0 < n -> n < len s ->
     truncateStrings (truncateStrings (JStr s) n) n
     = JStr (firstn (Z.to_nat n) s ++ marker (len (marker (len s - n)))) /\
     (len s <> n + 13 ->
      truncateStrings (truncateStrings (JStr s) n) n <> truncateStrings (JStr s) n)).
Proof.
  assert (Hsuff : n <= 0 \/ allStrings (stableLeaf n) v = true ->
                  truncateStrings (truncateStrings v n) n = truncateStrings v n).
  { intros [Hn | Hv].
    - now rewrite !truncateStrings_nonpos.
    - destruct (Z.leb_spec n 0) as [Hn | Hn].
      + now rewrite !truncateStrings_nonpos.
      + now apply truncateStrings_idem_stable, allStrings_reached. }
  split; [| split; [exact Hsuff |]].
  - intros Hp. split; [| exact Hsuff].
    intros H. destruct (Z.leb_spec n 0) as [Hn | Hn]; [now left | right].
    apply reachedStrings_all; [exact Hp |].
    now apply truncateStrings_idem_inv.
  - intros s Hn Hs. split; [now apply truncateStrings_twice_str |].
    intros Hlen E. apply Hlen. now apply truncateStrings_str_idem_inv.
Qed.

Lemma truncateStrings_idempotent_iff_witness :
  truncateStrings
    (truncateStrings
       (JObj [(u16 "k", JStr (u16 "abcdefghijklmnopqr")); (u16 "n", JStr (u16 "hi"))]) 5) 5
  = truncateStrings
      (JObj [(u16 "k", JStr (u16 "abcdefghijklmnopqr")); (u16 "n", JStr (u16 "hi"))]) 5.
Proof.
  apply (proj2 (proj1 (truncateStrings_idempotent_iff
                         (JObj [(u16 "k", JStr (u16 "abcdefghijklmnopqr"));
                                (u16 "n", JStr (u16 "hi"))]) 5) eq_refl)).
  right. vm_compute. reflexivity.
Defined.

(** C4, as the specification states it, fails: the marker of a cut string
    makes the result longer than [n], so the second pass cuts it again and
    counts the marker's own characters. *)
Lemma truncateStrings_not_idempotent :
  truncateStrings (JStr (u16 "abcdefghij")) 5 =
    JStr (u16 "abcde" ++ 8230%N :: u16 " (+5 chars)") /\
  truncateStrings (truncateStrings (JStr (u16 "abcdefghij")) 5) 5 =
    JStr (u16 "abcde" ++ 8230%N :: u16 " (+12 chars)") /\
  truncateStrings (truncateStrings (JStr (u16 "abcdefghij")) 5) 5 <>
    truncateStrings (JStr (u16 "abcdefghij")) 5.
Proof.
  split; [vm_compute; reflexivity |].
  split; [vm_compute; reflexivity |].
  vm_compute. discriminate.
Qed.

(* ------------------------------------------------------------------ *)
(** * Further properties of the paginator *)

(** ** The shape of the packing *)

Lemma runCharCount_nonneg (run : json) : 0 <= runCharCount run.
Proof. apply len_nonneg. Qed.

Lemma pageChars_nonneg (page : list json) : 0 <= pageChars page.
Proof.
  induction page as [| run page IH]; cbn [pageChars fold_right]; [lia |].
  fold (pageChars page). pose proof (runCharCount_nonneg run). lia.
Qed.

Lemma pageChars_app (p q : list json) : pageChars (p ++ q) = pageChars p + pageChars q.
Proof.
  unfold pageChars. induction p as [| run p IH]; cbn [fold_right app]; lia.
Qed.

Lemma pageChars_one (run : json) : pageChars [run] = runCharCount run.
Proof. cbn [pageChars fold_right]. lia. Qed.

Lemma linked_snoc (m : Z) (pgs : list (list json)) (p q : list json) :
  linked m (pgs ++ [p]) ->
  m < pageChars p + runCharCount (hd JNull q) ->
  linked m ((pgs ++ [p]) ++ [q]).
Proof.
  intros Hl Hpq. induction pgs as [| a pgs IH].
  - cbn. auto.
  - destruct pgs as [| b pgs].
    + cbn [app linked] in Hl |- *. tauto.
    + cbn [app linked] in Hl |- *. destruct Hl as [Hab Hl].
      split; [exact Hab | apply IH; exact Hl].
Qed.

Lemma linked_last_hd (m : Z) (pgs : list (list json)) (c c' : list json) :
  linked m (pgs ++ [c]) -> hd JNull c' = hd JNull c -> linked m (pgs ++ [c']).
Proof.
  intros Hl Hhd. induction pgs as [| a pgs IH].
  - exact I.
  - destruct pgs as [| b pgs].
    + cbn [app linked] in Hl |- *. rewrite Hhd. exact Hl.
    + cbn [app linked] in Hl |- *. destruct Hl as [Hab Hl].
      split; [exact Hab | apply IH; exact Hl].
Qed.

Lemma linked_nth (m : Z) (pgs : list (list json)) (i : nat) (p q : list json) :
  linked m pgs ->
  nth_error pgs i = Some p -> nth_error pgs (S i) = Some q ->
  m < pageChars p + runCharCount (hd JNull q).
Proof.
  revert i. induction pgs as [| a pgs IH]; intros i Hl Hp Hq.
  - destruct i; discriminate.
  - destruct pgs as [| b pgs]; [destruct i as [| [| i]]; discriminate |].
    cbn [linked] in Hl. destruct Hl as [Hab Hl].
    destruct i as [| i].
    + cbn in Hp, Hq. injection Hp as <-. injection Hq as <-. exact Hab.
    + apply (IH i Hl); assumption.
Qed.

Section PackingInvariant.
Variable m : Z.

Lemma packInv_init : packInv m (mkPack [] [] 0).
Proof.
  constructor; cbn; auto.
  constructor; [| constructor]. intros H. cbn in H. lia.
Qed.

Lemma packInv_step (st : packState) (run : json) :
  packInv m st -> packInv m (packStep m st run).
Proof.
  intros [Hc Hf Hw Hl]. unfold packStep.
  destruct (Z.gtb_spec (currentChars st + runCharCount run) m) as [Hover | Hfit];
    destruct (Z.gtb_spec (len (currentPage st)) 0) as [Hpos | Hempty];
    cbn [andb pages currentPage currentChars].
  - (* the page is closed and the run opens the next one *)
    constructor; cbn [pages currentPage currentChars app].
    + rewrite pageChars_one. lia.
    + discriminate.
    + apply Forall_app. split; [exact Hw |].
      constructor; [| constructor]. intros H. cbn in H. lia.
    + apply linked_snoc; [exact Hl |]. cbn [hd]. lia.
  - (* first run of the first page, over budget on its own *)
    assert (Hnil : currentPage st = []).
    { destruct (currentPage st); [reflexivity |]. rewrite len_cons in Hempty.
      pose proof (len_nonneg l). lia. }
    rewrite Hnil in *. rewrite (Hf eq_refl) in *.
    constructor; cbn [pages currentPage currentChars app].
    + rewrite pageChars_one. cbn in Hc. lia.
    + discriminate.
    + constructor; [| constructor]. intros H. cbn in H. lia.
    + exact I.
  - (* the run joins a page that has room *)
    constructor; cbn [pages currentPage currentChars].
    + rewrite pageChars_app, pageChars_one. lia.
    + intros H. apply app_eq_nil in H. destruct H as [_ H]. discriminate.
    + apply Forall_app in Hw as [Hw _]. apply Forall_app. split; [exact Hw |].
      constructor; [| constructor]. intros _.
      rewrite pageChars_app, pageChars_one. lia.
    + apply (linked_last_hd m _ (currentPage st)); [exact Hl |].
      destruct (currentPage st); [cbn in Hpos; lia | reflexivity].
  - (* first run of the first page *)
    assert (Hnil : currentPage st = []).
    { destruct (currentPage st); [reflexivity |]. rewrite len_cons in Hempty.
      pose proof (len_nonneg l). lia. }
    rewrite Hnil in *. rewrite (Hf eq_refl) in *.
    constructor; cbn [pages currentPage currentChars app].
    + rewrite pageChars_one. cbn in Hc. lia.
    + discriminate.
    + constructor; [| constructor]. intros H. cbn in H. lia.
    + exact I.
Qed.

Lemma packInv_fold (runs : list json) (st : packState) :
  packInv m st -> packInv m (fold_left (packStep m) runs st).
Proof.
  revert st. induction runs as [| run runs IH]; intros st Hst; cbn [fold_left];
    [exact Hst | now apply IH, packInv_step].
Qed.

(** The pages are the closed pages followed by the page in progress. *)
Lemma buildPages_final (runs : list json) :
  runs <> [] ->
  let st := fold_left (packStep m) runs (mkPack [] [] 0) in
  buildPagesByCharBudget runs m = pages st ++ [currentPage st] /\ packInv m st.
Proof.
  intros Hne st.
  pose proof (packInv_fold runs _ packInv_init) as Hinv. fold st in Hinv.
  split; [| exact Hinv].
  unfold buildPagesByCharBudget. fold st.
  destruct (Z.eqb_spec (len runs) 0) as [E | _].
  { destruct runs; [congruence | rewrite len_cons in E].
    pose proof (len_nonneg runs). lia. }
  destruct (Z.gtb_spec (len (currentPage st)) 0) as [| Hempty]; [reflexivity |].
  exfalso.
  assert (Hnil : currentPage st = []).
  { destruct (currentPage st); [reflexivity |]. rewrite len_cons in Hempty.
    pose proof (len_nonneg l). lia. }
  pose proof (pack_flat m runs (mkPack [] [] 0)) as Hflat. fold st in Hflat.
  rewrite Hnil, (inv_first _ _ Hinv Hnil) in Hflat. cbn in Hflat. congruence.
Qed.

Lemma buildPages_flat (runs : list json) :
  List.concat (buildPagesByCharBudget runs m) = runs.
Proof.
  destruct runs as [| r runs]; [reflexivity |].
  destruct (buildPages_final (r :: runs) ltac:(discriminate)) as [-> _].
  pose proof (pack_flat m (r :: runs) (mkPack [] [] 0)) as Hflat.
  rewrite concat_app. cbn [List.concat]. rewrite app_nil_r.
  cbn [pages currentPage List.concat app] in Hflat. exact Hflat.
Qed.

End PackingInvariant.

(** X1. The number of pages is 0 exactly for an empty item list, and no
    page of the packing is empty. *)
Theorem buildPages_empty_iff (runsDict : list json) (maxCharsPerPage : Z) :
  (len (buildPagesByCharBudget runsDict maxCharsPerPage) = 0 <-> runsDict = []) /\
  Forall (fun page => 1 <= len page) (buildPagesByCharBudget runsDict maxCharsPerPage).
Proof.
  split.
  - split.
    + intros H0.
      destruct (buildPagesByCharBudget runsDict maxCharsPerPage) as [| p l] eqn:E.
      * pose proof (buildPages_flat maxCharsPerPage runsDict) as Hflat.
        rewrite E in Hflat. cbn in Hflat. congruence.
      * rewrite len_cons in H0. pose proof (len_nonneg l). lia.
    + intros ->. reflexivity.
  - pose proof (buildPages_nonempty maxCharsPerPage runsDict) as Hne.
    rewrite Forall_forall in *. intros p Hp. specialize (Hne p Hp).
    destruct p; [congruence |]. rewrite len_cons. pose proof (len_nonneg p). lia.
Qed.

(** X2. A page of the packing exceeds the budget only when it holds a
    single run: every page of two or more runs has a total of at most
    [maxCharsPerPage] characters. *)
Theorem buildPages_within_budget (runsDict : list json) (maxCharsPerPage : Z) :
  Forall (fun page => 2 <= len page -> pageChars page <= maxCharsPerPage)
    (buildPagesByCharBudget runsDict maxCharsPerPage).
Proof.
  destruct runsDict as [| r runs]; [constructor |].
  destruct (buildPages_final maxCharsPerPage (r :: runs) ltac:(discriminate))
    as [-> Hinv].
  exact (inv_within _ _ Hinv).
Qed.

(** X3. The packing is greedy: whenever a page has a successor, the first
    run of the successor would not have fitted on it. *)
Theorem buildPages_greedy (runsDict : list json) (maxCharsPerPage : Z)
    (i : nat) (page next : list json) :
  nth_error (buildPagesByCharBudget runsDict maxCharsPerPage) i = Some page ->
  nth_error (buildPagesByCharBudget runsDict maxCharsPerPage) (S i) = Some next ->
  exists run rest, next = run :: rest /\
    maxCharsPerPage < pageChars page + runCharCount run.
Proof.
  intros Hp Hn.
  assert (Hne : next <> []).
  { pose proof (buildPages_nonempty maxCharsPerPage runsDict) as H.
    rewrite Forall_forall in H. apply H. eapply nth_error_In; eassumption. }
  destruct next as [| run rest]; [congruence |].
  exists run, rest. split; [reflexivity |].
  destruct runsDict as [| r runs]; [destruct i; discriminate |].
  destruct (buildPages_final maxCharsPerPage (r :: runs) ltac:(discriminate))
    as [E Hinv].
  rewrite E in Hp, Hn.
  exact (linked_nth _ _ _ _ _ (inv_linked _ _ Hinv) Hp Hn).
Qed.

Lemma buildPages_greedy_witness :
  exists run rest, [run_b] = run :: rest /\ 12 < pageChars [run_a] + runCharCount run.
Proof.
  apply (buildPages_greedy [run_a; run_b; run_c] 12 0 [run_a] [run_b]);
    vm_compute; reflexivity.
Defined.

Lemma pack_all_fit (m : Z) (rest : list json) (st : packState) :
  pages st = [] ->
  currentChars st = pageChars (currentPage st) ->
  pageChars (currentPage st) + pageChars rest <= m ->
  fold_left (packStep m) rest st
  = mkPack [] (currentPage st ++ rest) (pageChars (currentPage st) + pageChars rest).
Proof.
  revert st. induction rest as [| run rest IH]; intros [pgs cur chars] Hp Hc Hfit;
    cbn [pages currentPage currentChars] in *; subst pgs chars.
  - cbn [fold_left pageChars fold_right]. rewrite app_nil_r. f_equal. lia.
  - cbn [fold_left]. change (pageChars (run :: rest)) with (runCharCount run + pageChars rest) in *.
    pose proof (pageChars_nonneg rest). pose proof (runCharCount_nonneg run).
    unfold packStep at 2. cbn [pages currentPage currentChars].
    destruct (Z.gtb_spec (pageChars cur + runCharCount run) m) as [Hover | _]; [lia |].
    cbn [andb pages currentPage currentChars].
    rewrite IH; cbn [pages currentPage currentChars]; try reflexivity.
    + rewrite <- app_assoc, pageChars_app, pageChars_one. cbn [app]. f_equal. lia.
    + rewrite pageChars_app, pageChars_one. reflexivity.
    + rewrite pageChars_app, pageChars_one. lia.
Qed.

(** X4. One page exactly when the list is not empty and is a single run
    or fits the budget as a whole; that page is then the whole list, in
    order. *)
Theorem buildPages_single_page (runsDict : list json) (maxCharsPerPage : Z) :
  (len (buildPagesByCharBudget runsDict maxCharsPerPage) = 1 ->
   buildPagesByCharBudget runsDict maxCharsPerPage = [runsDict]) /\
  (buildPagesByCharBudget runsDict maxCharsPerPage = [runsDict] <->
   runsDict <> [] /\ (len runsDict = 1 \/ pageChars runsDict <= maxCharsPerPage)).
Proof.
  split.
  - intros H1. pose proof (buildPages_flat maxCharsPerPage runsDict) as Hflat.
    destruct (buildPagesByCharBudget runsDict maxCharsPerPage) as [| p [| q l]].
    + discriminate.
    + cbn in Hflat. rewrite app_nil_r in Hflat. now subst p.
    + rewrite !len_cons in H1. pose proof (len_nonneg l). lia.
  - split.
    + intros E. split.
      * intros ->. discriminate.
      * assert (Hw : Forall (fun page => 2 <= len page -> pageChars page <= maxCharsPerPage)
                       (buildPagesByCharBudget runsDict maxCharsPerPage)).
        { destruct runsDict as [| r runs]; [constructor |].
          destruct (buildPages_final maxCharsPerPage (r :: runs) ltac:(discriminate))
            as [-> Hinv].
          exact (inv_within _ _ Hinv). }
        rewrite E in Hw. apply Forall_inv in Hw.
        destruct runsDict as [| a [| b l]]; [now left | now left | right].
        apply Hw. rewrite !len_cons. pose proof (len_nonneg l). lia.
    + intros [Hne [H1 | Hfit]].
      * destruct runsDict as [| a [| b l]]; [congruence | |].
        { unfold buildPagesByCharBudget. cbn [fold_left]. unfold packStep.
          cbn [pages currentPage currentChars].
          change (len (@nil json) >? 0) with false. rewrite andb_false_r.
          reflexivity. }
        rewrite !len_cons in H1. pose proof (len_nonneg l). lia.
      * destruct (buildPages_final maxCharsPerPage runsDict Hne) as [-> _].
        rewrite (pack_all_fit maxCharsPerPage runsDict (mkPack [] [] 0));
          cbn [pages currentPage currentChars app]; try reflexivity.
        cbn. lia.
Qed.

Lemma buildPages_single_page_witness :
  buildPagesByCharBudget smallRuns 100000 = [smallRuns].
Proof.
  apply (proj2 (proj2 (buildPages_single_page smallRuns 100000))).
  split; [discriminate | right; vm_compute; discriminate].
Defined.

(** ** What the entry points keep of the assembled page *)

(** X5. Whatever the outcome (the page as assembled, rebuilt with
    shortened strings, or degraded), the returned page echoes the
    requested page number and preview length and reports the number of
    pages of the packing. *)
Theorem paginate_echoes_metadata (items : list json) (p m pc : Z) :
  exists runsOut messagesOut,
    paginateRuns items p m pc = Some runsOut /\
    paginateMessages items p m pc = Some messagesOut /\
    obj_get k_page_number runsOut = Some (JNum p) /\
    obj_get k_page_number messagesOut = Some (JNum p) /\
    obj_get k_total_pages runsOut
      = Some (JNum (len (buildPagesByCharBudget (previewPass items pc) m))) /\
    obj_get k_total_pages messagesOut
      = Some (JNum (len (buildPagesByCharBudget (previewPass items pc) m))) /\
    obj_get k_preview_chars runsOut = Some (JNum pc) /\
    obj_get k_preview_chars messagesOut = Some (JNum pc).
Proof.
  rewrite paginateRuns_unfold, paginateMessages_unfold.
  set (sel := selectPage _ p). set (tp := len _).
  destruct (enforce_cases (runsPage sel p tp m pc) m k_runs sel eq_refl)
    as (rp & Hr & Hrc).
  destruct (enforce_cases (messagesPage sel p tp m pc) m k_result sel eq_refl)
    as (mp & Hm & Hmc).
  exists rp, mp. split; [exact Hr |]. split; [exact Hm |].
  assert (Hrf : obj_get k_page_number rp = Some (JNum p) /\
                obj_get k_total_pages rp = Some (JNum tp) /\
                obj_get k_preview_chars rp = Some (JNum pc)).
  { destruct Hrc as [[-> _] | [(t & _ & -> & _) | (-> & _)]];
      repeat split; reflexivity. }
  assert (Hmf : obj_get k_page_number mp = Some (JNum p) /\
                obj_get k_total_pages mp = Some (JNum tp) /\
                obj_get k_preview_chars mp = Some (JNum pc)).
  { destruct Hmc as [[-> _] | [(t & _ & -> & _) | (-> & _)]];
      repeat split; reflexivity. }
  tauto.
Qed.

(** X6. The items come back all or none: the returned item list is empty,
    or it is the selected page with every run passed through
    [truncateStrings] at one common length, so no run is dropped, added or
    moved. *)
Theorem paginate_items_all_or_none (items : list json) (p m pc : Z) :
  (exists page out,
     paginateRuns items p m pc = Some page /\
     obj_get k_runs page = Some (JArr out) /\
     (out = [] \/
      exists t, 0 <= t <= 100000 /\
        out = List.map (fun it => truncateStrings it t)
                (selectPage (buildPagesByCharBudget (previewPass items pc) m) p))) /\
  (exists page out,
     paginateMessages items p m pc = Some page /\
     obj_get k_result page = Some (JArr out) /\
     (out = [] \/
      exists t, 0 <= t <= 100000 /\
        out = List.map (fun it => truncateStrings it t)
                (selectPage (buildPagesByCharBudget (previewPass items pc) m) p))).
Proof.
  rewrite paginateRuns_unfold, paginateMessages_unfold.
  set (sel := selectPage _ p). set (tp := len _).
  split.
  - destruct (enforce_cases (runsPage sel p tp m pc) m k_runs sel eq_refl)
      as (page & Hrun & [[-> _] | [(t & Ht & -> & _) | (-> & _)]]).
    + exists (runsPage sel p tp m pc), sel. split; [exact Hrun |].
      split; [reflexivity | right]. exists 0. split; [lia |].
      symmetry. apply map_truncateStrings_nonpos. lia.
    + eexists _, _. split; [exact Hrun |]. split; [reflexivity | right].
      exists t. split; [lia | reflexivity].
    + eexists _, _. split; [exact Hrun |]. split; [reflexivity | now left].
  - destruct (enforce_cases (messagesPage sel p tp m pc) m k_result sel eq_refl)
      as (page & Hrun & [[-> _] | [(t & Ht & -> & _) | (-> & _)]]).
    + exists (messagesPage sel p tp m pc), sel. split; [exact Hrun |].
      split; [reflexivity | right]. exists 0. split; [lia |].
      symmetry. apply map_truncateStrings_nonpos. lia.
    + eexists _, _. split; [exact Hrun |]. split; [reflexivity | right].
      exists t. split; [lia | reflexivity].
    + eexists _, _. split; [exact Hrun |]. split; [reflexivity | now left].
Qed.

(** X7. Enforcing the budget a second time changes nothing: the page
    that [enforcePageCharBudget] returns is returned as it is when it is
    enforced again with the same budget. *)
Theorem enforce_stable (pageDict : obj) (m : Z) (key : jstring)
    (items : list json) (page : obj) :
  itemKeyOk key = true ->
  obj_get key pageDict = Some (JArr items) ->
  enforcePageCharBudget pageDict m key = Some page ->
  enforcePageCharBudget page m key = Some page.
Proof.
  intros Hkey Hget Hrun.
  destruct (enforce_cases pageDict m key items Hget)
    as (page' & Hrun' & Hcases).
  rewrite Hrun in Hrun'. injection Hrun' as <-.
  destruct Hcases as [[-> [Hfit | ->]] | [(t & _ & -> & Hfit & _) | (-> & _)]].
  - now apply enforce_when_fits.
  - now apply enforce_when_empty.
  - now apply enforce_when_fits.
  - apply enforce_when_empty. now apply degraded_items.
Qed.

Lemma enforce_stable_witness :
  enforcePageCharBudget (rebuild page_two_strings k_runs [run_two_strings] 2) 130 k_runs
  = Some (rebuild page_two_strings k_runs [run_two_strings] 2).
Proof.
  apply (enforce_stable page_two_strings 130 k_runs [run_two_strings]);
    vm_compute; reflexivity.
Defined.

(* ------------------------------------------------------------------ *)
(** * The helpers *)

(** ** Searching: [findInDict] *)

Lemma firstSome_some {A B} (f : A -> option B) (l : list A) (r : B) :
  firstSome (List.map f l) = Some r -> exists x, In x l /\ f x = Some r.
Proof.
  induction l as [| x l IH]; cbn [List.map firstSome]; [discriminate |].
  destruct (f x) as [y |] eqn:E.
  - intros [= <-]. exists x. split; [now left | exact E].
  - intros H. destruct (IH H) as (x' & Hin & Hx'). exists x'. split; [now right | exact Hx'].
Qed.

Lemma firstSome_none {A B} (f : A -> option B) (l : list A) :
  firstSome (List.map f l) = None <-> forall x, In x l -> f x = None.
Proof.
  induction l as [| x l IH]; cbn [List.map firstSome].
  - split; [intros _ x [] | reflexivity].
  - destruct (f x) as [y |] eqn:E.
    + split; [discriminate |]. intros H. specialize (H x (or_introl eq_refl)). congruence.
    + rewrite IH. split.
      * intros H x' [<- | Hin]; [exact E | now apply H].
      * intros H x' Hin. apply H. now right.
Qed.

Lemma firstSome_option_map {A B} (g : B -> B) (f : A -> option B) (l : list A) :
  firstSome (List.map (fun x => option_map g (f x)) l)
  = option_map g (firstSome (List.map f l)).
Proof.
  induction l as [| x l IH]; cbn [List.map firstSome]; [reflexivity |].
  destruct (f x); cbn [option_map]; [reflexivity | exact IH].
Qed.

Lemma obj_get_map_values (f : json -> json) (key : jstring) (o : obj) :
  obj_get key (List.map (fun kv => (fst kv, f (snd kv))) o)
  = option_map f (obj_get key o).
Proof.
  induction o as [| [k v] o IH]; cbn [List.map obj_get fst snd]; [reflexivity |].
  destruct (eqb key k); [reflexivity | exact IH].
Qed.

Lemma obj_get_In (key : jstring) (o : obj) (r : json) :
  obj_get key o = Some r -> exists k, In (k, r) o.
Proof.
  induction o as [| [k v] o IH]; cbn [obj_get]; [discriminate |].
  destruct (eqb key k).
  - intros [= <-]. exists k. now left.
  - intros H. destruct (IH H) as [k' Hk']. exists k'. now right.
Qed.

Lemma findInDict_walk (data : json) (key : jstring) :
  (forall r, findInDict data key = Some r -> storedUnder key data r) /\
  (findInDict data key = None <-> occurs key data = false).
Proof.
  induction data as [| b | n | s | xs IH | o IH] using json_nested_ind;
    try (split; [discriminate | split; reflexivity]).
  - rewrite Forall_forall in IH. cbn [findInDict occurs]. split.
    + intros r Hr. apply firstSome_some in Hr as (x & Hin & Hx).
      apply (stored_in_item key xs x r Hin). now apply (IH x Hin).
    + rewrite firstSome_none. split.
      * intros H. apply not_true_is_false. intros Hex.
        apply existsb_exists in Hex as (x & Hin & Hx).
        apply (IH x Hin) in H; [congruence | exact Hin].
      * intros H x Hin. apply (IH x Hin).
        destruct (occurs key x) eqn:E; [| reflexivity].
        assert (existsb (occurs key) xs = true)
          by (apply existsb_exists; now exists x).
        congruence.
  - rewrite Forall_forall in IH. cbn [findInDict occurs]. unfold obj_has.
    destruct (obj_get key o) as [v |] eqn:Hget.
    + split; [| split; discriminate].
      intros r [= <-]. now apply stored_here.
    + cbn [orb]. split.
      * intros r Hr. apply firstSome_some in Hr as ([k v] & Hin & Hx).
        apply (stored_in_prop key o k v r Hin). now apply (IH (k, v) Hin).
      * rewrite firstSome_none. split.
        -- intros H. apply not_true_is_false. intros Hex.
           apply existsb_exists in Hex as (kv & Hin & Hx).
           apply (IH kv Hin) in H; [congruence | exact Hin].
        -- intros H kv Hin. apply (IH kv Hin).
           destruct (occurs key (snd kv)) eqn:E; [| reflexivity].
           assert (existsb (fun kv => occurs key (snd kv)) o = true)
             by (apply existsb_exists; now exists kv).
           congruence.
Qed.

(** X8. For a key that objects do not inherit, [findInDict] never
    invents and never misses: what it returns is the value that some
    object inside the data stores under the key, and it returns
    [undefined] exactly when no object inside the data, at any depth, has
    the key. *)
Theorem findInDict_sound_complete (data : json) (key : jstring) :
  inherited key = false ->
  (forall r, findInDict data key = Some r -> storedUnder key data r) /\
  (findInDict data key = None <-> occurs key data = false).
Proof. intros _. exact (findInDict_walk data key). Qed.

Lemma findInDict_sound_complete_witness :
  findInDict
    (JObj [(u16 "items",
            JArr [JObj [(u16 "id", JNum 1)];
                  JObj [(u16 "id", JNum 2); (u16 "secret", JStr (u16 "yes"))]])])
    (u16 "missing") = None.
Proof.
  apply (proj2 (findInDict_sound_complete _ (u16 "missing") eq_refl)).
  reflexivity.
Defined.

(** X9. On data without a property named [__proto__], and for a key
    that objects do not inherit, searching commutes with truncation: the
    key found in a truncated value is the truncation of the key found in
    the value, so truncating a run never hides, reveals or reorders what
    [findInDict] finds. *)
Theorem findInDict_truncateStrings (data : json) (key : jstring) (n : Z) :
  inherited key = false ->
  protoFree data = true ->
  findInDict (truncateStrings data n) key
  = option_map (fun r => truncateStrings r n) (findInDict data key).
Proof.
  intros _.
  destruct (Z.leb_spec n 0) as [Hn | Hn].
  { intros _. rewrite truncateStrings_nonpos by assumption.
    destruct (findInDict data key); cbn [option_map]; [| reflexivity].
    now rewrite truncateStrings_nonpos. }
  induction data as [| b | k | s | xs IH | o IH] using json_nested_ind; intros Hp.
  - now rewrite (truncateStrings_atom JNull n I).
  - now rewrite (truncateStrings_atom (JBool b) n I).
  - now rewrite (truncateStrings_atom (JNum k) n I).
  - cbn [truncateStrings findInDict].
    destruct (n <=? 0); [reflexivity |]. now destruct (len s <=? n).
  - rewrite truncateStrings_arr by assumption. cbn [findInDict].
    rewrite map_map, <- firstSome_option_map. f_equal.
    apply protoFree_arr in Hp. rewrite Forall_forall in IH, Hp.
    apply map_ext_in. intros x Hx. now apply IH, Hp.
  - rewrite truncateStrings_obj_all by assumption. cbn [findInDict].
    rewrite (obj_get_map_values (fun r => truncateStrings r n)).
    destruct (obj_get key o); cbn [option_map]; [reflexivity |].
    rewrite map_map, <- firstSome_option_map. f_equal.
    apply protoFree_obj in Hp as [_ Hp]. rewrite Forall_forall in IH, Hp.
    apply map_ext_in. intros kv Hkv. cbn [snd]. now apply IH, Hp.
Qed.

Lemma findInDict_truncateStrings_witness :
  findInDict
    (truncateStrings
       (JObj [(u16 "outputs", JObj [(u16 "answer", JStr (u16 "abcdefghij"))])]) 4)
    (u16 "answer")
  = Some (JStr (u16 "abcd" ++ 8230%N :: u16 " (+6 chars)")).
Proof.
  rewrite findInDict_truncateStrings; reflexivity.
Defined.

(** ** Counting: [countFields], [countCharacters] *)

Lemma countFields_nonneg (v : json) : 0 <= countFields v.
Proof.
  induction v as [| b | n | s | xs IH | o IH] using json_nested_ind;
    cbn [countFields]; try lia.
  - induction IH; cbn [fold_right]; lia.
  - assert (0 <= fold_right (fun kv count => countFields (snd kv) + count) 0 o)
      by (induction IH; cbn [fold_right]; lia).
    pose proof (len_nonneg o). lia.
Qed.

Lemma countFields_arr_le (f : json -> json) (xs : list json) :
  Forall (fun x => countFields (f x) <= countFields x) xs ->
  countFields (JArr (List.map f xs)) <= countFields (JArr xs).
Proof.
  cbn [countFields]. induction 1; cbn [List.map fold_right]; lia.
Qed.

Lemma countFields_obj_le (f : json -> json) (o : obj) :
  Forall (fun kv => countFields (f (snd kv)) <= countFields (snd kv)) o ->
  countFields (JObj (List.map (fun kv => (fst kv, f (snd kv))) (assigned o)))
  <= countFields (JObj o).
Proof.
  cbn [countFields]. unfold assigned.
  induction 1 as [| kv o Hkv _ IH]; cbn [List.filter List.map fold_right]; [lia |].
  rewrite len_cons. pose proof (countFields_nonneg (snd kv)).
  destruct (eqb (fst kv) k_proto); cbn [negb List.map fold_right snd].
  - lia.
  - rewrite len_cons. lia.
Qed.

(** X10. Truncation never adds a field: a value has at most as many
    fields after [truncateStrings] as before, at any preview length, and
    exactly as many when no object inside it has a property named
    [__proto__] (the one entry that the rebuild of an object loses). *)
Theorem countFields_truncateStrings (v : json) (n : Z) :
  countFields (truncateStrings v n) <= countFields v /\
  (protoFree v = true -> countFields (truncateStrings v n) = countFields v).
Proof.
  destruct (Z.leb_spec n 0) as [Hn | Hn];
    [rewrite truncateStrings_nonpos by assumption; split; [lia | reflexivity] |].
  induction v as [| b | k | s | xs IH | o IH] using json_nested_ind.
  - now rewrite (truncateStrings_atom JNull n I).
  - now rewrite (truncateStrings_atom (JBool b) n I).
  - now rewrite (truncateStrings_atom (JNum k) n I).
  - cbn [truncateStrings]. destruct (n <=? 0); [split; [lia | reflexivity] |].
    destruct (len s <=? n); split; (reflexivity || intros _; reflexivity).
  - rewrite truncateStrings_arr by assumption. split.
    + apply (countFields_arr_le (fun x => truncateStrings x n)).
      eapply Forall_impl; [| exact IH]. intros x Hx. exact (proj1 Hx).
    + intros Hp. apply protoFree_arr in Hp. cbn [countFields].
      induction IH as [| x xs Hx _ IHxs]; cbn [List.map fold_right]; [reflexivity |].
      rewrite (proj2 Hx (Forall_inv Hp)), (IHxs (Forall_inv_tail Hp)). reflexivity.
  - split.
    + rewrite truncateStrings_obj by assumption.
      apply (countFields_obj_le (fun x => truncateStrings x n)).
      eapply Forall_impl; [| exact IH]. intros kv Hkv. exact (proj1 Hkv).
    + intros Hp. rewrite truncateStrings_obj_all by assumption.
      apply protoFree_obj in Hp as [_ Hp]. cbn [countFields].
      unfold len. rewrite length_map. f_equal.
      induction IH as [| kv o Hkv _ IHo]; cbn [List.map fold_right snd]; [reflexivity |].
      rewrite (proj2 Hkv (Forall_inv Hp)), (IHo (Forall_inv_tail Hp)). reflexivity.
Qed.





(** ** Filtering: [filterFields] *)

Lemma filterFields_fold_lookup (runDict : obj) (fields : list jstring)
    (acc : obj) (k : jstring) :
  obj_get k
    (fold_left
       (fun filtered field =>
          match obj_get field runDict with
          | Some v => obj_set field v filtered
          | None => filtered
          end) fields acc)
  = if existsb (eqb k) fields
    then match obj_get k runDict with
         | Some v => Some v
         | None => obj_get k acc
         end
    else obj_get k acc.
Proof.
  revert acc. induction fields as [| f fields IH]; intros acc;
    cbn [fold_left existsb]; [reflexivity |].
  rewrite IH. destruct (eqb k f) eqn:Ekf.
  - apply eqb_eq in Ekf. subst f. cbn [orb].
    destruct (obj_get k runDict) as [v |] eqn:Hk.
    + rewrite obj_get_set_same. now destruct (existsb (eqb k) fields).
    + now destruct (existsb (eqb k) fields).
  - cbn [orb]. destruct (obj_get f runDict) as [v |].
    + now rewrite obj_get_set_other.
    + reflexivity.
Qed.

(** X12. For selected names that objects do not inherit, [filterFields]
    is the projection on them: with a non-empty selection, looking a name
    up in the result gives the run's own value when the name is selected
    and nothing otherwise; without a selection, or with an empty one, the
    run is returned as it is. *)
Theorem filterFields_lookup (runDict : obj) :
  filterFields runDict None = runDict /\
  filterFields runDict (Some []) = runDict /\
  (forall fields k, fields <> [] ->
     forallb (fun field => negb (inherited field)) fields = true ->
     inherited k = false ->
     obj_get k (filterFields runDict (Some fields))
     = if existsb (eqb k) fields then obj_get k runDict else None).
Proof.
  split; [reflexivity |]. split; [reflexivity |].
  intros [| f fields] k Hne _ _; [congruence |].
  unfold filterFields. rewrite filterFields_fold_lookup. cbn [obj_get].
  destruct (existsb (eqb k) (f :: fields)); [| reflexivity].
  now destruct (obj_get k runDict).
Qed.

Lemma filterFields_lookup_witness :
  obj_get (u16 "name")
    (filterFields [(u16 "id", JStr (u16 "r1")); (u16 "name", JStr (u16 "run-1"))]
       (Some [u16 "name"; u16 "missing"]))
  = Some (JStr (u16 "run-1")) /\
  obj_get (u16 "id")
    (filterFields [(u16 "id", JStr (u16 "r1")); (u16 "name", JStr (u16 "run-1"))]
       (Some [u16 "name"; u16 "missing"]))
  = None.
Proof.
  destruct (filterFields_lookup
              [(u16 "id", JStr (u16 "r1")); (u16 "name", JStr (u16 "run-1"))])
    as (_ & _ & H).
  split; rewrite H by (discriminate || reflexivity); reflexivity.
Defined.

(* ------------------------------------------------------------------ *)
(** * The trace tools *)

Section TraceToolFacts.
Variable inMessage : jstring -> json -> jstring.

Local Abbreviation messagesOf := (messagesFromRun inMessage).

Lemma inOp_container (k : jstring) (v : json) :
  isContainer v = true -> exists b, inOp inMessage k v = Returns b.
Proof. destruct v; try discriminate; intros _; eexists; reflexivity. Qed.

Lemma inOp_primitive (k : jstring) (v : json) :
  isContainer v = false -> inOp inMessage k v = Throws (inMessage k v).
Proof. destruct v; try discriminate; reflexivity. Qed.

Ltac split_matches :=
  repeat (match goal with
          | |- context [match ?x with _ => _ end] => destruct x
          end;
          cbn [truthy isContainer negb andb orb inOp getProp bind obj_has opt_list]).

Lemma messagesFromInputs_outcome (run : obj) :
  if badInputs run
  then exists message, messagesFromInputs inMessage run = Throws message
  else exists messages, messagesFromInputs inMessage run = Returns messages.
Proof.
  unfold messagesFromInputs, badInputs.
  destruct (obj_get (u16 "inputs") run) as [inputs |]; [| eexists; reflexivity].
  destruct inputs as [| [] | n | s | xs | o];
    cbn [truthy isContainer];
    try destruct (n =? 0); try destruct (len s =? 0);
    cbn [truthy isContainer negb andb orb inOp getProp bind obj_has];
    split_matches; eexists; reflexivity.
Qed.

Lemma messagesFromOutputs_outcome (run : obj) :
  if badOutputs run
  then exists message, messagesFromOutputs inMessage run = Throws message
  else exists messages, messagesFromOutputs inMessage run = Returns messages.
Proof.
  unfold messagesFromOutputs, badOutputs.
  destruct (obj_get (u16 "outputs") run) as [outputs |]; [| eexists; reflexivity].
  destruct outputs as [| [] | n | s | xs | o];
    cbn [truthy isContainer];
    try destruct (n =? 0); try destruct (len s =? 0);
    cbn [truthy isContainer negb andb orb inOp getProp bind];
    try (eexists; reflexivity).
  unfold obj_has.
  destruct (obj_get (u16 "choices") o) as [[| | | | [| first rest] |] |];
    cbn [bind]; try destruct first;
    cbn [truthy isContainer negb andb orb inOp getProp bind];
    split_matches; eexists; reflexivity.
Qed.

(** X13. [messagesFromRun] throws exactly on the runs that [throwsOnRun]
    describes: inputs or outputs that are a truthy value other than an
    object or array, or a first choice that is no object or array; on
    every other run it returns. *)
Theorem messagesFromRun_throws_iff (run : obj) :
  ((exists message, messagesOf run = Throws message) <-> throwsOnRun run = true) /\
  ((exists messages, messagesOf run = Returns messages) <-> throwsOnRun run = false).
Proof.
  unfold messagesFromRun, throwsOnRun.
  pose proof (messagesFromInputs_outcome run) as Hi.
  pose proof (messagesFromOutputs_outcome run) as Ho.
  destruct (badInputs run); destruct Hi as [a ->]; cbn [bind orb].
  - split; split; try discriminate; try reflexivity.
    + intros _. eexists; reflexivity.
    + intros [? ?]. discriminate.
  - destruct (badOutputs run); destruct Ho as [b ->]; cbn [bind].
    + split; split; try discriminate; try reflexivity.
      * intros _. eexists; reflexivity.
      * intros [? ?]. discriminate.
    + split; split; try discriminate; try reflexivity.
      * intros [? ?]. discriminate.
      * intros _. eexists; reflexivity.
Qed.

Lemma previewPass_nonempty (items : list json) (pc : Z) :
  items <> [] -> previewPass items pc <> [].
Proof.
  unfold previewPass. destruct (pc >? 0); [| auto].
  destruct items; [congruence | discriminate].
Qed.

Lemma buildPages_some_page (items : list json) (m : Z) :
  items <> [] -> 1 <= len (buildPagesByCharBudget items m).
Proof.
  intros Hne. pose proof (buildPages_flat m items) as Hflat.
  destruct (buildPagesByCharBudget items m) as [| p l].
  - cbn in Hflat. congruence.
  - rewrite len_cons. pose proof (len_nonneg l). lia.
Qed.

(** A page of messages: it has no [error] field and reports the number
    of pages of the packing. *)
Lemma paginateMessages_page (items : list json) (p m pc : Z) :
  exists page,
    paginateMessages items p m pc = Some page /\
    obj_get (u16 "error") page = None /\
    obj_get k_total_pages page
      = Some (JNum (len (buildPagesByCharBudget (previewPass items pc) m))).
Proof.
  rewrite paginateMessages_unfold.
  set (sel := selectPage _ p). set (tp := len _).
  destruct (enforce_cases (messagesPage sel p tp m pc) m k_result sel eq_refl)
    as (page & Hrun & [[-> _] | [(t & _ & -> & _) | (-> & _)]]);
    exists page + eexists; (split; [exact Hrun |]); split; reflexivity.
Qed.

(** X14. The thread history is an error object or a real page, never an
    empty listing: without runs it is the error "No runs found ..."; and
    whenever the result is not an error object, the runs yielded at least
    one message, the result is the page of [paginateMessages] for those
    messages under the capped budget, and its [total_pages] is at least
    1. *)
Theorem getThreadHistory_outcome (threadId projectName : jstring)
    (runs : list obj) (p : Z) (m pc : option Z) :
  getThreadHistoryTool_runs inMessage threadId projectName [] p m pc
  = Some (errorObject (u16 "No runs found for thread " ++ threadId
                       ++ u16 " in project " ++ projectName)) /\
  exists r,
    getThreadHistoryTool_runs inMessage threadId projectName runs p m pc = Some r /\
    ((exists text, r = errorObject text) \/
     (exists messages tp,
        messages <> [] /\
        collectMessages inMessage runs = Returns messages /\
        getThreadHistoryTool messages p m pc = Some r /\
        obj_get (u16 "error") r = None /\
        obj_get k_total_pages r = Some (JNum tp) /\ 1 <= tp)).
Proof.
  split; [reflexivity |].
  unfold getThreadHistoryTool_runs.
  destruct (len runs =? 0); [eexists; split; [reflexivity | left; eexists; reflexivity] |].
  destruct (collectMessages inMessage runs) as [messages | message];
    [| eexists; split; [reflexivity | left; eexists; reflexivity]].
  destruct (Z.eqb_spec (len messages) 0) as [E | Hne];
    [eexists; split; [reflexivity | left; eexists; reflexivity] |].
  assert (Hmsgs : messages <> []) by (intros ->; now apply Hne).
  destruct (paginateMessages_page messages p
              (Z.min (orDefault m 25000) MAX_CHARS_PER_PAGE_TRACE) (orDefault pc 150))
    as (page & Hpage & Herr & Htp).
  exists page. split; [exact Hpage | right].
  eexists messages, _. repeat split; try eassumption.
  apply buildPages_some_page, previewPass_nonempty, Hmsgs.
Qed.

End TraceToolFacts.

(** ** Listing projects *)

Lemma takeProjects_firstn (limit count : Z) (listed : list obj) :
  takeProjects limit count listed = firstn (Z.to_nat (limit - count)) listed.
Proof.
  revert count. induction listed as [| project rest IH]; intros count;
    cbn [takeProjects]; [now rewrite firstn_nil |].
  destruct (Z.geb_spec count limit) as [Hge | Hlt].
  - replace (Z.to_nat (limit - count)) with 0%nat by lia. reflexivity.
  - rewrite IH.
    replace (Z.to_nat (limit - count)) with (S (Z.to_nat (limit - (count + 1)))) by lia.
    reflexivity.
Qed.

(** X15. [listProjectsTool] returns the first [limit] projects of the
    client's listing, in order (all of them when there are fewer, none
    for a limit of 0 or less, 5 when no limit is given), in the full and
    in the simplified form alike. *)
Theorem listProjects_count (listed : list obj) (limit : option Z)
    (moreInfo : option bool) :
  exists entries,
    obj_get (u16 "projects") (listProjectsTool listed limit moreInfo)
      = Some (JArr entries) /\
    len entries = Z.min (Z.max (orDefault limit 5) 0) (len listed) /\
    (moreInfo = Some true ->
     entries = List.map JObj (firstn (Z.to_nat (orDefault limit 5)) listed)) /\
    (moreInfo <> Some true ->
     entries = List.map (fun project => JObj (simpleProject project))
                 (firstn (Z.to_nat (orDefault limit 5)) listed)).
Proof.
  unfold listProjectsTool. rewrite takeProjects_firstn, Z.sub_0_r.
  set (projects := firstn _ listed).
  assert (Hlen : len projects = Z.min (Z.max (orDefault limit 5) 0) (len listed)).
  { subst projects. unfold len. rewrite length_firstn. lia. }
  destruct moreInfo as [[|] |]; eexists; (split; [reflexivity |]);
    (split; [unfold len in *; rewrite length_map; exact Hlen |]);
    split; intros H; congruence.
Qed.

(** X16. The simplified entry of a project leaks nothing: its fields are
    [name] and [project_id], with [agent_deployment_id] as the only
    possible third; [project_id] is the text of the project's [id], or
    [null] when the project has none; and an [agent_deployment_id] is
    always a truthy value that some object inside the project stores
    under [deployment_id], absent when no object inside has that key. *)
Theorem simpleProject_shape (project : obj) :
  (List.map fst (simpleProject project) = [u16 "name"; u16 "project_id"] \/
   List.map fst (simpleProject project)
     = [u16 "name"; u16 "project_id"; u16 "agent_deployment_id"]) /\
  obj_get (u16 "name") (simpleProject project)
    = Some (nullish (obj_get (u16 "name") project)) /\
  obj_get (u16 "project_id") (simpleProject project)
    = Some (match obj_get (u16 "id") project with
            | None | Some JNull => JNull
            | Some v => JStr (toStr v)
            end) /\
  (forall d,
     obj_get (u16 "agent_deployment_id") (simpleProject project) = Some d ->
     truthy d = true /\ storedUnder (u16 "deployment_id") (JObj project) d) /\
  (occurs (u16 "deployment_id") (JObj project) = false ->
   obj_get (u16 "agent_deployment_id") (simpleProject project) = None).
Proof.
  destruct (findInDict_walk (JObj project) (u16 "deployment_id")) as [Hsound Hnone].
  unfold simpleProject.
  destruct (findInDict (JObj project) (u16 "deployment_id")) as [d |] eqn:Hfind;
    [destruct (truthy d) eqn:Ht |].
  - split; [now right |]. split; [reflexivity |]. split.
    + destruct (obj_get (u16 "id") project) as [[] |]; reflexivity.
    + split.
      * intros d' [= <-]. split; [exact Ht | now apply Hsound].
      * intros Hocc. apply Hnone in Hocc. discriminate.
  - split; [now left |]. split; [reflexivity |]. split.
    + destruct (obj_get (u16 "id") project) as [[] |]; reflexivity.
    + split; [discriminate | reflexivity].
  - split; [now left |]. split; [reflexivity |]. split.
    + destruct (obj_get (u16 "id") project) as [[] |]; reflexivity.
    + split; [discriminate | reflexivity].
Qed.

(** ** Project statistics *)

Lemma splitOn_nonempty (sep : char16) (s : jstring) : splitOn sep s <> [].
Proof.
  induction s as [| c tl IH]; cbn [splitOn]; [discriminate |].
  destruct (c =? sep)%N; [discriminate |].
  destruct (splitOn sep tl); [congruence | discriminate].
Qed.

(** A string splits in one part more than it has separators. *)
Lemma len_splitOn (sep : char16) (s : jstring) :
  len (splitOn sep s) = 1 + len (List.filter (fun c => (c =? sep)%N) s).
Proof.
  induction s as [| c tl IH]; cbn [splitOn List.filter]; [reflexivity |].
  destruct (c =? sep)%N.
  - rewrite !len_cons, IH. lia.
  - pose proof (splitOn_nonempty sep tl).
    destruct (splitOn sep tl) as [| part parts]; [congruence |].
    rewrite len_cons in *. exact IH.
Qed.

Lemma splitOn_noSlash (s : jstring) : noSlash s = true -> splitOn 47%N s = [s].
Proof.
  induction s as [| c tl IH]; cbn [noSlash forallb splitOn]; [reflexivity |].
  rewrite andb_true_iff, negb_true_iff. intros [Hc Htl].
  rewrite Hc, (IH Htl). reflexivity.
Qed.

Lemma splitOn_slash (owner name : jstring) :
  noSlash owner = true ->
  splitOn 47%N (owner ++ 47%N :: name) = owner :: splitOn 47%N name.
Proof.
  induction owner as [| c tl IH]; cbn [noSlash forallb splitOn app]; [reflexivity |].
  rewrite andb_true_iff, negb_true_iff. intros [Hc Htl].
  rewrite Hc, (IH Htl). reflexivity.
Qed.

(** X17. Only a name of the form owner/name is shortened: for a name
    with exactly one slash the client is asked for the part after it, and
    a name with no slash or with several is passed as it is. *)
Theorem actualProjectName_cases :
  (forall owner name,
     noSlash owner = true -> noSlash name = true ->
     actualProjectName (Some (owner ++ 47%N :: name)) = Some name) /\
  (forall s,
     len (List.filter (fun c => (c =? 47)%N) s) <> 1 ->
     actualProjectName (Some s) = Some s) /\
  actualProjectName None = None.
Proof.
  split; [| split; [| reflexivity]].
  - intros owner name Ho Hn. unfold actualProjectName, orUndefined.
    assert (Hs : truthyStr (Some (owner ++ 47%N :: name)) = true)
      by (destruct owner; reflexivity).
    rewrite Hs, splitOn_slash, splitOn_noSlash by assumption. reflexivity.
  - intros s Hcount. unfold actualProjectName, orUndefined.
    destruct s as [| c tl]; [reflexivity |].
    cbn [truthyStr]. rewrite len_splitOn.
    destruct (Z.eqb_spec (1 + len (List.filter (fun c0 => (c0 =? 47)%N) (c :: tl))) 2);
      [lia | reflexivity].
Qed.

Lemma actualProjectName_cases_witness :
  actualProjectName (Some (u16 "acme/my-project")) = Some (u16 "my-project") /\
  actualProjectName (Some (u16 "my-project")) = Some (u16 "my-project") /\
  actualProjectName (Some (u16 "a/b/c")) = Some (u16 "a/b/c").
Proof.
  destruct actualProjectName_cases as (Hq & Hp & _).
  split; [apply (Hq (u16 "acme") (u16 "my-project")); reflexivity |].
  split; apply Hp; vm_compute; discriminate.
Defined.

Lemma obj_get_without_same (key : jstring) (o : obj) :
  obj_get key (obj_without key o) = None.
Proof.
  unfold obj_without. induction o as [| [k v] o IH]; cbn [List.filter obj_get fst];
    [reflexivity |].
  destruct (eqb k key) eqn:E; cbn [negb obj_get]; [exact IH |].
  destruct (eqb key k) eqn:E'; [| exact IH].
  apply eqb_eq in E'. subst k. rewrite eqb_refl in E. discriminate.
Qed.

Lemma obj_get_without_other (k key : jstring) (o : obj) :
  eqb k key = false -> obj_get k (obj_without key o) = obj_get k o.
Proof.
  intros Hk. unfold obj_without.
  induction o as [| [k' v'] o IH]; cbn [List.filter obj_get fst]; [reflexivity |].
  destruct (eqb k' key) eqn:E; cbn [negb obj_get].
  - apply eqb_eq in E; subst k'. now rewrite Hk.
  - now rewrite IH.
Qed.

Section StatsToolFacts.
Variable getRunStats : option jstring -> option jstring -> outcome obj.

(** X18. The statistics never carry [run_facets]; they are the error
    object when neither a project name nor a trace id is given (absent,
    empty or the word "null"); and when the client answers, the answer
    is returned with [project_name] set to the name asked for and its
    other fields untouched. *)
Theorem getProjectRunsStats_shape (projectName traceId : option jstring) :
  obj_get (u16 "run_facets")
    (getProjectRunsStatsTool getRunStats projectName traceId) = None /\
  (truthyStr (dropNullWord projectName) = false ->
   truthyStr (dropNullWord traceId) = false ->
   getProjectRunsStatsTool getRunStats projectName traceId
   = errorObject (u16 "Error: Either project_name or trace_id must be provided.")) /\
  (forall stats,
     truthyStr (dropNullWord projectName) || truthyStr (dropNullWord traceId) = true ->
     getRunStats (orUndefined (actualProjectName (dropNullWord projectName)))
                 (orUndefined (dropNullWord traceId)) = Returns stats ->
     obj_get (u16 "project_name")
       (getProjectRunsStatsTool getRunStats projectName traceId)
     = option_map JStr (actualProjectName (dropNullWord projectName)) /\
     forall k, eqb k (u16 "run_facets") = false ->
               eqb k (u16 "project_name") = false ->
       obj_get k (getProjectRunsStatsTool getRunStats projectName traceId)
       = obj_get k stats).
Proof.
  unfold getProjectRunsStatsTool. split; [| split].
  - destruct (negb (truthyStr (dropNullWord projectName))
              && negb (truthyStr (dropNullWord traceId))); [reflexivity |].
    destruct (getRunStats _ _) as [stats | message]; [| reflexivity].
    destruct (actualProjectName (dropNullWord projectName)).
    + rewrite obj_get_set_other by reflexivity. apply obj_get_without_same.
    + rewrite obj_get_without_other by reflexivity. apply obj_get_without_same.
  - intros -> ->. reflexivity.
  - intros stats Hgiven Hstats.
    assert (Hc : negb (truthyStr (dropNullWord projectName))
                 && negb (truthyStr (dropNullWord traceId)) = false).
    { destruct (truthyStr (dropNullWord projectName));
        destruct (truthyStr (dropNullWord traceId)); auto. }
    rewrite Hc, Hstats.
    destruct (actualProjectName (dropNullWord projectName)) as [name |];
      cbn [option_map]; split.
    + apply obj_get_set_same.
    + intros k H1 H2. rewrite obj_get_set_other by assumption.
      now apply obj_get_without_other.
    + apply obj_get_without_same.
    + intros k H1 H2. rewrite !obj_get_without_other by assumption. reflexivity.
Qed.

End StatsToolFacts.

(** ** The trace tree *)

Lemma fold_max_nonneg {A} (f : A -> Z) (l : list A) :
  0 <= fold_right (fun x deepest => Z.max (f x) deepest) 0 l.
Proof. induction l; cbn [fold_right]; lia. Qed.

Lemma fold_max_ge {A} (f : A -> Z) (l : list A) (x : A) :
  In x l -> f x <= fold_right (fun x deepest => Z.max (f x) deepest) 0 l.
Proof.
  induction l as [| y l IH]; cbn [fold_right In]; [tauto |].
  intros [-> | Hin]; [lia | specialize (IH Hin); lia].
Qed.

Lemma fold_max_le {A} (f : A -> Z) (l : list A) (bound : Z) :
  0 <= bound -> (forall x, In x l -> f x <= bound) ->
  fold_right (fun x deepest => Z.max (f x) deepest) 0 l <= bound.
Proof.
  intros Hb. induction l as [| y l IH]; cbn [fold_right]; intros H; [exact Hb |].
  pose proof (H y (or_introl eq_refl)).
  assert (forall x, In x l -> f x <= bound) by (intros x Hx; apply H; now right).
  specialize (IH ltac:(assumption)). lia.
Qed.

Lemma map_fixes {A} (f : A -> A) (l : list A) :
  (forall x, In x l -> f x = x) -> List.map f l = l.
Proof.
  induction l as [| y l IH]; cbn [List.map]; intros H; [reflexivity |].
  rewrite (H y (or_introl eq_refl)), IH; [reflexivity |].
  intros x Hx. apply H. now right.
Qed.

Lemma map_fixed {A} (f : A -> A) (l : list A) (x : A) :
  List.map f l = l -> In x l -> f x = x.
Proof.
  induction l as [| y l IH]; cbn [List.map In]; [tauto |].
  intros [= Hy Hl] [<- | Hin]; [exact Hy | now apply IH].
Qed.

Lemma treeEntries_assigned (f : json -> json) (o : obj) :
  treeEntries f o = List.map (fun kv => (fst kv, f (snd kv))) (assigned o).
Proof. apply (flat_map_assigned (fun kv => (fst kv, f (snd kv)))). Qed.

Lemma treeEntries_fixes (f : json -> json) (o : obj) :
  assigned o = o ->
  (forall kv, In kv o -> f (snd kv) = snd kv) -> treeEntries f o = o.
Proof.
  intros Ho H. rewrite treeEntries_assigned, Ho. apply map_fixes.
  intros [k v] Hin. cbn [fst snd]. f_equal. exact (H (k, v) Hin).
Qed.

Lemma len_pos_cons {A} (x : A) (l : list A) : (len (x :: l) =? 0) = false.
Proof. rewrite len_cons. pose proof (len_nonneg l). apply Z.eqb_neq. lia. Qed.

(** Without a property named [__proto__], a value no deeper than
    [depth] is stored as it is, and an object no deeper than [depth + 1]
    is its own tree. *)
Lemma treeValue_deep (v : json) :
  protoFree v = true ->
  (forall depth, nesting v <= depth -> treeValue depth v = v) /\
  (forall d, v = JObj d ->
     forall depth, nesting v <= depth + 1 -> treeEntries (treeValue depth) d = d).
Proof.
  induction v as [| b | n | s | xs IH | o IH] using json_nested_ind; intros Hp;
    try (split; [reflexivity | discriminate]).
  - split; [| discriminate]. intros depth Hd. rewrite Forall_forall in IH.
    apply protoFree_arr in Hp. rewrite Forall_forall in Hp.
    destruct xs as [| x0 xs0]; [reflexivity |].
    remember (x0 :: xs0) as xs eqn:Exs.
    assert (Hmem : forall item, In item xs -> nesting item <= depth - 1).
    { intros item Hin. cbn [nesting] in Hd.
      pose proof (fold_max_ge nesting xs item Hin). lia. }
    assert (Hpos : (depth >? 0) = true).
    { cbn [nesting] in Hd. pose proof (fold_max_nonneg nesting xs).
      apply Z.gtb_lt. lia. }
    cbn [treeValue]. rewrite Exs at 1. rewrite len_pos_cons, Hpos. f_equal.
    apply map_fixes. intros item Hin.
    pose proof (Hmem item Hin) as Hitem.
    destruct (IH item Hin (Hp item Hin)) as [Hval Hobj].
    destruct item as [| b | n | s | subitems | d]; try reflexivity.
    + f_equal. apply map_fixes. intros subitem Hsub.
      destruct subitem as [| b | n | s | ys | d]; try reflexivity.
      specialize (Hval depth ltac:(lia)). cbn [treeValue] in Hval.
      assert (Hne : (len subitems =? 0) = false)
        by (destruct subitems; [destruct Hsub | apply len_pos_cons]).
      rewrite Hne, Hpos in Hval. injection Hval as Hval.
      apply (map_fixed _ _ (JObj d)) in Hval; [exact Hval | exact Hsub].
    + f_equal. apply (Hobj d eq_refl). lia.
  - rewrite Forall_forall in IH.
    apply protoFree_obj in Hp as [Ho Hp]. rewrite Forall_forall in Hp.
    assert (Hmem : forall kv, In kv o ->
                     nesting (snd kv) <= nesting (JObj o) - 1).
    { intros kv Hin. cbn [nesting].
      pose proof (fold_max_ge (fun kv => nesting (snd kv)) o kv Hin). cbv beta in *. lia. }
    split.
    + intros depth Hd. destruct o as [| kv0 o0]; [reflexivity |].
      remember (kv0 :: o0) as o eqn:Eo.
      assert (Hpos : (depth >? 0) = true).
      { cbn [nesting] in Hd.
        pose proof (fold_max_nonneg (fun kv => nesting (snd kv)) o). cbv beta in *.
        apply Z.gtb_lt. lia. }
      cbn [treeValue]. rewrite Eo at 1. rewrite len_pos_cons, Hpos. f_equal.
      apply treeEntries_fixes; [exact Ho |]. intros kv Hin.
      apply (IH kv Hin (Hp kv Hin)). specialize (Hmem kv Hin). lia.
    + intros d [= <-] depth Hd. apply treeEntries_fixes; [exact Ho |]. intros kv Hin.
      apply (IH kv Hin (Hp kv Hin)). specialize (Hmem kv Hin). lia.
Qed.

(** X19. With enough depth the trace tree of a run without a property
    named [__proto__] is the run itself: nothing is summarised when the
    run, as an object, nests no deeper than [depth + 1]. *)
Theorem buildTraceTree_deep_enough (runDict : obj) (depth : Z) :
  protoFree (JObj runDict) = true ->
  nesting (JObj runDict) <= depth + 1 ->
  buildTraceTree runDict depth = runDict.
Proof.
  intros Hp Hd. unfold buildTraceTree.
  exact (proj2 (treeValue_deep (JObj runDict) Hp) runDict eq_refl depth Hd).
Qed.

Lemma buildTraceTree_deep_enough_witness :
  nesting (JObj [(u16 "inputs", JObj [(u16 "messages", JArr [msg_user])])]) <= 3 + 1 /\
  buildTraceTree [(u16 "inputs", JObj [(u16 "messages", JArr [msg_user])])] 3
  = [(u16 "inputs", JObj [(u16 "messages", JArr [msg_user])])].
Proof.
  split; [vm_compute; discriminate |].
  apply buildTraceTree_deep_enough; [reflexivity | vm_compute; discriminate].
Defined.

Lemma nesting_JObj (o : obj) :
  nesting (JObj o) = 1 + fold_right (fun kv deepest => Z.max (nesting (snd kv)) deepest) 0 o.
Proof. reflexivity. Qed.

Lemma nesting_JArr (xs : list json) :
  nesting (JArr xs) = 1 + fold_right (fun x deepest => Z.max (nesting x) deepest) 0 xs.
Proof. reflexivity. Qed.

Lemma nesting_strings (l : list jstring) : nesting (JArr (List.map JStr l)) = 1.
Proof.
  rewrite nesting_JArr.
  induction l as [| s l IH]; cbn [List.map fold_right nesting] in *; lia.
Qed.

Lemma nesting_previewItem (item : json) : nesting (previewItem item) <= 2.
Proof.
  destruct item as [| b | n | s | xs | o].
  1-4: cbn [previewItem nesting]; lia.
  - cbn [previewItem nesting fold_right snd]. lia.
  - unfold previewItem. rewrite nesting_JObj. cbn [fold_right snd].
    rewrite nesting_strings. cbn [nesting]. lia.
Qed.

Lemma countFields_object (kv : jstring * json) (o : obj) :
  1 <= countFields (JObj (kv :: o)).
Proof.
  cbn [countFields fold_right]. rewrite len_cons.
  pose proof (len_nonneg o). pose proof (countFields_nonneg (snd kv)).
  pose proof (countFields_nonneg (JObj o)) as Ho. cbn [countFields] in Ho. lia.
Qed.

Lemma nesting_summary (depth : Z) (v : json) :
  depth <= 0 -> nesting (treeValue depth v) <= 4.
Proof.
  intros Hd. assert (Hpos : (depth >? 0) = false) by (rewrite Z.gtb_ltb; apply Z.ltb_ge; lia).
  destruct v as [| b | n | s | xs | o]; cbn [treeValue]; try (cbn [nesting]; lia).
  - destruct (len xs =? 0); [cbn [nesting fold_right]; lia |]. rewrite Hpos.
    unfold listSummary. rewrite nesting_JObj. cbn [fold_right snd].
    enough (nesting (JArr (List.map previewItem (firstn 2 xs))) <= 3)
      by (cbn [nesting] in *; lia).
    rewrite nesting_JArr.
    enough (fold_right (fun x deepest => Z.max (nesting x) deepest) 0
              (List.map previewItem (firstn 2 xs)) <= 2) by lia.
    apply fold_max_le; [lia |].
    intros x Hx. apply in_map_iff in Hx as (item & <- & _). apply nesting_previewItem.
  - destruct (len o =? 0); [cbn [nesting fold_right]; lia |]. rewrite Hpos.
    unfold dictSummary. destruct (countFields (JObj o) =? 0); [cbn [nesting fold_right]; lia |].
    rewrite nesting_JObj. cbn [fold_right snd].
    rewrite nesting_strings. cbn [nesting]. lia.
Qed.

Lemma obj_get_assigned (key : jstring) (o : obj) :
  eqb key k_proto = false -> obj_get key (assigned o) = obj_get key o.
Proof. intros Hk. now apply (obj_get_without_other key k_proto o). Qed.

(** X20. At depth 0 the tree is a bounded summary: it nests at most five
    levels however deep the run is; when no key of the run is [__proto__]
    it has the fields of the run, in their order; and under every other
    key a primitive field is kept as it is and a non-empty object is
    replaced by a [dict] summary carrying its field and character counts,
    never by an empty object. *)
Theorem buildTraceTree_summary (runDict : obj) (depth : Z) :
  depth <= 0 ->
  nesting (JObj (buildTraceTree runDict depth)) <= 5 /\
  (forallb (fun kv => negb (eqb (fst kv) k_proto)) runDict = true ->
   List.map fst (buildTraceTree runDict depth) = List.map fst runDict) /\
  (forall key v,
     eqb key k_proto = false ->
     obj_get key runDict = Some v -> isContainer v = false ->
     obj_get key (buildTraceTree runDict depth) = Some v) /\
  (forall key kv d,
     eqb key k_proto = false ->
     obj_get key runDict = Some (JObj (kv :: d)) ->
     obj_get key (buildTraceTree runDict depth)
     = Some (JObj [ (u16 "_type", JStr (u16 "dict"));
                    (u16 "_field_count", JNum (countFields (JObj (kv :: d))));
                    (u16 "_character_count", JNum (countCharacters (JObj (kv :: d))));
                    (u16 "_keys",
                     JArr (List.map JStr (firstn 10 (List.map fst (kv :: d))))) ]) /\
     1 <= countFields (JObj (kv :: d))).
Proof.
  intros Hd. assert (Hpos : (depth >? 0) = false) by (rewrite Z.gtb_ltb; apply Z.ltb_ge; lia).
  unfold buildTraceTree. rewrite treeEntries_assigned.
  split; [| split; [| split]].
  - cbn [nesting].
    enough (fold_right (fun kv deepest => Z.max (nesting (snd kv)) deepest) 0
              (List.map (fun kv => (fst kv, treeValue depth (snd kv))) (assigned runDict))
            <= 4) by lia.
    apply (fold_max_le (fun kv => nesting (snd kv))); [lia |].
    intros kv Hin.
    apply in_map_iff in Hin as (kv0 & <- & _). cbn [snd]. now apply nesting_summary.
  - intros Hkeys. rewrite (assigned_all runDict Hkeys), map_map. reflexivity.
  - intros key v Hk Hget Hprim.
    rewrite (obj_get_map_values (treeValue depth)), obj_get_assigned, Hget by assumption.
    cbn [option_map]. destruct v; try discriminate; reflexivity.
  - intros key kv d Hk Hget. split; [| apply countFields_object].
    rewrite (obj_get_map_values (treeValue depth)), obj_get_assigned, Hget by assumption.
    cbn [option_map treeValue].
    rewrite len_pos_cons, Hpos. unfold dictSummary.
    pose proof (countFields_object kv d).
    destruct (Z.eqb_spec (countFields (JObj (kv :: d))) 0); [lia | reflexivity].
Qed.

Lemma buildTraceTree_summary_witness :
  nesting (JObj (buildTraceTree
                   [(u16 "inputs", JObj [(u16 "messages", JArr [msg_user])])] 0)) <= 5 /\
  List.map fst (buildTraceTree
                  [(u16 "inputs", JObj [(u16 "messages", JArr [msg_user])])] 0)
  = [u16 "inputs"].
Proof.
  destruct (buildTraceTree_summary
              [(u16 "inputs", JObj [(u16 "messages", JArr [msg_user])])] 0 ltac:(lia))
    as (Hn & Hk & _).
  split; [exact Hn | exact (Hk eq_refl)].
Defined.

(** ** Messages of a run *)

Ltac no_member := let H := fresh in intros H; exact (False_ind _ H).

Lemma singleMessage_in (o : obj) (m : json) :
  In m (singleMessage o) -> isObject m = true /\ exists k, In (k, m) o.
Proof.
  unfold singleMessage.
  destruct (obj_get (u16 "message") o) as [[| b | n | s | xs | d] |] eqn:Hget;
    try no_member.
  intros [<- | []]. split; [reflexivity | exact (obj_get_In _ _ _ Hget)].
Qed.

Lemma choiceMessages_in (o : obj) (m : json) :
  In m match obj_get (u16 "choices") o with
       | Some (JArr choices) =>
           flat_map (fun choice => match choice with
                                   | JObj c => singleMessage c
                                   | _ => []
                                   end) choices
       | _ => []
       end ->
  isObject m = true /\ within m (JObj o).
Proof.
  destruct (obj_get (u16 "choices") o) as [[| b | n | s | choices | d] |] eqn:Hget;
    try no_member.
  intros Hin. apply in_flat_map in Hin as (choice & Hchoice & Hm).
  destruct choice as [| b | n | s | xs | c]; try (destruct Hm).
  apply singleMessage_in in Hm as [Hobj [k Hk]]. split; [exact Hobj |].
  destruct (obj_get_In _ _ _ Hget) as [k' Hk'].
  apply (within_prop_deep m o k' (JArr choices) Hk').
  apply (within_item_deep m choices (JObj c) Hchoice).
  exact (within_prop m c k Hk).
Qed.

(** What [extractMessagesFromDict] finds is an object nested inside the
    data. *)
Lemma extractMessagesFromDict_in (data : json) :
  forall depth maxDepth m,
    In m (extractMessagesFromDict data depth maxDepth) ->
    isObject m = true /\ within m data.
Proof.
  induction data as [| b | n | s | xs IH | o IH] using json_nested_ind;
    intros depth maxDepth m; cbn [extractMessagesFromDict];
    destruct (depth >? maxDepth); try no_member.
  - rewrite Forall_forall in IH. intros Hin.
    apply in_flat_map in Hin as (item & Hitem & Hm).
    destruct item as [| b | n | s | ys | d]; try (destruct Hm);
      apply (IH _ Hitem) in Hm as [Hobj Hw]; (split; [exact Hobj |]);
      exact (within_item_deep m xs _ Hitem Hw).
  - rewrite Forall_forall in IH.
    assert (Hfall :
      In m (if len (singleMessage o ++
                    match obj_get (u16 "choices") o with
                    | Some (JArr choices) =>
                        flat_map (fun choice => match choice with
                                                | JObj c => singleMessage c
                                                | _ => []
                                                end) choices
                    | _ => []
                    end) >? 0
            then singleMessage o ++
                 match obj_get (u16 "choices") o with
                 | Some (JArr choices) =>
                     flat_map (fun choice => match choice with
                                             | JObj c => singleMessage c
                                             | _ => []
                                             end) choices
                 | _ => []
                 end
            else flat_map (fun kv => match snd kv with
                                     | JObj _ | JArr _ =>
                                         extractMessagesFromDict (snd kv) (depth + 1) maxDepth
                                     | _ => []
                                     end) o) ->
      isObject m = true /\ within m (JObj o)).
    { destruct (len _ >? 0).
      - intros Hin. apply in_app_or in Hin as [Hin | Hin].
        + apply singleMessage_in in Hin as [Hobj [k Hk]].
          split; [exact Hobj | exact (within_prop m o k Hk)].
        + now apply choiceMessages_in.
      - intros Hin. apply in_flat_map in Hin as ([k v] & Hkv & Hm). cbn [snd] in Hm.
        destruct v as [| b | n | s | ys | d]; try (destruct Hm);
          apply (IH _ Hkv) in Hm as [Hobj Hw]; (split; [exact Hobj |]);
          exact (within_prop_deep m o k _ Hkv Hw). }
    destruct (obj_get (u16 "messages") o) as [[| b | n | s | msgs | d] |] eqn:Hget;
      try exact Hfall.
    intros Hin. apply filter_In in Hin as [Hin Hobj]. split; [exact Hobj |].
    destruct (obj_get_In _ _ _ Hget) as [k Hk].
    exact (within_prop_deep m o k (JArr msgs) Hk (within_item m msgs Hin)).
Qed.

Lemma messageIds_cons (msg : json) (rest : list json) :
  messageIds (msg :: rest)
  = match messageId msg with Some s => [s] | None => [] end ++ messageIds rest.
Proof. reflexivity. Qed.

Lemma existsb_eqb_In (s : jstring) (seen : list jstring) :
  existsb (eqb s) seen = true <-> In s seen.
Proof.
  rewrite existsb_exists. split.
  - intros (x & Hin & Hx). apply eqb_eq in Hx. now subst.
  - intros Hin. exists s. split; [exact Hin | apply eqb_refl].
Qed.

(** The loop that removes duplicates: what it keeps was collected, is an
    object and has an id not seen before. *)
Lemma dedupe_in (messages : list json) :
  forall seenIds m,
    In m (dedupe seenIds messages) ->
    In m messages /\ isObject m = true /\
    forall s, messageId m = Some s -> ~ In s seenIds.
Proof.
  induction messages as [| msg rest IH]; intros seenIds m; cbn [dedupe]; [intros [] |].
  destruct (isObject msg) eqn:Hobj.
  - destruct (messageId msg) as [msgId |] eqn:Hid.
    + destruct (existsb (eqb msgId) seenIds) eqn:Hseen.
      * intros Hin. apply IH in Hin as (H1 & H2 & H3). repeat split; auto. now right.
      * intros [<- | Hin].
        -- repeat split; [now left | exact Hobj |].
           intros s Hs Hin. rewrite Hid in Hs. injection Hs as <-.
           apply existsb_eqb_In in Hin. congruence.
        -- apply IH in Hin as (H1 & H2 & H3). repeat split; [now right | exact H2 |].
           intros s Hs Hin. apply (H3 s Hs). now right.
    + intros [<- | Hin].
      * repeat split; [now left | exact Hobj |]. intros s Hs. congruence.
      * apply IH in Hin as (H1 & H2 & H3). repeat split; auto. now right.
  - intros Hin. apply IH in Hin as (H1 & H2 & H3). repeat split; auto. now right.
Qed.

Lemma dedupe_ids_fresh (messages : list json) (seenIds : list jstring) (s : jstring) :
  In s (messageIds (dedupe seenIds messages)) -> ~ In s seenIds.
Proof.
  unfold messageIds. intros Hin. apply in_flat_map in Hin as (m & Hm & Hs).
  apply dedupe_in in Hm as (_ & _ & Hfresh).
  destruct (messageId m) as [s' |]; [| destruct Hs].
  destruct Hs as [<- | []]. now apply Hfresh.
Qed.

Lemma dedupe_NoDup (messages : list json) :
  forall seenIds, NoDup (messageIds (dedupe seenIds messages)).
Proof.
  induction messages as [| msg rest IH]; intros seenIds; cbn [dedupe]; [constructor |].
  destruct (isObject msg); [| apply IH].
  destruct (messageId msg) as [msgId |] eqn:Hid.
  - destruct (existsb (eqb msgId) seenIds); [apply IH |].
    rewrite messageIds_cons, Hid. cbn [app]. constructor; [| apply IH].
    intros Hin. apply dedupe_ids_fresh in Hin. apply Hin. now left.
  - rewrite messageIds_cons, Hid. apply IH.
Qed.

(** Every collected object is kept, or stands behind a kept message with
    its id, or has an id seen before. *)
Lemma dedupe_covers (messages : list json) :
  forall seenIds m,
    In m messages -> isObject m = true ->
    match messageId m with
    | None => In m (dedupe seenIds messages)
    | Some s =>
        In s seenIds \/
        exists kept, In kept (dedupe seenIds messages) /\ messageId kept = Some s
    end.
Proof.
  induction messages as [| msg rest IH]; intros seenIds m; cbn [dedupe In]; [tauto |].
  intros [-> | Hin] Hobj.
  - rewrite Hobj. destruct (messageId m) as [s |] eqn:Hid; [| now left].
    destruct (existsb (eqb s) seenIds) eqn:Hseen.
    + left. now apply existsb_eqb_In.
    + right. exists m. split; [now left | exact Hid].
  - specialize (IH seenIds m Hin Hobj) as IHsame.
    destruct (isObject msg); [| exact IHsame].
    destruct (messageId msg) as [msgId |] eqn:Hmsg.
    + destruct (existsb (eqb msgId) seenIds); [exact IHsame |].
      specialize (IH (msgId :: seenIds) m Hin Hobj).
      destruct (messageId m) as [s |]; [| now right].
      destruct IH as [[<- | Hseen] | (kept & Hkept & Hk)].
      * right. exists msg. split; [now left | exact Hmsg].
      * now left.
      * right. exists kept. split; [now right | exact Hk].
    + destruct (messageId m) as [s |]; [| now right].
      destruct IHsame as [Hseen | (kept & Hkept & Hk)]; [now left |].
      right. exists kept. split; [now right | exact Hk].
Qed.

Lemma collectedMessages_in (runDict : obj) (m : json) :
  In m (collectedMessages runDict) -> isObject m = true /\ within m (JObj runDict).
Proof.
  unfold collectedMessages. intros Hin. apply in_app_or in Hin as [Hin | Hin].
  - destruct (obj_get (u16 "inputs") runDict) as [inputs |] eqn:Hget; [| destruct Hin].
    destruct (obj_get_In _ _ _ Hget) as [k Hk].
    destruct inputs; try (destruct Hin);
      apply extractMessagesFromDict_in in Hin as [Hobj Hw]; (split; [exact Hobj |]);
      exact (within_prop_deep m runDict k _ Hk Hw).
  - destruct (obj_get (u16 "outputs") runDict) as [outputs |] eqn:Hget; [| destruct Hin].
    destruct (obj_get_In _ _ _ Hget) as [k Hk].
    destruct outputs; try (destruct Hin);
      apply extractMessagesFromDict_in in Hin as [Hobj Hw]; (split; [exact Hobj |]);
      exact (within_prop_deep m runDict k _ Hk Hw).
Qed.

(** X21. The messages of a run are never invented: each of them is an
    object nested inside the run, and nothing is looked for below the
    depth limit. *)
Theorem extractMessages_sound (runDict : obj) :
  (forall m, In m (extractMessagesFromRun runDict) ->
     isObject m = true /\ within m (JObj runDict)) /\
  (forall data depth maxDepth,
     maxDepth < depth -> extractMessagesFromDict data depth maxDepth = []).
Proof.
  split.
  - intros m Hin. unfold extractMessagesFromRun in Hin.
    apply dedupe_in in Hin as [Hin _]. now apply collectedMessages_in.
  - intros data depth maxDepth Hd.
    assert (Hgt : (depth >? maxDepth) = true) by (apply Z.gtb_lt; lia).
    destruct data; cbn [extractMessagesFromDict]; rewrite Hgt; reflexivity.
Qed.

(** X22. Duplicates are removed by id and nothing else is lost: no two
    messages returned share a string id; the messages returned are among
    those collected from the inputs and outputs; a collected message
    without a string id is always returned, and for one with a string id
    a message with that id is. *)
Theorem extractMessages_dedup (runDict : obj) :
  NoDup (messageIds (extractMessagesFromRun runDict)) /\
  (forall m, In m (extractMessagesFromRun runDict) -> In m (collectedMessages runDict)) /\
  (forall m, In m (collectedMessages runDict) ->
     match messageId m with
     | None => In m (extractMessagesFromRun runDict)
     | Some s => exists kept, In kept (extractMessagesFromRun runDict) /\
                              messageId kept = Some s
     end).
Proof.
  unfold extractMessagesFromRun. split; [apply dedupe_NoDup | split].
  - intros m Hin. now apply dedupe_in in Hin.
  - intros m Hin.
    pose proof (dedupe_covers (collectedMessages runDict) [] m Hin
                  (proj1 (collectedMessages_in runDict m Hin))) as H.
    destruct (messageId m) as [s |]; [| exact H].
    destruct H as [[] | H]; exact H.
Qed.

(** ** The repository's tests of the helpers, as checks of the model *)

Example test_finds_top_level_key :
  findInDict (JObj [(u16 "a", JNum 1); (u16 "b", JNum 2)]) (u16 "b") = Some (JNum 2).
Proof. reflexivity. Qed.

Example test_finds_deeply_nested_key :
  findInDict
    (JObj [(u16 "level1", JObj [(u16 "level2", JObj [(u16 "target", JStr (u16 "found"))])])])
    (u16 "target")
  = Some (JStr (u16 "found")).
Proof. reflexivity. Qed.

Example test_finds_key_in_array_of_objects :
  findInDict
    (JObj [(u16 "items",
            JArr [JObj [(u16 "id", JNum 1)];
                  JObj [(u16 "id", JNum 2); (u16 "secret", JStr (u16 "yes"))]])])
    (u16 "secret")
  = Some (JStr (u16 "yes")).
Proof. reflexivity. Qed.

Example test_absent_key_is_undefined :
  findInDict (JObj [(u16 "a", JNum 1)]) (u16 "missing") = None /\
  findInDict (JStr (u16 "string")) (u16 "key") = None /\
  findInDict JNull (u16 "key") = None.
Proof. repeat split; reflexivity. Qed.

Example test_messages_from_inputs :
  List.map (obj_get (u16 "role"))
    (List.map (fun m => match m with JObj o => o | _ => [] end)
       (extractMessagesFromRun
          [(u16 "inputs",
            JObj [(u16 "messages",
                   JArr [JObj [(u16 "role", JStr (u16 "user"));
                               (u16 "content", JStr (u16 "question"))];
                         JObj [(u16 "role", JStr (u16 "assistant"));
                               (u16 "content", JStr (u16 "answer"))]])]);
           (u16 "outputs", JNull)]))
  = [Some (JStr (u16 "user")); Some (JStr (u16 "assistant"))].
Proof. reflexivity. Qed.

Example test_messages_from_outputs :
  extractMessagesFromRun
    [(u16 "inputs", JObj []);
     (u16 "outputs",
      JObj [(u16 "messages",
             JArr [JObj [(u16 "role", JStr (u16 "assistant"));
                         (u16 "content", JStr (u16 "response"))]])])]
  = [JObj [(u16 "role", JStr (u16 "assistant")); (u16 "content", JStr (u16 "response"))]].
Proof. reflexivity. Qed.

Example test_messages_from_choices :
  extractMessagesFromRun
    [(u16 "inputs", JObj []);
     (u16 "outputs",
      JObj [(u16 "choices",
             JArr [JObj [(u16 "message",
                          JObj [(u16 "role", JStr (u16 "assistant"));
                                (u16 "content", JStr (u16 "openai style"))])]])])]
  = [JObj [(u16 "role", JStr (u16 "assistant"));
           (u16 "content", JStr (u16 "openai style"))]].
Proof. reflexivity. Qed.

Example test_deduplicates_by_id :
  len (extractMessagesFromRun
         [(u16 "inputs",
           JObj [(u16 "messages",
                  JArr [JObj [(u16 "id", JStr (u16 "msg-1"));
                              (u16 "role", JStr (u16 "user"));
                              (u16 "content", JStr (u16 "hello"))]])]);
          (u16 "outputs",
           JObj [(u16 "messages",
                  JArr [JObj [(u16 "id", JStr (u16 "msg-1"));
                              (u16 "role", JStr (u16 "user"));
                              (u16 "content", JStr (u16 "hello"))]])])])
  = 1.
Proof. reflexivity. Qed.

Example test_no_messages_found :
  extractMessagesFromRun
    [(u16 "inputs", JObj [(u16 "data", JStr (u16 "raw"))]);
     (u16 "outputs", JObj [(u16 "result", JNum 42)])] = [] /\
  extractMessagesFromRun [(u16 "inputs", JNull); (u16 "outputs", JNull)] = [].
Proof. split; reflexivity. Qed.

Example test_simplified_projects_by_default :
  listProjectsTool
    [ [(u16 "id", JStr (u16 "proj-1")); (u16 "name", JStr (u16 "my-project"))];
      [(u16 "id", JStr (u16 "proj-2")); (u16 "name", JStr (u16 "other-project"))] ]
    (Some 10) None
  = [(u16 "projects",
      JArr [JObj [(u16 "name", JStr (u16 "my-project"));
                  (u16 "project_id", JStr (u16 "proj-1"))];
            JObj [(u16 "name", JStr (u16 "other-project"));
                  (u16 "project_id", JStr (u16 "proj-2"))]])].
Proof. reflexivity. Qed.

Example test_full_projects_with_more_info :
  listProjectsTool
    [ [(u16 "id", JStr (u16 "proj-1")); (u16 "name", JStr (u16 "my-project"));
       (u16 "created_at", JStr (u16 "2024-01-01T00:00:00.000Z"));
       (u16 "run_count", JNum 42)] ]
    (Some 5) (Some true)
  = [(u16 "projects",
      JArr [JObj [(u16 "id", JStr (u16 "proj-1")); (u16 "name", JStr (u16 "my-project"));
                  (u16 "created_at", JStr (u16 "2024-01-01T00:00:00.000Z"));
                  (u16 "run_count", JNum 42)]])].
Proof. reflexivity. Qed.
